(** * Overlay annotation editor: a model of [pdf_editor.tsx] and [pdf_viewer.tsx]

    The development follows the two React components of the repository:

    - [PdfViewerDisplay] (pdf_viewer.tsx): the page surface registry, which
      polls for the renderer's root element, observes structural changes and
      emits the page-index -> page-container mapping;
    - [PdfEditor] (pdf_editor.tsx): the overlay canvases, the annotation
      store, the pointer gesture handler, the tool switch and the export.

    Modelling conventions.
    - JavaScript [Map<number, _>] objects and the [Record<number, _>] mapping
      are finite maps [gmap nat _]; a [forEach] over their keys is a left fold
      over the key list.
    - Pixel coordinates are integers ([Z]); canvas and element sizes are
      naturals ([N]), as [canvas.width] and [offsetWidth] are unsigned.
    - A canvas bitmap is the list of paint operations applied since the last
      full clear, each with the context attributes that decide its pixels.
    - [uuidv4()] is a counter in the state; the answer of [prompt], the
      bounding rectangle of a canvas and the outcome of [getContext('2d')]
      are inputs carried by the event that needs them.
    - React: [setActiveTool] with a new value commits a render before the
      next event; the canvas lifecycle effect runs at a render when one of
      its dependencies ([pageContainerRefs.current] by identity, [activeTool])
      differs from the previous render. *)

From Equations Require Import Equations.
From stdpp Require Import gmap strings list fin_maps numbers.

Local Open Scope Z_scope.
#[local] Set Warnings "-clear-no-such-hyp".

(** ** Data model *)

(** [type Tool = 'none' | 'blur' | 'erase' | 'addText'] *)
Inductive Tool := none | blur | erase | addText.

#[global] Instance Tool_eq_dec : EqDecision Tool.
Proof. solve_decision. Defined.

(** [tool === 'blur' || tool === 'erase' || tool === 'addText'] *)
Definition isDrawingTool (tool : Tool) : bool :=
  match tool with
  | blur | erase | addText => true
  | none => false
  end.

(** [{ x: number; y: number }] *)
Record Point := mkPoint { pt_x : Z; pt_y : Z }.

#[global] Instance Point_eq_dec : EqDecision Point.
Proof. solve_decision. Defined.

(** The [data] payload of an annotation. The source keeps [type: Tool] next
    to [data: any]; every annotation it builds pairs 'blur' with
    [{startX,startY,endX,endY}], 'erase' with [{path}] and 'addText' with
    [{x,y,text}], so the payload is a tagged union and the type is read off
    its tag. *)
Inductive AnnotationData :=
| BlurData (startX startY endX endY : Z)
| EraseData (path : list Point)
| TextData (tx ty : Z) (text : string).

Record Annotation := mkAnnotation {
  ann_id : nat;
  ann_pageIndex : nat;
  ann_data : AnnotationData
}.

Definition ann_type (a : Annotation) : Tool :=
  match ann_data a with
  | BlurData _ _ _ _ => blur
  | EraseData _ => erase
  | TextData _ _ _ => addText
  end.

(** *** Canvas 2D context *)

Inductive Filter := filter_none | filter_blur4px.
Inductive LineCap := cap_butt | cap_round.

(** A paint operation, with the context attributes in force when it ran.
    [globalCompositeOperation] is 'source-over' from creation on and the
    source only ever assigns 'source-over' to it, so it is left out. *)
Inductive DrawOp :=
| FillRect (rx ry rw rh : Z) (style : string) (flt : Filter)
| Stroke (pts : list Point) (style : string) (width : Z) (cap : LineCap)
         (flt : Filter)
| FillText (text : string) (tx ty : Z) (font style : string) (flt : Filter).

Record Context2D := mkContext {
  ctx_filter : Filter;
  ctx_fillStyle : string;
  ctx_strokeStyle : string;
  ctx_lineWidth : Z;
  ctx_lineCap : LineCap;
  ctx_font : string;
  ctx_bitmap : list DrawOp
}.

(** A context as [getContext('2d')] hands it out, and as assigning
    [canvas.width] or [canvas.height] leaves it: default attributes, blank
    bitmap. *)
Definition freshContext : Context2D :=
  {| ctx_filter := filter_none;
     ctx_fillStyle := "#000000";
     ctx_strokeStyle := "#000000";
     ctx_lineWidth := 1;
     ctx_lineCap := cap_butt;
     ctx_font := "10px sans-serif";
     ctx_bitmap := [] |}.

Inductive PointerEvents := pe_auto | pe_none.
Inductive Cursor := cursor_crosshair | cursor_text | cursor_default.

#[global] Instance PointerEvents_eq_dec : EqDecision PointerEvents.
Proof. solve_decision. Defined.

(** Where a canvas has been appended: the page's '.rpv-core__page-layer' or
    the '.rpv-core__inner-page' element itself. *)
Inductive CanvasParent := in_page_layer | in_inner_page.

(** The overlay canvas of one page. *)
Record Canvas := mkCanvas {
  cv_width : N;
  cv_height : N;
  cv_parent : CanvasParent;
  cv_zIndex : Z;
  cv_pointerEvents : PointerEvents;
  cv_cursor : Cursor
}.

(** A page container ('.rpv-core__inner-page'), owned by the renderer: the
    properties the editor reads, and the pointer-events style of its text
    layer ('.rpv-core__text-layer'), which the editor writes. *)
Record PageElement := mkPageElement {
  offsetWidth : N;
  offsetHeight : N;
  hasPageLayer : bool;
  textLayer : option PointerEvents
}.

(** ** Editor state: the refs and state hooks of [PdfEditor] *)

Record State := mkState {
  activeTool : Tool;
  pageContainerRefs : gmap nat PageElement;
  (** identity of the object held by [pageContainerRefs.current] *)
  refsIdentity : nat;
  canvasRefs : gmap nat Canvas;
  contextRefs : gmap nat Context2D;
  annotationsRef : gmap nat (list Annotation);
  isDrawingRef : bool;
  startCoordsRef : option Point;
  currentCoordsRef : option Point;
  (** number of [uuidv4()] calls so far *)
  uuidCounter : nat;
  (** dependencies of the lifecycle effect at the last render *)
  depsIdentity : nat;
  depsTool : Tool
}.

(** State of a freshly mounted editor: the first render has run the
    lifecycle effect on an empty mapping. *)
Definition initialState : State :=
  {| activeTool := none;
     pageContainerRefs := ∅;
     refsIdentity := 0%nat;
     canvasRefs := ∅;
     contextRefs := ∅;
     annotationsRef := ∅;
     isDrawingRef := false;
     startCoordsRef := None;
     currentCoordsRef := None;
     uuidCounter := 0%nat;
     depsIdentity := 0%nat;
     depsTool := none |}.

Definition with_contextRefs (m : gmap nat Context2D) (s : State) : State :=
  {| activeTool := activeTool s;
     pageContainerRefs := pageContainerRefs s;
     refsIdentity := refsIdentity s;
     canvasRefs := canvasRefs s;
     contextRefs := m;
     annotationsRef := annotationsRef s;
     isDrawingRef := isDrawingRef s;
     startCoordsRef := startCoordsRef s;
     currentCoordsRef := currentCoordsRef s;
     uuidCounter := uuidCounter s;
     depsIdentity := depsIdentity s;
     depsTool := depsTool s |}.

Definition with_canvasRefs (m : gmap nat Canvas) (s : State) : State :=
  {| activeTool := activeTool s;
     pageContainerRefs := pageContainerRefs s;
     refsIdentity := refsIdentity s;
     canvasRefs := m;
     contextRefs := contextRefs s;
     annotationsRef := annotationsRef s;
     isDrawingRef := isDrawingRef s;
     startCoordsRef := startCoordsRef s;
     currentCoordsRef := currentCoordsRef s;
     uuidCounter := uuidCounter s;
     depsIdentity := depsIdentity s;
     depsTool := depsTool s |}.

Definition with_annotationsRef (m : gmap nat (list Annotation)) (s : State)
  : State :=
  {| activeTool := activeTool s;
     pageContainerRefs := pageContainerRefs s;
     refsIdentity := refsIdentity s;
     canvasRefs := canvasRefs s;
     contextRefs := contextRefs s;
     annotationsRef := m;
     isDrawingRef := isDrawingRef s;
     startCoordsRef := startCoordsRef s;
     currentCoordsRef := currentCoordsRef s;
     uuidCounter := uuidCounter s;
     depsIdentity := depsIdentity s;
     depsTool := depsTool s |}.

Definition with_pageContainerRefs (m : gmap nat PageElement) (s : State)
  : State :=
  {| activeTool := activeTool s;
     pageContainerRefs := m;
     refsIdentity := refsIdentity s;
     canvasRefs := canvasRefs s;
     contextRefs := contextRefs s;
     annotationsRef := annotationsRef s;
     isDrawingRef := isDrawingRef s;
     startCoordsRef := startCoordsRef s;
     currentCoordsRef := currentCoordsRef s;
     uuidCounter := uuidCounter s;
     depsIdentity := depsIdentity s;
     depsTool := depsTool s |}.

(** The three gesture refs are always written together, except on move. *)
Definition with_gesture (drawing : bool) (start current : option Point)
    (s : State) : State :=
  {| activeTool := activeTool s;
     pageContainerRefs := pageContainerRefs s;
     refsIdentity := refsIdentity s;
     canvasRefs := canvasRefs s;
     contextRefs := contextRefs s;
     annotationsRef := annotationsRef s;
     isDrawingRef := drawing;
     startCoordsRef := start;
     currentCoordsRef := current;
     uuidCounter := uuidCounter s;
     depsIdentity := depsIdentity s;
     depsTool := depsTool s |}.

(** ** Drawing primitives *)

(** [drawBlurOverlay(context, startX, startY, endX, endY)] *)
Definition drawBlurOverlay (context : Context2D) (startX startY endX endY : Z)
  : Context2D :=
  let x := Z.min startX endX in
  let y := Z.min startY endY in
  let width := Z.abs (startX - endX) in
  let height := Z.abs (startY - endY) in
  let fill : string := "rgba(50, 50, 50, 0.85)" in
  {| ctx_filter := filter_none;
     ctx_fillStyle := fill;
     ctx_strokeStyle := ctx_strokeStyle context;
     ctx_lineWidth := ctx_lineWidth context;
     ctx_lineCap := ctx_lineCap context;
     ctx_font := ctx_font context;
     ctx_bitmap :=
       ctx_bitmap context ++ [FillRect x y width height fill filter_blur4px] |}.

(** [drawText(context, x, y, text)] *)
Definition drawText (context : Context2D) (x y : Z) (text : string)
  : Context2D :=
  let font : string := "24px Arial" in
  let fill : string := "blue" in
  {| ctx_filter := ctx_filter context;
     ctx_fillStyle := fill;
     ctx_strokeStyle := ctx_strokeStyle context;
     ctx_lineWidth := ctx_lineWidth context;
     ctx_lineCap := ctx_lineCap context;
     ctx_font := font;
     ctx_bitmap :=
       ctx_bitmap context ++ [FillText text x y font fill (ctx_filter context)] |}.

(** The 'erase' branch of [drawAnnotation]: white, 10 wide, round caps, one
    sub-path through the points in order ([moveTo] the first, [lineTo] the
    others), then [stroke]. *)
Definition strokeErasePath (context : Context2D) (path : list Point)
  : Context2D :=
  let white : string := "white" in
  {| ctx_filter := ctx_filter context;
     ctx_fillStyle := ctx_fillStyle context;
     ctx_strokeStyle := white;
     ctx_lineWidth := 10;
     ctx_lineCap := cap_round;
     ctx_font := ctx_font context;
     ctx_bitmap :=
       ctx_bitmap context
         ++ [Stroke path white 10 cap_round (ctx_filter context)] |}.

(** The dispatch of [drawAnnotation] on the annotation's type. *)
Definition paintAnnotation (context : Context2D) (annotation : Annotation)
  : Context2D :=
  match ann_data annotation with
  | BlurData startX startY endX endY =>
      drawBlurOverlay context startX startY endX endY
  | EraseData path => strokeErasePath context path
  | TextData x y text => drawText context x y text
  end.

(** [drawAnnotation(pageIndex, annotation)]: nothing happens without a
    context or without a canvas for the page. *)
Definition drawAnnotation (pageIndex : nat) (annotation : Annotation)
    (s : State) : State :=
  match contextRefs s !! pageIndex with
  | None => s
  | Some context =>
      match canvasRefs s !! pageIndex with
      | None => s
      | Some _ =>
          with_contextRefs
            (<[pageIndex := paintAnnotation context annotation]> (contextRefs s))
            s
      end
  end.

(** [context.clearRect(0, 0, canvas.width, canvas.height)] *)
Definition clearRect (context : Context2D) : Context2D :=
  {| ctx_filter := ctx_filter context;
     ctx_fillStyle := ctx_fillStyle context;
     ctx_strokeStyle := ctx_strokeStyle context;
     ctx_lineWidth := ctx_lineWidth context;
     ctx_lineCap := ctx_lineCap context;
     ctx_font := ctx_font context;
     ctx_bitmap := [] |}.

(** [redrawPageAnnotations(pageIndex)] *)
Definition redrawPageAnnotations (pageIndex : nat) (s : State) : State :=
  match contextRefs s !! pageIndex, canvasRefs s !! pageIndex with
  | Some context, Some _ =>
      let cleared :=
        with_contextRefs (<[pageIndex := clearRect context]> (contextRefs s)) s in
      let pageAnnotations := default [] (annotationsRef s !! pageIndex) in
      foldl (fun st ann => drawAnnotation pageIndex ann st) cleared
            pageAnnotations
  | _, _ => s
  end.

(** The bitmap of a page's surface, when the page has a context. *)
Definition pixels (pageIndex : nat) (s : State) : option (list DrawOp) :=
  ctx_bitmap <$> contextRefs s !! pageIndex.

(** ** Registry callback and canvas lifecycle *)

Definition with_registry (refs : gmap nat PageElement) (identity : nat)
    (s : State) : State :=
  {| activeTool := activeTool s;
     pageContainerRefs := refs;
     refsIdentity := identity;
     canvasRefs := canvasRefs s;
     contextRefs := contextRefs s;
     annotationsRef := annotationsRef s;
     isDrawingRef := isDrawingRef s;
     startCoordsRef := startCoordsRef s;
     currentCoordsRef := currentCoordsRef s;
     uuidCounter := uuidCounter s;
     depsIdentity := depsIdentity s;
     depsTool := depsTool s |}.

(** [handlePageContainerRefsChange(refs)]: the whole body is
    [pageContainerRefs.current = refs]. Every emission of the registry passes
    a newly built object, hence a new identity, and the registry stores an
    element, never [null], under each index it lists. *)
Definition handlePageContainerRefsChange (refs : gmap nat PageElement)
    (s : State) : State :=
  with_registry refs (S (refsIdentity s)) s.

(** [forEach] over a list of page indices. The bodies used below read and
    write only the entries of the index they are called with. *)
Definition forEachIndex (indices : list nat) (body : nat -> State -> State)
    (s : State) : State :=
  foldl (fun st pageIndex => body pageIndex st) s indices.

Definition toolPointerEvents (tool : Tool) : PointerEvents :=
  if isDrawingTool tool then pe_auto else pe_none.

Definition toolCursor (tool : Tool) : Cursor :=
  match tool with
  | blur | erase => cursor_crosshair
  | addText => cursor_text
  | none => cursor_default
  end.

(** [document.createElement('canvas')] appended to [targetParent]: the HTML
    default size, no inline style yet (pointer events then default to
    accepting input). *)
Definition createCanvas (targetParent : CanvasParent) : Canvas :=
  {| cv_width := 300%N;
     cv_height := 150%N;
     cv_parent := targetParent;
     cv_zIndex := 0;
     cv_pointerEvents := pe_auto;
     cv_cursor := cursor_default |}.

(** The size and style assignments of the lifecycle effect. *)
Definition layoutCanvas (pageElement : PageElement) (targetParent : CanvasParent)
    (tool : Tool) : Canvas :=
  {| cv_width := offsetWidth pageElement;
     cv_height := offsetHeight pageElement;
     cv_parent := targetParent;
     cv_zIndex := 5;
     cv_pointerEvents := toolPointerEvents tool;
     cv_cursor := toolCursor tool |}.

(** The tail of the first loop's body, reached unless [getContext] failed:
    size and style the page's canvas, then redraw the page. Assigning
    [canvas.width] and [canvas.height] resets the canvas's context, if it
    has one. *)
Definition sizeAndRedraw (pageElement : PageElement)
    (targetParent : CanvasParent) (pageIndex : nat) (s : State) : State :=
  let s1 :=
    with_canvasRefs
      (<[pageIndex := layoutCanvas pageElement targetParent (activeTool s)]>
         (canvasRefs s)) s in
  let s2 :=
    match contextRefs s1 !! pageIndex with
    | Some _ =>
        with_contextRefs (<[pageIndex := freshContext]> (contextRefs s1)) s1
    | None => s1
    end in
  redrawPageAnnotations pageIndex s2.

(** Body of the first loop of the lifecycle effect, for one known page index.
    [getContextOk pageIndex] tells whether [getContext('2d')] yields a context
    for a canvas created now. When it does not, the callback returns with the
    canvas registered and nothing else done. A canvas found in [canvasRefs]
    is re-appended to [targetParent] when it sits elsewhere. *)
Definition lifecyclePage (getContextOk : nat -> bool) (pageIndex : nat)
    (s : State) : State :=
  match pageContainerRefs s !! pageIndex with
  | None => s
  | Some pageElement =>
      let targetParent :=
        if hasPageLayer pageElement then in_page_layer else in_inner_page in
      match canvasRefs s !! pageIndex with
      | None =>
          let s1 :=
            with_canvasRefs
              (<[pageIndex := createCanvas targetParent]> (canvasRefs s)) s in
          if getContextOk pageIndex
          then sizeAndRedraw pageElement targetParent pageIndex
                 (with_contextRefs
                    (<[pageIndex := freshContext]> (contextRefs s1)) s1)
          else s1
      | Some _ => sizeAndRedraw pageElement targetParent pageIndex s
      end
  end.

(** Body of the second loop: drop the canvas, the context and the
    annotations of an index that has a canvas and no page container. *)
Definition removePage (pageIndex : nat) (s : State) : State :=
  match pageContainerRefs s !! pageIndex with
  | Some _ => s
  | None =>
      match canvasRefs s !! pageIndex with
      | None => s
      | Some _ =>
          with_annotationsRef (delete pageIndex (annotationsRef s))
            (with_contextRefs (delete pageIndex (contextRefs s))
               (with_canvasRefs (delete pageIndex (canvasRefs s)) s))
      end
  end.

(** The canvas lifecycle effect. [currentActiveCanvasIndices] is taken
    before the first loop runs. *)
Definition canvasLifecycleEffect (getContextOk : nat -> bool) (s : State)
  : State :=
  let currentKnownPageIndices := elements (dom (pageContainerRefs s)) in
  let currentActiveCanvasIndices := elements (dom (canvasRefs s)) in
  let s1 := forEachIndex currentKnownPageIndices (lifecyclePage getContextOk) s in
  forEachIndex currentActiveCanvasIndices removePage s1.

Definition with_deps (identity : nat) (tool : Tool) (s : State) : State :=
  {| activeTool := activeTool s;
     pageContainerRefs := pageContainerRefs s;
     refsIdentity := refsIdentity s;
     canvasRefs := canvasRefs s;
     contextRefs := contextRefs s;
     annotationsRef := annotationsRef s;
     isDrawingRef := isDrawingRef s;
     startCoordsRef := startCoordsRef s;
     currentCoordsRef := currentCoordsRef s;
     uuidCounter := uuidCounter s;
     depsIdentity := identity;
     depsTool := tool |}.

(** Whether the dependency array [[pageContainerRefs.current, activeTool,
    redrawPageAnnotations]] differs from the one of the previous render
    ([redrawPageAnnotations] is a stable callback). *)
Definition depsChanged (s : State) : bool :=
  negb (bool_decide (depsIdentity s = refsIdentity s))
  || negb (bool_decide (depsTool s = activeTool s)).

(** A committed render of [PdfEditor]: the lifecycle effect runs when its
    dependencies changed. *)
Definition render (getContextOk : nat -> bool) (s : State) : State :=
  if depsChanged s
  then with_deps (refsIdentity s) (activeTool s)
                 (canvasLifecycleEffect getContextOk s)
  else s.

(** ** Tool switch *)

Definition with_activeTool (tool : Tool) (s : State) : State :=
  {| activeTool := tool;
     pageContainerRefs := pageContainerRefs s;
     refsIdentity := refsIdentity s;
     canvasRefs := canvasRefs s;
     contextRefs := contextRefs s;
     annotationsRef := annotationsRef s;
     isDrawingRef := isDrawingRef s;
     startCoordsRef := startCoordsRef s;
     currentCoordsRef := currentCoordsRef s;
     uuidCounter := uuidCounter s;
     depsIdentity := depsIdentity s;
     depsTool := depsTool s |}.

Definition setCanvasStyle (pe : PointerEvents) (cur : Cursor) (c : Canvas)
  : Canvas :=
  {| cv_width := cv_width c;
     cv_height := cv_height c;
     cv_parent := cv_parent c;
     cv_zIndex := cv_zIndex c;
     cv_pointerEvents := pe;
     cv_cursor := cur |}.

(** [textLayer.style.pointerEvents = ...] when the page has a text layer. *)
Definition setTextLayer (pe : PointerEvents) (el : PageElement) : PageElement :=
  {| offsetWidth := offsetWidth el;
     offsetHeight := offsetHeight el;
     hasPageLayer := hasPageLayer el;
     textLayer := match textLayer el with
                  | Some _ => Some pe
                  | None => None
                  end |}.

(** Body of [canvasRefs.current.forEach] in [handleToolChange]. The page
    container is mutated in place: the mapping object keeps its identity. *)
Definition toolChangePage (tool : Tool) (pageIndex : nat) (s : State) : State :=
  match canvasRefs s !! pageIndex with
  | None => s
  | Some canvas =>
      let canvasPointerEvents := toolPointerEvents tool in
      let textLayerPointerEvents :=
        if isDrawingTool tool then pe_none else pe_auto in
      let s1 :=
        with_canvasRefs
          (<[pageIndex := setCanvasStyle canvasPointerEvents (toolCursor tool)
                                         canvas]> (canvasRefs s)) s in
      match pageContainerRefs s1 !! pageIndex with
      | Some pageElement =>
          with_pageContainerRefs
            (<[pageIndex := setTextLayer textLayerPointerEvents pageElement]>
               (pageContainerRefs s1)) s1
      | None => s1
      end
  end.

(** [handleToolChange(tool)]. The selected-text state it clears belongs to
    the text-search convenience and is not part of this model. *)
Definition handleToolChange (tool : Tool) (s : State) : State :=
  let s1 := with_activeTool tool s in
  let s2 :=
    forEachIndex (elements (dom (canvasRefs s1))) (toolChangePage tool) s1 in
  if isDrawingTool tool then s2
  else with_gesture false None None s2.

(** ** Pointer gestures *)

Inductive MouseEventType := mousedown | mousemove | mouseup.

(** A mouse event as [handleToolInteraction] sees it.
    - [ev_page] is the page index computed from the event target (closest
      '.rpv-core__inner-page', its 'Page N' label, minus one). [None] stands
      for the targets on which the handler returns before it reads any ref:
      no enclosing page, or a label that gives no non-negative index (index
      -1 returns at once; other indices have no canvas).
    - [ev_rectLeft], [ev_rectTop]: [canvas.getBoundingClientRect()] of that
      page's canvas when the event is handled.
    - [ev_prompt]: what [prompt("Enter text:")] would return ([None] when
      cancelled); it is consulted on a release with the addText tool only. *)
Record MouseEvent := mkMouseEvent {
  ev_type : MouseEventType;
  ev_page : option nat;
  ev_clientX : Z;
  ev_clientY : Z;
  ev_rectLeft : Z;
  ev_rectTop : Z;
  ev_prompt : option string
}.

(** [Math.max(0, Math.min(v, bound))] *)
Definition bounded (v : Z) (bound : N) : Z := Z.max 0 (Z.min v (Z.of_N bound)).

Definition with_currentCoords (current : option Point) (s : State) : State :=
  with_gesture (isDrawingRef s) (startCoordsRef s) current s.

Definition with_uuidCounter (n : nat) (s : State) : State :=
  {| activeTool := activeTool s;
     pageContainerRefs := pageContainerRefs s;
     refsIdentity := refsIdentity s;
     canvasRefs := canvasRefs s;
     contextRefs := contextRefs s;
     annotationsRef := annotationsRef s;
     isDrawingRef := isDrawingRef s;
     startCoordsRef := startCoordsRef s;
     currentCoordsRef := currentCoordsRef s;
     uuidCounter := n;
     depsIdentity := depsIdentity s;
     depsTool := depsTool s |}.

(** [annotationsRef.current.set(pageIndex, [...pageAnnotations, annotation])]
    with [id: uuidv4()]. *)
Definition appendAnnotation (pageIndex : nat) (payload : AnnotationData)
    (s : State) : State :=
  let pageAnnotations := default [] (annotationsRef s !! pageIndex) in
  let annotation :=
    {| ann_id := uuidCounter s; ann_pageIndex := pageIndex; ann_data := payload |} in
  with_uuidCounter (S (uuidCounter s))
    (with_annotationsRef
       (<[pageIndex := pageAnnotations ++ [annotation]]> (annotationsRef s)) s).

(** The live preview of the blur tool: [drawBlurOverlay] on the page's
    context, which the handler has in hand. *)
Definition previewBlur (pageIndex : nat) (start : Point) (x y : Z) (s : State)
  : State :=
  match contextRefs s !! pageIndex with
  | Some context =>
      with_contextRefs
        (<[pageIndex := drawBlurOverlay context (pt_x start) (pt_y start) x y]>
           (contextRefs s)) s
  | None => s
  end.

(** The erase branch of a move: push the point onto the path of the page's
    last annotation when that one is an erase stroke (the array is mutated in
    place), else append a new stroke from the start point to the point. *)
Definition eraseMove (pageIndex : nat) (start : Point) (x y : Z) (s : State)
  : State :=
  let pageAnnotations := default [] (annotationsRef s !! pageIndex) in
  match list.last pageAnnotations with
  | Some {| ann_id := i; ann_pageIndex := p; ann_data := EraseData path |} =>
      let extended :=
        {| ann_id := i; ann_pageIndex := p;
           ann_data := EraseData (path ++ [mkPoint x y]) |} in
      with_annotationsRef
        (<[pageIndex := removelast pageAnnotations ++ [extended]]>
           (annotationsRef s)) s
  | _ => appendAnnotation pageIndex (EraseData [start; mkPoint x y]) s
  end.

(** The annotation a release commits, if any. *)
Definition releaseAnnotation (tool : Tool) (start : Point) (endX endY : Z)
    (answer : option string) : option AnnotationData :=
  match tool with
  | blur =>
      if bool_decide (Z.abs (pt_x start - endX) > 5)
         || bool_decide (Z.abs (pt_y start - endY) > 5)
      then Some (BlurData (pt_x start) (pt_y start) endX endY)
      else None
  | erase => None
  | addText =>
      match answer with
      | Some textContent =>
          if bool_decide (textContent = "") then None
          else Some (TextData endX endY textContent)
      | None => None
      end
  | none => None
  end.

(** [handleToolInteraction(event)], bound to mousedown, mousemove and mouseup
    of the viewer container. *)
Definition handleToolInteraction (event : MouseEvent) (s : State) : State :=
  if bool_decide (activeTool s = none) then s else
  match ev_page event with
  | None => s
  | Some pageIndex =>
      match canvasRefs s !! pageIndex, contextRefs s !! pageIndex with
      | Some canvas, Some _ =>
          let canvasX := ev_clientX event - ev_rectLeft event in
          let canvasY := ev_clientY event - ev_rectTop event in
          let boundedCanvasX := bounded canvasX (cv_width canvas) in
          let boundedCanvasY := bounded canvasY (cv_height canvas) in
          let here := mkPoint boundedCanvasX boundedCanvasY in
          match ev_type event with
          | mousedown => with_gesture true (Some here) (Some here) s
          | mousemove =>
              if isDrawingRef s then
                let s1 := with_currentCoords (Some here) s in
                let s2 := redrawPageAnnotations pageIndex s1 in
                match activeTool s2, startCoordsRef s2 with
                | blur, Some start =>
                    previewBlur pageIndex start boundedCanvasX boundedCanvasY s2
                | erase, Some start =>
                    redrawPageAnnotations pageIndex
                      (eraseMove pageIndex start boundedCanvasX boundedCanvasY s2)
                | _, _ => s2
                end
              else s
          | mouseup =>
              let s1 :=
                match startCoordsRef s with
                | Some start =>
                    match releaseAnnotation (activeTool s) start boundedCanvasX
                                            boundedCanvasY (ev_prompt event) with
                    | Some newAnnotation =>
                        appendAnnotation pageIndex newAnnotation s
                    | None => s
                    end
                | None => s
                end in
              redrawPageAnnotations pageIndex (with_gesture false None None s1)
          end
      | _, _ => s
      end
  end.

(** [onMouseLeave] of the viewer container. *)
Definition handleMouseLeave (s : State) : State :=
  if isDrawingRef s then
    let s1 := with_gesture false None None s in
    forEachIndex (elements (dom (canvasRefs s1))) redrawPageAnnotations s1
  else s.

(** ** Events and runs *)

(** What can happen to a mounted editor.
    - [RegistryEmit refs]: the viewer calls [onPageContainerRefsChange(refs)].
    - [ToolChange tool ok]: a tool button is clicked; [setActiveTool] commits
      a render when the tool differs from the current one.
    - [Mouse ev], [MouseLeave]: pointer input on the viewer container.
    - [Rerender ok]: a render for a reason outside this model (the
      selected-text state, the parent component).
    - [RendererLayout pageIndex el]: the renderer changes a page container
      in place (zoom, reflow, a rebuilt text layer).
    [ok] is the outcome of [getContext('2d')], per page, should the render
    create canvases. *)
Inductive Event :=
| RegistryEmit (refs : gmap nat PageElement)
| ToolChange (tool : Tool) (getContextOk : nat -> bool)
| Mouse (ev : MouseEvent)
| MouseLeave
| Rerender (getContextOk : nat -> bool)
| RendererLayout (pageIndex : nat) (el : PageElement).

Definition rendererLayout (pageIndex : nat) (el : PageElement) (s : State)
  : State :=
  match pageContainerRefs s !! pageIndex with
  | Some _ =>
      with_pageContainerRefs (<[pageIndex := el]> (pageContainerRefs s)) s
  | None => s
  end.

Definition step (s : State) (e : Event) : State :=
  match e with
  | RegistryEmit refs => handlePageContainerRefsChange refs s
  | ToolChange tool getContextOk =>
      let s1 := handleToolChange tool s in
      if bool_decide (tool = activeTool s) then s1 else render getContextOk s1
  | Mouse ev => handleToolInteraction ev s
  | MouseLeave => handleMouseLeave s
  | Rerender getContextOk => render getContextOk s
  | RendererLayout pageIndex el => rendererLayout pageIndex el s
  end.

Definition run (events : list Event) (s : State) : State := foldl step s events.

(** The page indices with a live drawing surface: a canvas and a 2D context
    are both registered for the index. *)
Definition liveSurfaces (s : State) : gset nat :=
  dom (canvasRefs s) ∩ dom (contextRefs s).

(** ** The page surface registry ([PdfViewerDisplay]) *)

(** A '.rpv-core__inner-page' element found in the document, with the
    outcome of reading its label: [Some n] when the aria-label starts with
    'Page ' and [parseInt] of the rest is the number [n]; [None] otherwise
    (no label, another prefix, not a number). *)
Record PageNode := mkPageNode {
  node_pageNumber : option Z;
  node_element : PageElement
}.

(** [pageIndex = parsedNum - 1] when [parsedNum >= 1]; else the node is
    dropped with a warning. *)
Definition labelIndex (node : PageNode) : option nat :=
  match node_pageNumber node with
  | Some parsedNum =>
      if bool_decide (1 <= parsedNum) then Some (Z.to_nat (parsedNum - 1))
      else None
  | None => None
  end.

(** The [forEach] that fills [newRefs]. *)
Definition collectRefs (nodes : list PageNode) : gmap nat PageElement :=
  foldl (fun newRefs node =>
           match labelIndex node with
           | Some pageIndex => <[pageIndex := node_element node]> newRefs
           | None => newRefs
           end) ∅ nodes.

(** [handleMutations]: given the page elements now in the document and the
    mapping last sent ([currentRefsSentToParent]), the mapping to emit, if
    any. The source compares the sorted, comma-joined key lists, which are
    equal exactly when the key sets are. After an emission the emitted
    mapping becomes [currentRefsSentToParent]. *)
Definition handleMutations (nodes : list PageNode)
    (sent : gmap nat PageElement) : option (gmap nat PageElement) :=
  match nodes with
  | [] => if bool_decide (dom sent = (∅ : gset nat)) then None else Some ∅
  | _ =>
      let newRefs := collectRefs nodes in
      if bool_decide (dom newRefs = dom sent) then None else Some newRefs
  end.

(** How the search for '.rpv-default-layout__container' ends. *)
Inductive PollOutcome :=
| ObserverAttached (attempt : nat)
| GaveUp.

(** A run of the search: its outcome and the delays, in milliseconds, of the
    [setTimeout] calls it made, in order. [GaveUp] is the [console.error]
    branch: the failure is logged and nothing is thrown. *)
Record PollRun := mkPollRun {
  poll_outcome : PollOutcome;
  poll_delays : list nat
}.

(** [pollForViewerAndAttachObserver(attempt, maxAttempts)].
    [viewerFound k] tells whether [document.querySelector] finds the
    container when the call with [attempt = k] runs. *)
Equations? pollForViewerAndAttachObserver (viewerFound : nat -> bool)
    (attempt maxAttempts : nat) : PollRun
    by wf (maxAttempts - attempt)%nat lt :=
  pollForViewerAndAttachObserver viewerFound attempt maxAttempts
    with viewerFound attempt := {
    | true := mkPollRun (ObserverAttached attempt) [];
    | false with decide (attempt < maxAttempts)%nat := {
      | left _ :=
          let later :=
            pollForViewerAndAttachObserver viewerFound (attempt + 1) maxAttempts in
          mkPollRun (poll_outcome later) (200%nat :: poll_delays later);
      | right _ := mkPollRun GaveUp [] } }.
Proof. lia. Qed.

(** The effect of [PdfViewerDisplay] calls it with the default arguments
    [attempt = 0, maxAttempts = 50]. *)
Definition startPolling (viewerFound : nat -> bool) : PollRun :=
  pollForViewerAndAttachObserver viewerFound 0 50.

(** ** Export ([handleDownload]) *)

Definition Bytes := list Byte.byte.

(** An image placed on a page by [page.drawImage(image, {x, y, width, height})]. *)
Record PlacedImage := mkPlacedImage {
  placed_image : Bytes;
  placed_x : Z;
  placed_y : Z;
  placed_width : Z;
  placed_height : Z
}.

(** A page of a decoded document: what the source document holds for it,
    its size, and the images drawn over it since decoding. *)
Record PdfPage := mkPdfPage {
  page_source : Bytes;
  page_width : Z;
  page_height : Z;
  page_drawn : list PlacedImage
}.

Record PdfDocument := mkPdfDocument {
  doc_pages : list PdfPage;
  doc_embedded : list Bytes
}.

(** A file handed to [saveAs]. *)
Record Download := mkDownload {
  file_name : string;
  file_type : string;
  file_bytes : Bytes
}.

(** The body of a [try] block of an async function: it may throw or reject
    ([None]) and it appends to the list of files delivered so far. *)
Definition Async (A : Type) : Type :=
  list Download -> option A * list Download.

Definition async_ret {A} (a : A) : Async A := fun delivered => (Some a, delivered).

Definition async_bind {A B} (m : Async A) (k : A -> Async B) : Async B :=
  fun delivered =>
    match m delivered with
    | (Some a, delivered') => k a delivered'
    | (None, delivered') => (None, delivered')
    end.

(** [await] of a step that may fail. *)
Definition await {A} (step : option A) : Async A := fun delivered => (step, delivered).

(** [saveAs(new Blob([bytes], { type }), name)] *)
Definition saveAs (bytes : Bytes) (type name : string) : Async unit :=
  fun delivered => (Some tt, delivered ++ [mkDownload name type bytes]).

(** [try { body } catch (error) { console.error(...) }]: the files delivered. *)
Definition tryCatch (body : Async unit) : list Download := snd (body []).

Declare Scope async_scope.
Delimit Scope async_scope with async.
Notation "'let!' x ':=' m 'in' k" := (async_bind m (fun x => k))
  (at level 10, x name, m at level 100, k at level 200) : async_scope.

(** [page.drawImage(embeddedImage, { x: 0, y: 0, width, height })] *)
Definition drawImage (page : PdfPage) (image : Bytes) (x y width height : Z)
  : PdfPage :=
  {| page_source := page_source page;
     page_width := page_width page;
     page_height := page_height page;
     page_drawn := page_drawn page ++ [mkPlacedImage image x y width height] |}.

Section Flattener.

(** The collaborators of the export, each of which may fail:
    [fetch(url).then(res => res.arrayBuffer())], [PDFDocument.load],
    [canvas.toDataURL()] fetched back as bytes, the PNG decoding of
    [pdfDoc.embedPng] and [pdfDoc.save()]. *)
Variable fetchArrayBuffer : string -> option Bytes.
Variable loadDocument : Bytes -> option PdfDocument.
Variable canvasToPng : Canvas -> option (list DrawOp) -> option Bytes.
Variable decodePng : Bytes -> option Bytes.
Variable saveDocument : PdfDocument -> option Bytes.

(** Body of the page loop for index [i]. *)
Definition flattenPage (s : State) (i : nat) (pdfDoc : PdfDocument)
  : Async PdfDocument :=
  match doc_pages pdfDoc !! i with
  | None => async_ret pdfDoc
  | Some page =>
      match canvasRefs s !! i, annotationsRef s !! i with
      | Some canvasForPage, Some (_ :: _) =>
          (let! canvasImageBytes :=
             await (canvasToPng canvasForPage (pixels i s)) in
           let! embeddedImage := await (decodePng canvasImageBytes) in
           async_ret
             {| doc_pages :=
                  <[i := drawImage page embeddedImage 0 0 (page_width page)
                                   (page_height page)]> (doc_pages pdfDoc);
                doc_embedded := doc_embedded pdfDoc ++ [embeddedImage] |})%async
      | _, _ => async_ret pdfDoc
      end
  end.

(** [for (let i = 0; i < pages.length; i++)] over the given indices. *)
Fixpoint flattenPages (s : State) (indices : list nat) (pdfDoc : PdfDocument)
  : Async PdfDocument :=
  match indices with
  | [] => async_ret pdfDoc
  | i :: rest =>
      (let! pdfDoc' := flattenPage s i pdfDoc in
       flattenPages s rest pdfDoc')%async
  end.

(** [handleDownload()]: the files it delivers. *)
Definition handleDownload (pdfUrl : string) (s : State) : list Download :=
  if bool_decide (pdfUrl = "") then []
  else
    tryCatch
      (let! originalPdfBytes := await (fetchArrayBuffer pdfUrl) in
       let! pdfDoc := await (loadDocument originalPdfBytes) in
       let! flattened :=
         flattenPages s (seq 0 (length (doc_pages pdfDoc))) pdfDoc in
       let! modifiedPdfBytes := await (saveDocument flattened) in
       saveAs modifiedPdfBytes "application/pdf" "edited-document.pdf")%async.

(** The document handed to [save], when the page loop completes. *)
Definition flattenedDocument (s : State) (pdfDoc : PdfDocument)
  : option PdfDocument :=
  fst (flattenPages s (seq 0 (length (doc_pages pdfDoc))) pdfDoc []).

(** Page [i] is one the loop rasterizes, and that step or the embedding of
    its image fails. *)
Definition pageStepFails (s : State) (i : nat) : Prop :=
  exists canvasForPage first others,
    canvasRefs s !! i = Some canvasForPage /\
    annotationsRef s !! i = Some (first :: others) /\
    (canvasToPng canvasForPage (pixels i s)) ≫= decodePng = None.

End Flattener.

(** ** Vocabulary of the properties *)

(** Painting a whole annotation sequence onto a context. *)
Definition paintAll (context : Context2D) (annotations : list Annotation)
  : Context2D :=
  foldl paintAnnotation context annotations.

(** Every context has its filter off. *)
Definition filtersOff (s : State) : Prop :=
  forall pageIndex context,
    contextRefs s !! pageIndex = Some context ->
    ctx_filter context = filter_none.

(** Every [getContext('2d')] call of the event succeeds. *)
Definition contextsGranted (e : Event) : Prop :=
  match e with
  | ToolChange _ getContextOk | Rerender getContextOk =>
      forall pageIndex, getContextOk pageIndex = true
  | _ => True
  end.

(** Every registered canvas has its context and vice versa. *)
Definition surfacesComplete (s : State) : Prop :=
  dom (contextRefs s) = dom (canvasRefs s).

(** What holds of the refs in every state the editor can reach:
    the last render saw the current mapping object or an earlier one; when
    it saw the current one, the canvases are those of the mapping's indices;
    annotations exist only for pages that have a canvas. *)
Record refsCoherent (s : State) : Prop := mkRefsCoherent {
  coh_filters : filtersOff s;
  coh_identity : (depsIdentity s <= refsIdentity s)%nat;
  coh_canvases :
    depsIdentity s = refsIdentity s ->
    dom (canvasRefs s) = dom (pageContainerRefs s);
  coh_annotations : dom (annotationsRef s) ⊆ dom (canvasRefs s)
}.

(** The canvas side of the pointer routing: every page with a context has a
    canvas, and the canvas of every page with a context is styled for the
    current tool. *)
Record surfacesFollowTool (s : State) : Prop := mkSurfacesFollowTool {
  follow_canvas : dom (contextRefs s) ⊆ dom (canvasRefs s);
  follow_style :
    forall pageIndex canvas,
      canvasRefs s !! pageIndex = Some canvas ->
      pageIndex ∈ dom (contextRefs s) ->
      cv_pointerEvents canvas = toolPointerEvents (activeTool s) /\
      cv_cursor canvas = toolCursor (activeTool s)
}.

(** The state hooks and refs that the lifecycle effect never writes. *)
Definition untouchedByEffect (s s' : State) : Prop :=
  activeTool s' = activeTool s /\
  pageContainerRefs s' = pageContainerRefs s /\
  refsIdentity s' = refsIdentity s /\
  depsIdentity s' = depsIdentity s /\
  depsTool s' = depsTool s /\
  isDrawingRef s' = isDrawingRef s /\
  startCoordsRef s' = startCoordsRef s /\
  currentCoordsRef s' = currentCoordsRef s /\
  uuidCounter s' = uuidCounter s.

(** What a pointer event leaves as it is: the tool, the registry mapping,
    the render dependencies, the canvases, and which pages have a context. *)
Definition surfacesKept (s s' : State) : Prop :=
  activeTool s' = activeTool s /\
  pageContainerRefs s' = pageContainerRefs s /\
  refsIdentity s' = refsIdentity s /\
  depsIdentity s' = depsIdentity s /\
  depsTool s' = depsTool s /\
  canvasRefs s' = canvasRefs s /\
  dom (contextRefs s') = dom (contextRefs s).

(** The pointer-input routing of a state: every live surface accepts pointer
    input exactly when the tool is a drawing tool, and the text layer of its
    page, when there is one, accepts it exactly when the surface does not. *)
Definition pointerRoutingExclusive (s : State) : Prop :=
  forall pageIndex canvas,
    pageIndex ∈ liveSurfaces s ->
    canvasRefs s !! pageIndex = Some canvas ->
    (cv_pointerEvents canvas = pe_auto <-> isDrawingTool (activeTool s) = true) /\
    forall pageElement pe,
      pageContainerRefs s !! pageIndex = Some pageElement ->
      textLayer pageElement = Some pe ->
      (pe = pe_auto <-> cv_pointerEvents canvas <> pe_auto).

(** The gesture state machine is idle. *)
Definition gestureIdle (s : State) : Prop :=
  isDrawingRef s = false /\ startCoordsRef s = None /\ currentCoordsRef s = None.

(** A page container used in examples: 600 by 800, with a page layer and a
    text layer that accepts pointer input. *)
Definition samplePage : PageElement :=
  {| offsetWidth := 600; offsetHeight := 800; hasPageLayer := true;
     textLayer := Some pe_auto |}.

Definition alwaysGranted (pageIndex : nat) : bool := true.

(** A mouse event on a page whose canvas sits at the client origin. *)
Definition mouseAt (type : MouseEventType) (pageIndex : nat) (x y : Z)
  : MouseEvent :=
  {| ev_type := type; ev_page := Some pageIndex; ev_clientX := x;
     ev_clientY := y; ev_rectLeft := 0; ev_rectTop := 0; ev_prompt := None |}.

(** The coordinates an annotation stores lie in the box [0..w] x [0..h]. *)
Definition pointWithin (w h : N) (p : Point) : Prop :=
  0 <= pt_x p <= Z.of_N w /\ 0 <= pt_y p <= Z.of_N h.

Definition annotationWithin (w h : N) (a : Annotation) : Prop :=
  match ann_data a with
  | BlurData startX startY endX endY =>
      pointWithin w h (mkPoint startX startY) /\
      pointWithin w h (mkPoint endX endY)
  | EraseData path => Forall (pointWithin w h) path
  | TextData x y _ => pointWithin w h (mkPoint x y)
  end.

(** Two page containers of different width, for a document with mixed page
    sizes. *)
Definition widePage : PageElement :=
  {| offsetWidth := 1000; offsetHeight := 100; hasPageLayer := true;
     textLayer := Some pe_auto |}.

Definition narrowPage : PageElement :=
  {| offsetWidth := 500; offsetHeight := 100; hasPageLayer := true;
     textLayer := Some pe_auto |}.

(** The erase gesture of the specification's example, on one page: press at
    (10,10), move to (20,10), move to (20,20), release there. *)
Definition eraseGesture (pageIndex : nat) : list Event :=
  [Mouse (mouseAt mousedown pageIndex 10 10);
   Mouse (mouseAt mousemove pageIndex 20 10);
   Mouse (mouseAt mousemove pageIndex 20 20);
   Mouse (mouseAt mouseup pageIndex 20 20)].

(** The erase strokes among a page's annotations. *)
Definition eraseStrokes (pageIndex : nat) (s : State) : list (list Point) :=
  omap (fun a => match ann_data a with
                 | EraseData path => Some path
                 | _ => None
                 end)
       (default [] (annotationsRef s !! pageIndex)).

(** The point [handleToolInteraction] captures from an event on a canvas:
    client coordinates relative to the canvas rectangle, clamped to the
    canvas box. *)
Definition capturedPoint (event : MouseEvent) (canvas : Canvas) : Point :=
  mkPoint (bounded (ev_clientX event - ev_rectLeft event) (cv_width canvas))
          (bounded (ev_clientY event - ev_rectTop event) (cv_height canvas)).

(** The store after a blur release from [start] to [finish] on a page. *)
Definition blurCommit (pageIndex : nat) (start finish : Point) (s : State)
  : gmap nat (list Annotation) :=
  if bool_decide (Z.abs (pt_x start - pt_x finish) > 5
                  \/ Z.abs (pt_y start - pt_y finish) > 5)
  then <[pageIndex :=
           default [] (annotationsRef s !! pageIndex)
           ++ [mkAnnotation (uuidCounter s) pageIndex
                 (BlurData (pt_x start) (pt_y start)
                           (pt_x finish) (pt_y finish))]]>
         (annotationsRef s)
  else annotationsRef s.

(** The file a successful export delivers. *)
Definition editedDocument (bytes : Bytes) : Download :=
  {| file_name := "edited-document.pdf";
     file_type := "application/pdf";
     file_bytes := bytes |}.

(** Collaborators and a document used in examples: a two-page document,
    a rasterizer that fails on canvases of zero width, and an encoder that
    writes one byte per image placed on a page. *)
Definition samplePdf : PdfDocument :=
  {| doc_pages := [mkPdfPage [Byte.x01] 612 792 [];
                   mkPdfPage [Byte.x02] 612 792 []];
     doc_embedded := [] |}.

Definition sampleFetch (url : string) : option Bytes := Some [Byte.x25].
Definition sampleLoad (bytes : Bytes) : option PdfDocument := Some samplePdf.
Definition samplePng (canvas : Canvas) (bitmap : option (list DrawOp))
  : option Bytes :=
  if bool_decide (cv_width canvas = 0%N) then None else Some [Byte.x89].
Definition sampleDecode (png : Bytes) : option Bytes := Some png.
Definition sampleSave (pdfDoc : PdfDocument) : option Bytes :=
  Some (concat (map (fun page => map (fun _ => Byte.xff) (page_drawn page))
                    (doc_pages pdfDoc))).

(** A session with one blur annotation on page 0 of two pages. *)
Definition sampleSession : State :=
  run [RegistryEmit {[0%nat := samplePage; 1%nat := samplePage]};
       ToolChange blur alwaysGranted;
       Mouse (mouseAt mousedown 0 0 0);
       Mouse (mouseAt mouseup 0 50 50);
       ToolChange none alwaysGranted] initialState.

(** ** Further vocabulary: the store and the gesture refs *)

(** The three gesture refs agree: a drag is active exactly when a start
    point is held, and a start point is held exactly when a current point
    is. *)
Definition gestureConsistent (s : State) : Prop :=
  (isDrawingRef s = true <-> is_Some (startCoordsRef s)) /\
  (is_Some (startCoordsRef s) <-> is_Some (currentCoordsRef s)).

(** Every annotation sequence is filed under the page index its records
    carry. *)
Definition storeFiledByPage (s : State) : Prop :=
  forall pageIndex annotations a,
    annotationsRef s !! pageIndex = Some annotations ->
    a ∈ annotations ->
    ann_pageIndex a = pageIndex.



(** The annotation sequence of a page, empty when the page has none. *)
Definition pageAnnotations (pageIndex : nat) (s : State) : list Annotation :=
  default [] (annotationsRef s !! pageIndex).


(** The store after a release of the addText tool at [finish] on a page,
    given the answer of the prompt. *)
Definition textCommit (pageIndex : nat) (finish : Point)
    (answer : option string) (s : State) : gmap nat (list Annotation) :=
  match answer with
  | Some textContent =>
      if bool_decide (textContent = "") then annotationsRef s
      else <[pageIndex :=
               default [] (annotationsRef s !! pageIndex)
               ++ [mkAnnotation (uuidCounter s) pageIndex
                     (TextData (pt_x finish) (pt_y finish) textContent)]]>
             (annotationsRef s)
  | None => annotationsRef s
  end.

(** The rectangle the blur tool paints between two corners. *)
Definition blurRectangle (startX startY endX endY : Z) : DrawOp :=
  FillRect (Z.min startX endX) (Z.min startY endY)
           (Z.abs (startX - endX)) (Z.abs (startY - endY))
           "rgba(50, 50, 50, 0.85)" filter_blur4px.

(** The store after an erase gesture on one page whose press and moves
    captured the given points: unchanged without a move, else one new stroke
    through the press point and the move points. *)
Definition eraseCommit (pageIndex : nat) (pressed : Point)
    (moved : list Point) (s : State) : gmap nat (list Annotation) :=
  match moved with
  | [] => annotationsRef s
  | _ =>
      <[pageIndex :=
          default [] (annotationsRef s !! pageIndex)
          ++ [mkAnnotation (uuidCounter s) pageIndex
                (EraseData (pressed :: moved))]]>
        (annotationsRef s)
  end.

(** ** The viewer and the editor together *)

(** The page indices the registry reads off the page nodes of a document. *)
Definition pagesOf (nodes : list PageNode) : gset nat :=
  list_to_set (omap labelIndex nodes).

(** A session: [currentRefsSentToParent] of the viewer and the state of the
    editor it reports to. *)
Record Session := mkSession {
  sess_sent : gmap nat PageElement;
  sess_editor : State
}.

Definition initialSession : Session :=
  {| sess_sent := ∅; sess_editor := initialState |}.

(** What happens in a session: the observer callback runs on the page nodes
    now in the document, or something happens to the editor. *)
Inductive SessionEvent :=
| DocumentChanged (nodes : list PageNode)
| EditorEvent (e : Event).

(** The observer callback ([handleMutations]) with its two effects: the call
    of [onPageContainerRefsChange], which is the editor's
    [handlePageContainerRefsChange], and the update of
    [currentRefsSentToParent]. *)
Definition sessionStep (x : Session) (ev : SessionEvent) : Session :=
  match ev with
  | DocumentChanged nodes =>
      match handleMutations nodes (sess_sent x) with
      | Some refs =>
          {| sess_sent := refs;
             sess_editor := handlePageContainerRefsChange refs (sess_editor x) |}
      | None => x
      end
  | EditorEvent e =>
      {| sess_sent := sess_sent x; sess_editor := step (sess_editor x) e |}
  end.

Definition sessionRun (events : list SessionEvent) (x : Session) : Session :=
  foldl sessionStep x events.

(** In a session the mapping reaches the editor through the observer
    callback only. *)
Definition viaObserver (ev : SessionEvent) : Prop :=
  match ev with
  | EditorEvent (RegistryEmit _) => False
  | _ => True
  end.


(** What a run of the search tells about the attempts it made. *)
Definition pollExplained (viewerFound : nat -> bool)
    (attempt maxAttempts : nat) (r : PollRun) : Prop :=
  match poll_outcome r with
  | ObserverAttached k =>
      viewerFound k = true /\
      k = (attempt + length (poll_delays r))%nat /\
      forall j, (attempt <= j)%nat -> (j < k)%nat -> viewerFound j = false
  | GaveUp =>
      viewerFound attempt = false /\
      length (poll_delays r) = (maxAttempts - attempt)%nat /\
      forall j, (attempt <= j)%nat -> (j <= maxAttempts)%nat ->
                viewerFound j = false
  end.

(** ** The text selection and the search *)

(** The editor with the state of the text search: [selectedText], and the
    addresses [window.open] was called with. *)
Record Editor := mkEditor {
  ed_state : State;
  selectedText : string;
  openedUrls : list string
}.

Definition initialEditor : Editor :=
  {| ed_state := initialState; selectedText := ""; openedUrls := [] |}.

(** A string in a condition: the empty string counts as false. *)
Definition truthy (text : string) : bool := bool_decide (text <> "").

(** [setSelectedText(value)]: a value other than the current one brings a
    render. *)
Definition setSelectedText (value : string) (getContextOk : nat -> bool)
    (ed : Editor) : Editor :=
  {| ed_state := if bool_decide (value = selectedText ed) then ed_state ed
                 else render getContextOk (ed_state ed);
     selectedText := value;
     openedUrls := openedUrls ed |}.

(** [handleTextSelection()], the listener of 'mouseup' on the viewer
    container. [text] is [window.getSelection()?.toString().trim()], [None]
    when there is no selection object. *)
Definition handleTextSelection (text : option string)
    (getContextOk : nat -> bool) (ed : Editor) : Editor :=
  if bool_decide (activeTool (ed_state ed) = none) then
    match text with
    | Some t =>
        if truthy t && bool_decide (0 < String.length t)%nat
        then setSelectedText t getContextOk ed
        else if negb (truthy t) && truthy (selectedText ed)
             then setSelectedText "" getContextOk ed
             else ed
    | None =>
        if truthy (selectedText ed) then setSelectedText "" getContextOk ed
        else ed
    end
  else if truthy (selectedText ed) then setSelectedText "" getContextOk ed
       else ed.

(** A click on a tool button: [handleToolChange(tool)] with the selection it
    clears. The two state updates are batched; a render follows when either
    changes the state. *)
Definition toolButton (tool : Tool) (getContextOk : nat -> bool)
    (ed : Editor) : Editor :=
  let s1 := handleToolChange tool (ed_state ed) in
  {| ed_state :=
       if bool_decide (tool = activeTool (ed_state ed))
          && negb (truthy (selectedText ed))
       then s1 else render getContextOk s1;
     selectedText := if truthy (selectedText ed) then "" else selectedText ed;
     openedUrls := openedUrls ed |}.

(** What the user and the page do to the editor. A tool change is a click on
    a tool button; the other events of the editing state leave the selection
    alone. *)
Inductive EditorInput :=
| StateEvent (e : Event)
| TextSelection (text : option string) (getContextOk : nat -> bool)
| SearchClick (selection : bool) (getContextOk : nat -> bool).

Section Search.

Variable encodeURIComponent : string -> string.

Definition searchUrl (text : string) : string :=
  "https://www.google.com/search?q=" +:+ encodeURIComponent (text +:+ " ChatGPT").

(** [handleSearchChatGPT()]. [selection] tells whether [window.getSelection()]
    gave a selection object. *)
Definition handleSearchChatGPT (selection : bool)
    (getContextOk : nat -> bool) (ed : Editor) : Editor :=
  if truthy (selectedText ed) then
    let opened :=
      {| ed_state := ed_state ed;
         selectedText := selectedText ed;
         openedUrls := openedUrls ed ++ [searchUrl (selectedText ed)] |} in
    if selection then setSelectedText "" getContextOk opened else opened
  else ed.

Definition editorStep (ed : Editor) (input : EditorInput) : Editor :=
  match input with
  | StateEvent (ToolChange tool getContextOk) => toolButton tool getContextOk ed
  | StateEvent e =>
      {| ed_state := step (ed_state ed) e;
         selectedText := selectedText ed;
         openedUrls := openedUrls ed |}
  | TextSelection text getContextOk => handleTextSelection text getContextOk ed
  | SearchClick selection getContextOk =>
      handleSearchChatGPT selection getContextOk ed
  end.

Definition editorRun (inputs : list EditorInput) (ed : Editor) : Editor :=
  foldl editorStep ed inputs.

End Search.

(** ** The page that hosts the editor ([Home]) *)

(** One use of the file input: [up_file] is [e.target.files?.[0]];
    [up_result] is [reader.result] when [onload] runs, [None] standing for
    null and for a read that never completes. *)
Record Upload := mkUpload {
  up_file : option Bytes;
  up_result : option string
}.

(** [handleFileUpload(e)] with the [onload] that follows, on [fileUrl]. *)
Definition handleFileUpload (upload : Upload) (fileUrl : option string)
  : option string :=
  match up_file upload with
  | None => fileUrl
  | Some _ =>
      match up_result upload with
      | Some result => if truthy result then Some result else fileUrl
      | None => fileUrl
      end
  end.

Definition uploads (events : list Upload) (fileUrl : option string)
  : option string :=
  foldl (fun url upload => handleFileUpload upload url) fileUrl events.

(** The [pdfUrl] the editor is rendered with; [None] when [Home] shows the
    placeholder instead. *)
Definition editorProp (fileUrl : option string) : option string :=
  match fileUrl with
  | Some url => if truthy url then Some url else None
  | None => None
  end.


(** * Properties *)

(** Reduce the projections of updated states, leaving the maps alone. *)
Ltac simpl_state :=
  cbn [activeTool pageContainerRefs refsIdentity canvasRefs contextRefs
       annotationsRef isDrawingRef startCoordsRef currentCoordsRef uuidCounter
       depsIdentity depsTool with_contextRefs with_canvasRefs
       with_annotationsRef with_pageContainerRefs with_gesture with_registry
       with_deps with_activeTool with_uuidCounter with_currentCoords] in *.

(** ** The compositor *)

Lemma with_contextRefs_same (s : State) :
  with_contextRefs (contextRefs s) s = s.
Proof. by destruct s. Qed.

(** Replaying a sequence through [drawAnnotation] paints it onto the page's
    context and touches nothing else. *)
Lemma drawAnnotation_foldl pageIndex annotations : forall s context canvas,
  contextRefs s !! pageIndex = Some context ->
  canvasRefs s !! pageIndex = Some canvas ->
  foldl (fun st ann => drawAnnotation pageIndex ann st) s annotations
  = with_contextRefs
      (<[pageIndex := paintAll context annotations]> (contextRefs s)) s.
Proof.
  induction annotations as [|a rest IH]; intros s context canvas Hctx Hcv; simpl.
  - rewrite insert_id by done. by rewrite with_contextRefs_same.
  - unfold drawAnnotation at 2. rewrite Hctx, Hcv.
    erewrite IH; [| simpl; apply lookup_insert_eq | done].
    simpl. by rewrite insert_insert_eq.
Qed.

Lemma redrawPageAnnotations_live pageIndex s context canvas :
  contextRefs s !! pageIndex = Some context ->
  canvasRefs s !! pageIndex = Some canvas ->
  redrawPageAnnotations pageIndex s
  = with_contextRefs
      (<[pageIndex :=
           paintAll (clearRect context)
                    (default [] (annotationsRef s !! pageIndex))]>
         (contextRefs s)) s.
Proof.
  intros Hctx Hcv. unfold redrawPageAnnotations. rewrite Hctx, Hcv.
  erewrite drawAnnotation_foldl; [| simpl; apply lookup_insert_eq | done].
  simpl. by rewrite insert_insert_eq.
Qed.

Lemma redrawPageAnnotations_dead pageIndex s :
  contextRefs s !! pageIndex = None \/ canvasRefs s !! pageIndex = None ->
  redrawPageAnnotations pageIndex s = s.
Proof.
  unfold redrawPageAnnotations.
  intros [H|H]; rewrite H; [done|]. by destruct (contextRefs s !! pageIndex).
Qed.

(** A redraw writes the page's context and nothing else. *)
Lemma redrawPageAnnotations_frame pageIndex s :
  exists m,
    redrawPageAnnotations pageIndex s = with_contextRefs m s /\
    dom m = dom (contextRefs s) /\
    forall q, q <> pageIndex -> m !! q = contextRefs s !! q.
Proof.
  destruct (contextRefs s !! pageIndex) as [context|] eqn:Hctx;
    [destruct (canvasRefs s !! pageIndex) as [canvas|] eqn:Hcv|].
  - eexists. split; [by eapply redrawPageAnnotations_live|]. split.
    + rewrite dom_insert_L.
      assert (pageIndex ∈ dom (contextRefs s)) by by eapply elem_of_dom_2.
      set_solver.
    + intros q Hq. by rewrite lookup_insert_ne.
  - exists (contextRefs s). rewrite redrawPageAnnotations_dead by auto.
    by rewrite with_contextRefs_same.
  - exists (contextRefs s). rewrite redrawPageAnnotations_dead by auto.
    by rewrite with_contextRefs_same.
Qed.

(** The filter is off between paint operations: [drawBlurOverlay] switches
    it on and off again, nothing else assigns it. *)
Lemma paintAnnotation_filter context annotation :
  ctx_filter context = filter_none ->
  ctx_filter (paintAnnotation context annotation) = filter_none.
Proof. unfold paintAnnotation. by destruct (ann_data annotation). Qed.

(** With the filter off, what a sequence adds to the bitmap does not depend
    on the context it is painted with. *)
Lemma paintAll_bitmap annotations : forall c1 c2,
  ctx_filter c1 = filter_none ->
  ctx_filter c2 = filter_none ->
  exists ops,
    ctx_bitmap (paintAll c1 annotations) = ctx_bitmap c1 ++ ops /\
    ctx_bitmap (paintAll c2 annotations) = ctx_bitmap c2 ++ ops /\
    ctx_filter (paintAll c1 annotations) = filter_none /\
    ctx_filter (paintAll c2 annotations) = filter_none.
Proof.
  induction annotations as [|a rest IH]; intros c1 c2 H1 H2; simpl.
  - exists []. by rewrite !app_nil_r.
  - destruct (IH (paintAnnotation c1 a) (paintAnnotation c2 a))
      as (ops & E1 & E2 & F1 & F2); [by apply paintAnnotation_filter..|].
    unfold paintAll in *. rewrite E1, E2.
    unfold paintAnnotation in *.
    destruct (ann_data a); simpl in *; rewrite ?H1, ?H2, <- ?app_assoc;
      eexists; eauto.
Qed.

Lemma paintAll_filter annotations context :
  ctx_filter context = filter_none ->
  ctx_filter (paintAll context annotations) = filter_none.
Proof.
  intros H. destruct (paintAll_bitmap annotations context context H H)
    as (_ & _ & _ & F & _). done.
Qed.

Lemma redrawPageAnnotations_filtersOff pageIndex s :
  filtersOff s -> filtersOff (redrawPageAnnotations pageIndex s).
Proof.
  intros Hoff.
  destruct (contextRefs s !! pageIndex) as [context|] eqn:Hctx;
    [destruct (canvasRefs s !! pageIndex) as [canvas|] eqn:Hcv|];
    [| by rewrite redrawPageAnnotations_dead by auto..].
  erewrite redrawPageAnnotations_live by done.
  intros q c. simpl. rewrite lookup_insert. case_decide; [|by apply Hoff].
  intros [= <-]. apply paintAll_filter. simpl. by eapply Hoff.
Qed.

(** A property kept by each body is kept by the loop. *)
Lemma forEachIndex_preserves (P : State -> Prop) body indices : forall s,
  (forall pageIndex st, P st -> P (body pageIndex st)) ->
  P s -> P (forEachIndex indices body s).
Proof.
  unfold forEachIndex.
  induction indices as [|i rest IH]; intros s Hbody Hs; simpl; [done|].
  apply IH; auto.
Qed.

(** ** The canvas lifecycle effect *)

(** [sizeAndRedraw] writes the page's canvas and contexts, nothing else, and
    neither adds nor drops a context. *)
Lemma sizeAndRedraw_form pageElement targetParent pageIndex s :
  exists contexts,
    sizeAndRedraw pageElement targetParent pageIndex s
    = with_contextRefs contexts
        (with_canvasRefs
           (<[pageIndex := layoutCanvas pageElement targetParent (activeTool s)]>
              (canvasRefs s)) s) /\
    dom contexts = dom (contextRefs s) /\
    (filtersOff s ->
     forall q c, contexts !! q = Some c -> ctx_filter c = filter_none).
Proof.
  unfold sizeAndRedraw.
  set (s1 := with_canvasRefs _ s).
  set (s2 := match contextRefs s1 !! pageIndex with
             | Some _ => _
             | None => _
             end).
  assert (Hs2 : exists m, s2 = with_contextRefs m s1 /\
                          dom m = dom (contextRefs s) /\
                          (filtersOff s -> filtersOff s2)).
  { subst s2. destruct (contextRefs s1 !! pageIndex) as [c|] eqn:Hc.
    - eexists. split; [done|]. split.
      + simpl. rewrite dom_insert_L.
        assert (pageIndex ∈ dom (contextRefs s)) by by eapply elem_of_dom_2.
        set_solver.
      + intros Hoff q c'. simpl. rewrite lookup_insert.
        case_decide; [by intros [= <-] | by apply Hoff].
    - exists (contextRefs s). split; [|done]. by destruct s. }
  destruct Hs2 as (m & Es2 & Hdom & Hoff2).
  destruct (redrawPageAnnotations_frame pageIndex s2) as (m' & E & Hdom' & _).
  exists m'. split; [|split].
  - rewrite E, Es2. done.
  - rewrite Hdom', Es2. done.
  - intros Hoff q c Hq.
    apply (redrawPageAnnotations_filtersOff pageIndex) in Hoff2; [|done].
    rewrite E in Hoff2. by eapply Hoff2.
Qed.

(** What one body of the first loop does to the refs. *)
Lemma lifecyclePage_form getContextOk pageIndex s :
  exists canvases contexts,
    lifecyclePage getContextOk pageIndex s
    = with_contextRefs contexts (with_canvasRefs canvases s) /\
    dom canvases
    = dom (canvasRefs s) ∪ dom (pageContainerRefs s) ∩ {[pageIndex]} /\
    dom (contextRefs s) ⊆ dom contexts /\
    dom contexts ⊆ dom (contextRefs s) ∪ dom canvases /\
    (getContextOk pageIndex = true ->
     dom (contextRefs s) = dom (canvasRefs s) -> dom contexts = dom canvases) /\
    (filtersOff s ->
     forall q c, contexts !! q = Some c -> ctx_filter c = filter_none).
Proof.
  unfold lifecyclePage.
  destruct (pageContainerRefs s !! pageIndex) as [el|] eqn:Hel.
  2:{ exists (canvasRefs s), (contextRefs s).
      apply not_elem_of_dom in Hel.
      split; [by destruct s|]. repeat split; try set_solver; auto. }
  apply elem_of_dom_2 in Hel.
  set (tp := if hasPageLayer el then in_page_layer else in_inner_page).
  destruct (canvasRefs s !! pageIndex) as [cv|] eqn:Hcv.
  - destruct (sizeAndRedraw_form el tp pageIndex s) as (m & E & Hdom & Hoff).
    apply elem_of_dom_2 in Hcv.
    eexists _, m. split; [exact E|]. rewrite dom_insert_L, Hdom.
    repeat split; try set_solver; auto.
  - destruct (getContextOk pageIndex) eqn:Hok.
    + set (s1 := with_contextRefs _ _).
      destruct (sizeAndRedraw_form el tp pageIndex s1) as (m & E & Hdom & Hoff).
      exists (<[pageIndex := layoutCanvas el tp (activeTool s)]>
                (<[pageIndex := createCanvas tp]> (canvasRefs s))), m.
      split; [rewrite E; subst s1; simpl_state; reflexivity|].
      subst s1. simpl_state. rewrite Hdom, !dom_insert_L.
      split_and!; [set_solver..|].
      intros Hs. apply Hoff. intros q c. simpl_state. rewrite lookup_insert.
      case_decide; [by intros [= <-] | intros Hq; exact (Hs q c Hq)].
    + exists (<[pageIndex := createCanvas tp]> (canvasRefs s)), (contextRefs s).
      split; [by destruct s|].
      rewrite dom_insert_L. repeat split; try set_solver; auto.
Qed.

Lemma removePage_form pageIndex s :
  (removePage pageIndex s = s /\
   ((pageIndex ∈ dom (pageContainerRefs s)) \/
    (pageIndex ∉ dom (canvasRefs s)))) \/
  ((pageIndex ∉ dom (pageContainerRefs s)) /\
   pageIndex ∈ dom (canvasRefs s) /\
   removePage pageIndex s
   = with_annotationsRef (delete pageIndex (annotationsRef s))
       (with_contextRefs (delete pageIndex (contextRefs s))
          (with_canvasRefs (delete pageIndex (canvasRefs s)) s))).
Proof.
  unfold removePage.
  destruct (pageContainerRefs s !! pageIndex) eqn:Hel.
  { left. split; [done|]. left. by eapply elem_of_dom_2. }
  destruct (canvasRefs s !! pageIndex) eqn:Hcv.
  - right. split; [by apply not_elem_of_dom|].
    split; [by eapply elem_of_dom_2|done].
  - left. split; [done|]. right. by apply not_elem_of_dom.
Qed.

(** The first loop: every listed index of the mapping gets a canvas. *)
Lemma lifecycle_loop_canvases getContextOk indices : forall s,
  let s' := forEachIndex indices (lifecyclePage getContextOk) s in
  pageContainerRefs s' = pageContainerRefs s /\
  dom (canvasRefs s')
  = dom (canvasRefs s) ∪ dom (pageContainerRefs s) ∩ list_to_set indices.
Proof.
  unfold forEachIndex.
  induction indices as [|i rest IH]; intros s; simpl.
  - split; [done|]. set_solver.
  - destruct (lifecyclePage_form getContextOk i s) as (cvs & ctxs & E & Hd & _).
    destruct (IH (lifecyclePage getContextOk i s)) as [IH1 IH2].
    rewrite IH1, IH2, E. simpl. rewrite Hd. split; [done|]. set_solver.
Qed.

(** The second loop: the listed indices that are not in the mapping lose
    their canvas. *)
Lemma removal_loop_canvases indices : forall s,
  let s' := forEachIndex indices removePage s in
  pageContainerRefs s' = pageContainerRefs s /\
  dom (canvasRefs s')
  = dom (canvasRefs s) ∖ (list_to_set indices ∖ dom (pageContainerRefs s)).
Proof.
  unfold forEachIndex.
  induction indices as [|i rest IH]; intros s; simpl.
  - split; [done|]. set_solver.
  - destruct (IH (removePage i s)) as [IH1 IH2]. rewrite IH1, IH2.
    destruct (removePage_form i s) as [[-> Hi]|(Hel & Hcv & ->)].
    + split; [done|]. apply set_eq. intros q.
      destruct (decide (q = i)) as [->|]; set_solver.
    + simpl_state. rewrite dom_delete_L. split; [done|]. apply set_eq. intros q.
      destruct (decide (q = i)) as [->|]; set_solver.
Qed.

(** After the effect the canvases are exactly those of the mapping's
    indices, whatever the refs held before. *)
Lemma canvasLifecycleEffect_canvases getContextOk s :
  let s' := canvasLifecycleEffect getContextOk s in
  pageContainerRefs s' = pageContainerRefs s /\
  dom (canvasRefs s') = dom (pageContainerRefs s).
Proof.
  unfold canvasLifecycleEffect.
  set (known := elements (dom (pageContainerRefs s))).
  set (active := elements (dom (canvasRefs s))).
  destruct (lifecycle_loop_canvases getContextOk known s) as [L1 L2].
  destruct (removal_loop_canvases active
              (forEachIndex known (lifecyclePage getContextOk) s)) as [R1 R2].
  simpl. rewrite R1, R2, L1, L2. split; [done|].
  subst known active. rewrite !list_to_set_elements_L.
  apply set_eq. intros q.
  destruct (decide (q ∈ dom (pageContainerRefs s))); set_solver.
Qed.

Lemma untouchedByEffect_refl s : untouchedByEffect s s.
Proof. by repeat split. Qed.

Lemma untouchedByEffect_trans s1 s2 s3 :
  untouchedByEffect s1 s2 -> untouchedByEffect s2 s3 -> untouchedByEffect s1 s3.
Proof.
  unfold untouchedByEffect. intros H12 H23.
  destruct_and!. split_and!; congruence.
Qed.

Lemma lifecyclePage_untouched getContextOk pageIndex s :
  untouchedByEffect s (lifecyclePage getContextOk pageIndex s).
Proof.
  destruct (lifecyclePage_form getContextOk pageIndex s) as (? & ? & -> & _).
  by repeat split.
Qed.

Lemma removePage_untouched pageIndex s :
  untouchedByEffect s (removePage pageIndex s).
Proof.
  destruct (removePage_form pageIndex s) as [[-> _]|(_ & _ & ->)];
    by repeat split.
Qed.

Lemma forEachIndex_untouched body indices : forall s,
  (forall pageIndex st, untouchedByEffect st (body pageIndex st)) ->
  untouchedByEffect s (forEachIndex indices body s).
Proof.
  intros s Hbody.
  apply (forEachIndex_preserves (untouchedByEffect s));
    [|apply untouchedByEffect_refl].
  intros p st Hst. eapply untouchedByEffect_trans; [exact Hst|apply Hbody].
Qed.

Lemma canvasLifecycleEffect_untouched getContextOk s :
  untouchedByEffect s (canvasLifecycleEffect getContextOk s).
Proof.
  unfold canvasLifecycleEffect.
  eapply untouchedByEffect_trans; apply forEachIndex_untouched;
    auto using lifecyclePage_untouched, removePage_untouched.
Qed.

Lemma lifecyclePage_filtersOff getContextOk pageIndex s :
  filtersOff s -> filtersOff (lifecyclePage getContextOk pageIndex s).
Proof.
  destruct (lifecyclePage_form getContextOk pageIndex s)
    as (? & ? & -> & _ & _ & _ & _ & Hoff).
  intros Hs q c. simpl_state. by apply Hoff.
Qed.

Lemma removePage_filtersOff pageIndex s :
  filtersOff s -> filtersOff (removePage pageIndex s).
Proof.
  destruct (removePage_form pageIndex s) as [[-> _]|(_ & _ & ->)]; [done|].
  intros Hs q c. simpl_state. rewrite lookup_delete.
  case_decide; [done|]. apply Hs.
Qed.

Lemma canvasLifecycleEffect_filtersOff getContextOk s :
  filtersOff s -> filtersOff (canvasLifecycleEffect getContextOk s).
Proof.
  intros Hs. unfold canvasLifecycleEffect.
  apply forEachIndex_preserves; [intros; by apply removePage_filtersOff|].
  apply forEachIndex_preserves; [intros; by apply lifecyclePage_filtersOff|done].
Qed.

Lemma lifecyclePage_complete getContextOk pageIndex s :
  getContextOk pageIndex = true ->
  surfacesComplete s -> surfacesComplete (lifecyclePage getContextOk pageIndex s).
Proof.
  unfold surfacesComplete.
  destruct (lifecyclePage_form getContextOk pageIndex s)
    as (? & ? & -> & _ & _ & _ & Hc & _).
  simpl_state. auto.
Qed.

Lemma removePage_complete pageIndex s :
  surfacesComplete s -> surfacesComplete (removePage pageIndex s).
Proof.
  unfold surfacesComplete.
  destruct (removePage_form pageIndex s) as [[-> _]|(_ & _ & ->)]; [done|].
  simpl_state. rewrite !dom_delete_L. by intros ->.
Qed.

Lemma canvasLifecycleEffect_complete getContextOk s :
  (forall pageIndex, getContextOk pageIndex = true) ->
  surfacesComplete s -> surfacesComplete (canvasLifecycleEffect getContextOk s).
Proof.
  intros Hok Hs. unfold canvasLifecycleEffect.
  apply forEachIndex_preserves; [intros; by apply removePage_complete|].
  apply forEachIndex_preserves;
    [intros; by apply lifecyclePage_complete|done].
Qed.

Lemma lifecyclePage_annotations getContextOk pageIndex s :
  dom (annotationsRef s) ⊆ dom (canvasRefs s) ->
  dom (annotationsRef (lifecyclePage getContextOk pageIndex s))
  ⊆ dom (canvasRefs (lifecyclePage getContextOk pageIndex s)).
Proof.
  destruct (lifecyclePage_form getContextOk pageIndex s)
    as (? & ? & -> & Hd & _).
  simpl_state. rewrite Hd. set_solver.
Qed.

Lemma removePage_annotations pageIndex s :
  dom (annotationsRef s) ⊆ dom (canvasRefs s) ->
  dom (annotationsRef (removePage pageIndex s))
  ⊆ dom (canvasRefs (removePage pageIndex s)).
Proof.
  destruct (removePage_form pageIndex s) as [[-> _]|(_ & _ & ->)]; [done|].
  simpl_state. rewrite !dom_delete_L. set_solver.
Qed.

Lemma canvasLifecycleEffect_annotations getContextOk s :
  dom (annotationsRef s) ⊆ dom (canvasRefs s) ->
  dom (annotationsRef (canvasLifecycleEffect getContextOk s))
  ⊆ dom (canvasRefs (canvasLifecycleEffect getContextOk s)).
Proof.
  intros Hs. unfold canvasLifecycleEffect.
  apply (forEachIndex_preserves
           (fun st => dom (annotationsRef st) ⊆ dom (canvasRefs st)));
    [intros; by apply removePage_annotations|].
  apply (forEachIndex_preserves
           (fun st => dom (annotationsRef st) ⊆ dom (canvasRefs st)));
    [intros; by apply lifecyclePage_annotations|done].
Qed.

(** ** Renders keep the refs coherent *)

Lemma render_coherent getContextOk s :
  refsCoherent s -> refsCoherent (render getContextOk s).
Proof.
  intros [Hf Hi Hc Ha]. unfold render.
  destruct (depsChanged s); [|by constructor].
  destruct (canvasLifecycleEffect_untouched getContextOk s)
    as (Ht & Hr & Hid & _).
  destruct (canvasLifecycleEffect_canvases getContextOk s) as [_ Hcv].
  constructor; simpl_state.
  - intros p c Hp. simpl_state.
    by eapply (canvasLifecycleEffect_filtersOff getContextOk s Hf).
  - lia.
  - intros _. by rewrite Hcv, Hr.
  - by apply canvasLifecycleEffect_annotations.
Qed.

Lemma render_complete getContextOk s :
  (forall pageIndex, getContextOk pageIndex = true) ->
  surfacesComplete s -> surfacesComplete (render getContextOk s).
Proof.
  intros Hok Hs. unfold render. destruct (depsChanged s); [|done].
  apply (canvasLifecycleEffect_complete getContextOk s Hok) in Hs.
  exact Hs.
Qed.

Lemma render_synced getContextOk s :
  depsChanged s = true \/ depsIdentity s = refsIdentity s ->
  depsIdentity (render getContextOk s) = refsIdentity (render getContextOk s).
Proof.
  unfold render. destruct (depsChanged s) eqn:Hd.
  - intros _. simpl_state.
    by destruct (canvasLifecycleEffect_untouched getContextOk s)
      as (_ & _ & -> & _).
  - by intros [|].
Qed.

(** ** Pointer events keep the surfaces *)

Lemma surfacesKept_refl s : surfacesKept s s.
Proof. by repeat split. Qed.

Lemma surfacesKept_trans s1 s2 s3 :
  surfacesKept s1 s2 -> surfacesKept s2 s3 -> surfacesKept s1 s3.
Proof.
  unfold surfacesKept. intros H12 H23.
  destruct_and!. split_and!; congruence.
Qed.

Lemma redrawPageAnnotations_kept pageIndex s :
  surfacesKept s (redrawPageAnnotations pageIndex s).
Proof.
  destruct (redrawPageAnnotations_frame pageIndex s) as (m & -> & Hd & _).
  by repeat split.
Qed.

Lemma redrawPageAnnotations_annotations pageIndex s :
  annotationsRef (redrawPageAnnotations pageIndex s) = annotationsRef s.
Proof. by destruct (redrawPageAnnotations_frame pageIndex s) as (m & -> & _). Qed.

Lemma redrawPageAnnotations_gesture pageIndex s :
  isDrawingRef (redrawPageAnnotations pageIndex s) = isDrawingRef s /\
  startCoordsRef (redrawPageAnnotations pageIndex s) = startCoordsRef s /\
  currentCoordsRef (redrawPageAnnotations pageIndex s) = currentCoordsRef s /\
  uuidCounter (redrawPageAnnotations pageIndex s) = uuidCounter s.
Proof. by destruct (redrawPageAnnotations_frame pageIndex s) as (m & -> & _). Qed.

Lemma previewBlur_kept pageIndex start x y s :
  surfacesKept s (previewBlur pageIndex start x y s).
Proof.
  unfold previewBlur.
  destruct (contextRefs s !! pageIndex) eqn:Hc; [|apply surfacesKept_refl].
  repeat split. simpl_state. rewrite dom_insert_L.
  apply elem_of_dom_2 in Hc. set_solver.
Qed.

Lemma previewBlur_filtersOff pageIndex start x y s :
  filtersOff s -> filtersOff (previewBlur pageIndex start x y s).
Proof.
  unfold previewBlur. intros Hs.
  destruct (contextRefs s !! pageIndex) as [context|] eqn:Hc; [|done].
  intros q c. simpl_state. rewrite lookup_insert.
  case_decide; [by intros [= <-] | apply Hs].
Qed.

Lemma eraseMove_kept pageIndex start x y s :
  surfacesKept s (eraseMove pageIndex start x y s) /\
  contextRefs (eraseMove pageIndex start x y s) = contextRefs s.
Proof.
  unfold eraseMove, appendAnnotation.
  repeat case_match; by repeat split.
Qed.

(** An erase move writes the store of its own page only. *)
Lemma eraseMove_annotations pageIndex start x y s :
  dom (annotationsRef (eraseMove pageIndex start x y s))
  = {[pageIndex]} ∪ dom (annotationsRef s).
Proof.
  unfold eraseMove, appendAnnotation.
  repeat case_match; simpl_state; by rewrite dom_insert_L.
Qed.

Lemma appendAnnotation_kept pageIndex payload s :
  surfacesKept s (appendAnnotation pageIndex payload s) /\
  contextRefs (appendAnnotation pageIndex payload s) = contextRefs s /\
  dom (annotationsRef (appendAnnotation pageIndex payload s))
  = {[pageIndex]} ∪ dom (annotationsRef s).
Proof.
  unfold appendAnnotation. split; [by repeat split|].
  split; [done|]. simpl_state. by rewrite dom_insert_L.
Qed.

Lemma handleToolInteraction_kept event s :
  surfacesKept s (handleToolInteraction event s).
Proof.
  unfold handleToolInteraction.
  case_bool_decide; [apply surfacesKept_refl|].
  destruct (ev_page event) as [p|]; [|apply surfacesKept_refl].
  destruct (canvasRefs s !! p) as [canvas|]; [|apply surfacesKept_refl].
  destruct (contextRefs s !! p) as [context|]; [|apply surfacesKept_refl].
  destruct (ev_type event).
  - by repeat split.
  - destruct (isDrawingRef s); [|apply surfacesKept_refl].
    set (s1 := with_currentCoords _ s).
    assert (H1 : surfacesKept s s1) by by repeat split.
    pose proof (redrawPageAnnotations_kept p s1) as H2.
    set (s2 := redrawPageAnnotations p s1) in *.
    pose proof (surfacesKept_trans _ _ _ H1 H2) as H12.
    destruct (activeTool s2), (startCoordsRef s2) as [start|]; try done.
    + eapply surfacesKept_trans; [exact H12|apply previewBlur_kept].
    + eapply surfacesKept_trans; [exact H12|].
      eapply surfacesKept_trans;
        [apply eraseMove_kept|apply redrawPageAnnotations_kept].
  - eapply surfacesKept_trans; [|apply redrawPageAnnotations_kept].
    destruct (startCoordsRef s) as [start|]; [|by repeat split].
    destruct (releaseAnnotation _ _ _ _ _); [|by repeat split].
    destruct (appendAnnotation_kept p a s) as [(?&?&?&?&?&?&?) _].
    by repeat split.
Qed.

Lemma handleToolInteraction_filtersOff event s :
  filtersOff s -> filtersOff (handleToolInteraction event s).
Proof.
  intros Hs. unfold handleToolInteraction.
  case_bool_decide; [done|].
  destruct (ev_page event) as [p|]; [|done].
  destruct (canvasRefs s !! p) as [canvas|]; [|done].
  destruct (contextRefs s !! p) as [context|]; [|done].
  destruct (ev_type event).
  - done.
  - destruct (isDrawingRef s); [|done].
    set (s1 := with_currentCoords _ s).
    assert (H1 : filtersOff s1) by done.
    apply (redrawPageAnnotations_filtersOff p) in H1.
    set (s2 := redrawPageAnnotations p s1) in *.
    destruct (activeTool s2), (startCoordsRef s2) as [start|]; try done.
    + by apply previewBlur_filtersOff.
    + apply redrawPageAnnotations_filtersOff.
      intros q c. destruct (eraseMove_kept p start
        (bounded (ev_clientX event - ev_rectLeft event) (cv_width canvas))
        (bounded (ev_clientY event - ev_rectTop event) (cv_height canvas)) s2)
        as [_ ->]. apply H1.
  - apply redrawPageAnnotations_filtersOff.
    destruct (startCoordsRef s) as [start|]; [|done].
    destruct (releaseAnnotation _ _ _ _ _); done.
Qed.

(** Annotations are only ever recorded for a page that has a canvas. *)
Lemma handleToolInteraction_annotations event s :
  dom (annotationsRef s) ⊆ dom (canvasRefs s) ->
  dom (annotationsRef (handleToolInteraction event s)) ⊆ dom (canvasRefs s).
Proof.
  intros Hs. unfold handleToolInteraction.
  case_bool_decide; [done|].
  destruct (ev_page event) as [p|]; [|done].
  destruct (canvasRefs s !! p) as [canvas|] eqn:Hcv; [|done].
  apply elem_of_dom_2 in Hcv.
  destruct (contextRefs s !! p) as [context|]; [|done].
  destruct (ev_type event).
  - done.
  - destruct (isDrawingRef s); [|done].
    set (s1 := with_currentCoords _ s).
    pose proof (redrawPageAnnotations_annotations p s1) as H2.
    set (s2 := redrawPageAnnotations p s1) in *.
    assert (Hs2 : dom (annotationsRef s2) ⊆ dom (canvasRefs s))
      by by rewrite H2.
    destruct (activeTool s2), (startCoordsRef s2) as [start|]; try done.
    + unfold previewBlur. by destruct (contextRefs s2 !! p).
    + rewrite redrawPageAnnotations_annotations, eraseMove_annotations.
      set_solver.
  - rewrite redrawPageAnnotations_annotations. simpl_state.
    destruct (startCoordsRef s) as [start|]; [|done].
    destruct (releaseAnnotation _ _ _ _ _); [|done].
    destruct (appendAnnotation_kept p a s) as (_ & _ & ->). set_solver.
Qed.

(** A press on a live page starts the gesture at the captured point. *)
Lemma press_starts_gesture event pageIndex canvas s :
  activeTool s <> none ->
  ev_type event = mousedown -> ev_page event = Some pageIndex ->
  canvasRefs s !! pageIndex = Some canvas ->
  is_Some (contextRefs s !! pageIndex) ->
  handleToolInteraction event s
  = with_gesture true (Some (capturedPoint event canvas))
                 (Some (capturedPoint event canvas)) s.
Proof.
  intros Htool Hty Hpg Hcv [context Hctx]. unfold handleToolInteraction.
  rewrite bool_decide_eq_false_2 by done. by rewrite Hpg, Hcv, Hctx, Hty.
Qed.

(** ** The tool switch *)

Lemma toolChangePage_form tool pageIndex s :
  exists refs canvases,
    toolChangePage tool pageIndex s
    = with_pageContainerRefs refs (with_canvasRefs canvases s) /\
    dom refs = dom (pageContainerRefs s) /\
    dom canvases = dom (canvasRefs s).
Proof.
  unfold toolChangePage.
  destruct (canvasRefs s !! pageIndex) as [canvas|] eqn:Hcv.
  2:{ exists (pageContainerRefs s), (canvasRefs s). by destruct s. }
  apply elem_of_dom_2 in Hcv. simpl_state.
  destruct (pageContainerRefs s !! pageIndex) as [el|] eqn:Hel.
  - apply elem_of_dom_2 in Hel.
    eexists _, _. split; [reflexivity|]. rewrite !dom_insert_L. set_solver.
  - exists (pageContainerRefs s),
      (<[pageIndex := setCanvasStyle (toolPointerEvents tool) (toolCursor tool)
                                     canvas]> (canvasRefs s)).
    split; [by destruct s|]. rewrite !dom_insert_L. set_solver.
Qed.

Lemma toolChange_loop_form tool indices : forall s,
  exists refs canvases,
    forEachIndex indices (toolChangePage tool) s
    = with_pageContainerRefs refs (with_canvasRefs canvases s) /\
    dom refs = dom (pageContainerRefs s) /\
    dom canvases = dom (canvasRefs s).
Proof.
  unfold forEachIndex.
  induction indices as [|i rest IH]; intros s; simpl.
  - exists (pageContainerRefs s), (canvasRefs s). by destruct s.
  - destruct (toolChangePage_form tool i s) as (r1 & c1 & E1 & Hr1 & Hc1).
    destruct (IH (toolChangePage tool i s)) as (r2 & c2 & E2 & Hr2 & Hc2).
    exists r2, c2. rewrite E2, E1 in *. simpl_state.
    split; [done|]. split; congruence.
Qed.

(** [handleToolChange] sets the tool, restyles canvases and text layers in
    place, and resets the gesture refs exactly when the new tool is not a
    drawing tool. *)
Lemma handleToolChange_form tool s :
  exists refs canvases,
    handleToolChange tool s
    = with_gesture
        (if isDrawingTool tool then isDrawingRef s else false)
        (if isDrawingTool tool then startCoordsRef s else None)
        (if isDrawingTool tool then currentCoordsRef s else None)
        (with_pageContainerRefs refs
           (with_canvasRefs canvases (with_activeTool tool s))) /\
    dom refs = dom (pageContainerRefs s) /\
    dom canvases = dom (canvasRefs s).
Proof.
  unfold handleToolChange.
  destruct (toolChange_loop_form tool
              (elements (dom (canvasRefs (with_activeTool tool s))))
              (with_activeTool tool s)) as (r & c & -> & Hr & Hc).
  exists r, c. split; [by destruct (isDrawingTool tool)|]. done.
Qed.

Lemma handleToolChange_coherent tool s :
  refsCoherent s -> refsCoherent (handleToolChange tool s).
Proof.
  intros [Hf Hi Hc Ha].
  destruct (handleToolChange_form tool s) as (r & c & -> & Hr & Hcv).
  constructor; simpl_state; [done|done| |].
  - rewrite Hr, Hcv. done.
  - by rewrite Hcv.
Qed.

Lemma handleToolChange_complete tool s :
  surfacesComplete s -> surfacesComplete (handleToolChange tool s).
Proof.
  unfold surfacesComplete.
  destruct (handleToolChange_form tool s) as (r & c & -> & Hr & Hcv).
  simpl_state. by rewrite Hcv.
Qed.

(** ** The other events *)

Lemma mouseLeave_loop_form indices : forall s,
  exists contexts,
    forEachIndex indices redrawPageAnnotations s = with_contextRefs contexts s /\
    dom contexts = dom (contextRefs s) /\
    (filtersOff s ->
     forall q c, contexts !! q = Some c -> ctx_filter c = filter_none).
Proof.
  unfold forEachIndex.
  induction indices as [|i rest IH]; intros s; simpl.
  - exists (contextRefs s). split; [by destruct s|]. split; [done|]. auto.
  - destruct (redrawPageAnnotations_frame i s) as (m & E & Hd & _).
    destruct (IH (redrawPageAnnotations i s)) as (m' & E' & Hd' & Hoff').
    exists m'. rewrite E', E in *. simpl_state. split; [done|].
    split; [congruence|]. intros Hs. apply Hoff'.
    rewrite <- E. by apply redrawPageAnnotations_filtersOff.
Qed.

Lemma handleMouseLeave_form s :
  exists contexts,
    handleMouseLeave s
    = with_contextRefs contexts
        (with_gesture false
           (if isDrawingRef s then None else startCoordsRef s)
           (if isDrawingRef s then None else currentCoordsRef s) s) /\
    dom contexts = dom (contextRefs s) /\
    (filtersOff s ->
     forall q c, contexts !! q = Some c -> ctx_filter c = filter_none).
Proof.
  unfold handleMouseLeave. destruct (isDrawingRef s) eqn:Hd.
  - destruct (mouseLeave_loop_form
                (elements (dom (canvasRefs (with_gesture false None None s))))
                (with_gesture false None None s)) as (m & -> & Hm & Hoff).
    exists m. done.
  - exists (contextRefs s). split; [destruct s; simpl in *; by subst|].
    split; [done|]. auto.
Qed.

Lemma step_coherent s e : refsCoherent s -> refsCoherent (step s e).
Proof.
  intros Hs. destruct e as [refs|tool ok|ev| |ok|p el]; simpl.
  - destruct Hs as [Hf Hi Hc Ha]. unfold handlePageContainerRefsChange.
    constructor; simpl_state; [done|lia|lia|done].
  - apply (handleToolChange_coherent tool) in Hs.
    case_bool_decide; [done|]. by apply render_coherent.
  - destruct Hs as [Hf Hi Hc Ha].
    destruct (handleToolInteraction_kept ev s)
      as (Ht & Hr & Hid & Hdi & Hdt & Hcv & Hctx).
    constructor.
    + by apply handleToolInteraction_filtersOff.
    + lia.
    + rewrite Hcv, Hr, Hid, Hdi. done.
    + rewrite Hcv. by apply handleToolInteraction_annotations.
  - destruct Hs as [Hf Hi Hc Ha].
    destruct (handleMouseLeave_form s) as (m & -> & Hm & Hoff).
    constructor; simpl_state; [|done..].
    intros q c. simpl_state. by apply Hoff.
  - by apply render_coherent.
  - destruct Hs as [Hf Hi Hc Ha]. unfold rendererLayout.
    destruct (pageContainerRefs s !! p) eqn:Hp; [|by constructor].
    apply elem_of_dom_2 in Hp.
    constructor; simpl_state; [done|done| |done].
    intros Hd. rewrite dom_insert_L, Hc by done. set_solver.
Qed.

Lemma step_complete s e :
  contextsGranted e -> surfacesComplete s -> surfacesComplete (step s e).
Proof.
  intros He Hs. destruct e as [refs|tool ok|ev| |ok|p el]; simpl in *.
  - done.
  - apply (handleToolChange_complete tool) in Hs.
    case_bool_decide; [done|]. by apply render_complete.
  - unfold surfacesComplete in *.
    destruct (handleToolInteraction_kept ev s)
      as (_ & _ & _ & _ & _ & -> & ->). done.
  - unfold surfacesComplete in *.
    destruct (handleMouseLeave_form s) as (m & -> & Hm & _).
    simpl_state. by rewrite Hm.
  - by apply render_complete.
  - unfold rendererLayout. by destruct (pageContainerRefs s !! p).
Qed.

Lemma initialState_coherent : refsCoherent initialState.
Proof.
  constructor; unfold initialState; simpl_state; [|lia|done|done].
  intros p c. simpl_state. by rewrite lookup_empty.
Qed.

Lemma run_app events1 events2 s :
  run (events1 ++ events2) s = run events2 (run events1 s).
Proof. apply foldl_app. Qed.

(** Every state the editor reaches from its mount is coherent. *)
Lemma run_coherent events : forall s,
  refsCoherent s -> refsCoherent (run events s).
Proof.
  induction events as [|e rest IH]; intros s Hs; simpl; [done|].
  apply IH. by apply step_coherent.
Qed.

Lemma run_complete events : forall s,
  Forall contextsGranted events ->
  surfacesComplete s -> surfacesComplete (run events s).
Proof.
  induction events as [|e rest IH]; intros s Hev Hs; simpl; [done|].
  inversion Hev; subst. apply IH; [done|]. by apply step_complete.
Qed.

(** ** Redraw *)


(** ** The registry's emissions *)

(** The indices of the mapping built from the page nodes are those read off
    the labels. *)
Lemma collectRefs_dom (nodes : list PageNode) :
  dom (collectRefs nodes) = list_to_set (omap labelIndex nodes).
Proof.
  unfold collectRefs.
  assert (H : forall (acc : gmap nat PageElement),
            dom (foldl (fun newRefs node =>
                          match labelIndex node with
                          | Some pageIndex =>
                              <[pageIndex := node_element node]> newRefs
                          | None => newRefs
                          end) acc nodes)
            = dom acc ∪ list_to_set (omap labelIndex nodes)).
  { induction nodes as [|node rest IH]; intros acc; simpl.
    - set_solver.
    - rewrite IH. destruct (labelIndex node); simpl.
      + rewrite dom_insert_L. set_solver.
      + done. }
  rewrite H, dom_empty_L. set_solver.
Qed.

(** The registry emits only when the set of indices changes, and what it
    emits is the mapping of the page nodes now in the document. *)
Lemma handleMutations_emits (nodes : list PageNode)
    (sent emitted : gmap nat PageElement) :
  handleMutations nodes sent = Some emitted ->
  emitted = collectRefs nodes /\ dom emitted <> dom sent.
Proof.
  unfold handleMutations. destruct nodes as [|node rest].
  - case_bool_decide as Hd; [done|]. intros [= <-].
    split; [done|]. rewrite dom_empty_L. congruence.
  - case_bool_decide as Hd; [done|]. by intros [= <-].
Qed.

(** ** Surfaces and the registry mapping *)

(** Once a render has seen the current mapping object, and as long as every
    context request was granted, the live surfaces are the mapping's
    indices and no annotations are kept for other indices. *)
Lemma synced_surfaces s :
  refsCoherent s -> surfacesComplete s ->
  depsIdentity s = refsIdentity s ->
  liveSurfaces s = dom (pageContainerRefs s) /\
  dom (annotationsRef s) ⊆ dom (pageContainerRefs s).
Proof.
  intros [Hf Hi Hc Ha] Hcomp Hid. unfold liveSurfaces.
  rewrite Hcomp. rewrite <- (Hc Hid). split; [set_solver|done].
Qed.




(** After any render with contexts granted, the surfaces match the mapping. *)
Lemma surfaces_after_render (events : list Event) getContextOk :
  Forall contextsGranted events ->
  (forall pageIndex, getContextOk pageIndex = true) ->
  let s := step (run events initialState) (Rerender getContextOk) in
  liveSurfaces s = dom (pageContainerRefs s).
Proof.
  intros Hev Hok s.
  assert (Hcoh : refsCoherent (run events initialState))
    by apply run_coherent, initialState_coherent.
  apply synced_surfaces.
  - by apply step_coherent.
  - apply step_complete; [done|by apply run_complete].
  - subst s. simpl. apply render_synced. unfold depsChanged.
    destruct (bool_decide (depsIdentity _ = refsIdentity _)) eqn:Hb;
      [right; by apply bool_decide_eq_true in Hb | by left].
Qed.

(** ** Tool switch during a drag *)




(** ** Pointer-input routing *)

(** *** The canvas side follows the tool *)

Lemma lifecyclePage_follows getContextOk pageIndex s :
  surfacesFollowTool s ->
  surfacesFollowTool (lifecyclePage getContextOk pageIndex s).
Proof.
  intros [Hsub Hstyle]. unfold lifecyclePage.
  destruct (pageContainerRefs s !! pageIndex) as [el|]; [|by constructor].
  set (tp := if hasPageLayer el then in_page_layer else in_inner_page).
  destruct (canvasRefs s !! pageIndex) as [cv|] eqn:Hcv.
  - destruct (sizeAndRedraw_form el tp pageIndex s) as (m & -> & Hdom & _).
    constructor; simpl_state.
    + rewrite Hdom, dom_insert_L. set_solver.
    + intros q c. rewrite lookup_insert, Hdom.
      case_decide; [by intros [= <-] | by apply Hstyle].
  - destruct (getContextOk pageIndex).
    + set (s1 := with_contextRefs _ _).
      destruct (sizeAndRedraw_form el tp pageIndex s1) as (m & -> & Hdom & _).
      subst s1. constructor; simpl_state.
      * rewrite Hdom, !dom_insert_L. set_solver.
      * intros q c. rewrite lookup_insert, Hdom, dom_insert_L.
        case_decide as Hq; [by intros [= <-]|].
        rewrite lookup_insert_ne by done. intros Hc Hin.
        apply (Hstyle q c); [done|set_solver].
    + constructor; simpl_state.
      * rewrite dom_insert_L. set_solver.
      * intros q c. rewrite lookup_insert.
        case_decide as Hq; [|by apply Hstyle].
        subst q. intros _ Hin. apply Hsub in Hin.
        apply not_elem_of_dom in Hcv. done.
Qed.

Lemma removePage_follows pageIndex s :
  surfacesFollowTool s -> surfacesFollowTool (removePage pageIndex s).
Proof.
  intros [Hsub Hstyle].
  destruct (removePage_form pageIndex s) as [[-> _]|(_ & _ & ->)];
    [by constructor|].
  constructor; simpl_state.
  - rewrite !dom_delete_L. set_solver.
  - intros q c. rewrite lookup_delete, dom_delete_L.
    case_decide; [done|]. intros Hc Hin.
    apply (Hstyle q c); [done|set_solver].
Qed.

Lemma render_follows getContextOk s :
  surfacesFollowTool s -> surfacesFollowTool (render getContextOk s).
Proof.
  intros Hs. unfold render. destruct (depsChanged s); [|done].
  assert (H : surfacesFollowTool (canvasLifecycleEffect getContextOk s)).
  { unfold canvasLifecycleEffect.
    apply forEachIndex_preserves; [intros; by apply removePage_follows|].
    apply forEachIndex_preserves;
      [intros; by apply lifecyclePage_follows|done]. }
  destruct H as [Hsub Hstyle]. by constructor.
Qed.

(** The restyling loop of a tool switch: every canvas it visited has the
    style of the new tool. *)
Lemma toolChange_loop_style tool indices : forall s q c,
  canvasRefs (forEachIndex indices (toolChangePage tool) s) !! q = Some c ->
  (cv_pointerEvents c = toolPointerEvents tool /\
   cv_cursor c = toolCursor tool) \/
  ((q ∉ indices) /\ canvasRefs s !! q = Some c).
Proof.
  unfold forEachIndex.
  induction indices as [|i rest IH]; intros s q c; simpl.
  - intros Hc. right. split; [apply not_elem_of_nil|done].
  - intros Hc. destruct (IH _ _ _ Hc) as [Hdone|[Hq Hc1]]; [by left|].
    unfold toolChangePage in Hc1.
    destruct (canvasRefs s !! i) as [canvas|] eqn:Hi.
    + assert (Hc2 : <[i := setCanvasStyle (toolPointerEvents tool)
                               (toolCursor tool) canvas]> (canvasRefs s) !! q
                    = Some c).
      { simpl_state. by destruct (pageContainerRefs s !! i). }
      rewrite lookup_insert in Hc2. case_decide as Hqi.
      * injection Hc2 as <-. by left.
      * right. split; [|done]. rewrite not_elem_of_cons. done.
    + right. split; [|done]. rewrite not_elem_of_cons. split; [|done].
      intros ->. congruence.
Qed.

Lemma handleToolChange_follows tool s :
  surfacesFollowTool s -> surfacesFollowTool (handleToolChange tool s).
Proof.
  intros [Hsub Hstyle].
  destruct (handleToolChange_form tool s) as (r & c & E & Hr & Hc).
  assert (Hall : forall q cv, c !! q = Some cv ->
            cv_pointerEvents cv = toolPointerEvents tool /\
            cv_cursor cv = toolCursor tool).
  { intros q cv Hq.
    assert (Hq' : canvasRefs (handleToolChange tool s) !! q = Some cv)
      by by rewrite E.
    unfold handleToolChange in Hq'.
    assert (Hloop : canvasRefs
              (forEachIndex (elements (dom (canvasRefs (with_activeTool tool s))))
                 (toolChangePage tool) (with_activeTool tool s)) !! q = Some cv).
    { by destruct (isDrawingTool tool). }
    destruct (toolChange_loop_style _ _ _ _ _ Hloop) as [?|[Hnot Hold]];
      [done|].
    exfalso. apply Hnot. apply elem_of_elements. by eapply elem_of_dom_2. }
  rewrite E. constructor; simpl_state.
  - by rewrite Hc.
  - intros q cv Hq _. by apply (Hall q).
Qed.

Lemma step_follows s e :
  surfacesFollowTool s -> surfacesFollowTool (step s e).
Proof.
  intros Hs. destruct e as [refs|tool ok|ev| |ok|p el]; simpl.
  - destruct Hs. by constructor.
  - apply (handleToolChange_follows tool) in Hs.
    case_bool_decide; [done|]. by apply render_follows.
  - destruct Hs as [Hsub Hstyle].
    destruct (handleToolInteraction_kept ev s)
      as (Ht & _ & _ & _ & _ & Hcv & Hctx).
    constructor; rewrite ?Hcv, ?Hctx, ?Ht; done.
  - destruct Hs as [Hsub Hstyle].
    destruct (handleMouseLeave_form s) as (m & -> & Hm & _).
    constructor; simpl_state; rewrite Hm; done.
  - by apply render_follows.
  - destruct Hs as [Hsub Hstyle]. unfold rendererLayout.
    destruct (pageContainerRefs s !! p); by constructor.
Qed.

Lemma run_follows events : forall s,
  surfacesFollowTool s -> surfacesFollowTool (run events s).
Proof.
  induction events as [|e rest IH]; intros s Hs; simpl; [done|].
  apply IH. by apply step_follows.
Qed.

Lemma initialState_follows : surfacesFollowTool initialState.
Proof.
  constructor; unfold initialState; simpl_state; [done|].
  intros p c. by rewrite lookup_empty.
Qed.

(** In every state the editor can reach, a live surface accepts pointer
    input exactly when the current tool is a drawing tool. *)
Lemma live_surface_follows_tool events pageIndex canvas :
  let s := run events initialState in
  pageIndex ∈ liveSurfaces s ->
  canvasRefs s !! pageIndex = Some canvas ->
  (cv_pointerEvents canvas = pe_auto <-> isDrawingTool (activeTool s) = true).
Proof.
  intros s Hlive Hcv.
  destruct (run_follows events _ initialState_follows) as [_ Hstyle].
  destruct (Hstyle pageIndex canvas Hcv) as [Hpe _].
  { unfold liveSurfaces in Hlive. set_solver. }
  rewrite Hpe. unfold toolPointerEvents. fold s.
  by destruct (isDrawingTool (activeTool s)).
Qed.

(** C5, at the failing input. The registry reports page 0, whose text layer
    accepts pointer input, and the user picks the blur tool. The tool switch
    finds no canvas to restyle; the render then creates the canvas of page 0
    accepting pointer input, and the text layer still accepts it too. *)
Theorem text_layer_left_open_by_lifecycle :
  let s := run [RegistryEmit {[0%nat := samplePage]};
                ToolChange blur alwaysGranted] initialState in
  activeTool s = blur /\
  0%nat ∈ liveSurfaces s /\
  cv_pointerEvents <$> canvasRefs s !! 0%nat = Some pe_auto /\
  textLayer <$> pageContainerRefs s !! 0%nat = Some (Some pe_auto) /\
  ~ pointerRoutingExclusive s.
Proof.
  assert (Hlive : 0%nat ∈ liveSurfaces
            (run [RegistryEmit {[0%nat := samplePage]};
                  ToolChange blur alwaysGranted] initialState)).
  { apply elem_of_elements. vm_compute. left. }
  split_and!; [by vm_compute|exact Hlive|by vm_compute..|].
  intros Hex.
  destruct (Hex 0%nat (layoutCanvas samplePage in_page_layer blur) Hlive)
    as [_ Htext]; [by vm_compute|].
  destruct (Htext samplePage pe_auto) as [Hboth _]; [by vm_compute..|].
  by apply Hboth.
Qed.

(** The next tool switch does restyle the text layer: the sibling path. *)
Lemma text_layer_closed_by_next_switch :
  let s := run [RegistryEmit {[0%nat := samplePage]};
                ToolChange blur alwaysGranted;
                ToolChange erase alwaysGranted] initialState in
  cv_pointerEvents <$> canvasRefs s !! 0%nat = Some pe_auto /\
  textLayer <$> pageContainerRefs s !! 0%nat = Some (Some pe_none).
Proof. split; by vm_compute. Qed.

(** ** Coordinates of recorded annotations *)

(** What one event captures lies in the box of the canvas it is clamped to. *)
Lemma bounded_range (v : Z) (bound : N) :
  0 <= bounded v bound <= Z.of_N bound.
Proof. unfold bounded. lia. Qed.

(** A blur annotation whose two corners were captured on one canvas lies in
    that canvas's box. *)
Lemma blur_on_one_canvas_within (press release : MouseEvent) (canvas : Canvas)
    (i pageIndex : nat) :
  annotationWithin (cv_width canvas) (cv_height canvas)
    (mkAnnotation i pageIndex
       (BlurData (pt_x (capturedPoint press canvas))
                 (pt_y (capturedPoint press canvas))
                 (pt_x (capturedPoint release canvas))
                 (pt_y (capturedPoint release canvas)))).
Proof.
  unfold annotationWithin, pointWithin, capturedPoint. simpl.
  split_and!; apply bounded_range.
Qed.

(** C10, at the failing input. Pages 0 and 1 are 1000 and 500 pixels wide.
    A blur drag is pressed on page 0 at x = 900 and released on page 1 at
    x = 100: the annotation is recorded on page 1, whose surface is 500
    wide, with the start corner x = 900 clamped to page 0's surface. *)
Theorem cross_page_drag_escapes_surface :
  let s := run [RegistryEmit {[0%nat := widePage; 1%nat := narrowPage]};
                ToolChange blur alwaysGranted;
                Mouse (mouseAt mousedown 0 900 50);
                Mouse (mouseAt mouseup 1 100 50)] initialState in
  let recorded := mkAnnotation 0 1 (BlurData 900 50 100 50) in
  annotationsRef s !! 1%nat = Some [recorded] /\
  (cv_width <$> canvasRefs s !! 1%nat = Some 500%N /\
   cv_height <$> canvasRefs s !! 1%nat = Some 100%N) /\
  ~ annotationWithin 500 100 recorded.
Proof.
  split_and!; [by vm_compute..|].
  unfold annotationWithin, pointWithin. simpl. lia.
Qed.

(** ** The erase gesture *)

(** The store does not depend on the contexts or on the current point. *)
Lemma eraseMove_store pageIndex start x y contexts current s :
  annotationsRef
    (eraseMove pageIndex start x y
       (with_contextRefs contexts (with_currentCoords current s)))
  = annotationsRef (eraseMove pageIndex start x y s) /\
  uuidCounter
    (eraseMove pageIndex start x y
       (with_contextRefs contexts (with_currentCoords current s)))
  = uuidCounter (eraseMove pageIndex start x y s).
Proof.
  unfold eraseMove, appendAnnotation. simpl_state.
  destruct (list.last (default [] (annotationsRef s !! pageIndex)))
    as [[i p [| |]]|]; done.
Qed.

(** An erase move on a live page during a drag. *)
Lemma erase_move_effect event pageIndex canvas start s :
  activeTool s = erase ->
  ev_type event = mousemove -> ev_page event = Some pageIndex ->
  canvasRefs s !! pageIndex = Some canvas ->
  is_Some (contextRefs s !! pageIndex) ->
  isDrawingRef s = true -> startCoordsRef s = Some start ->
  let s' := handleToolInteraction event s in
  let moved :=
    eraseMove pageIndex start (pt_x (capturedPoint event canvas))
              (pt_y (capturedPoint event canvas)) s in
  annotationsRef s' = annotationsRef moved /\
  uuidCounter s' = uuidCounter moved /\
  isDrawingRef s' = true /\ startCoordsRef s' = Some start.
Proof.
  intros Htool Hty Hpg Hcv [context Hctx] Hdraw Hstart.
  unfold capturedPoint. cbn [pt_x pt_y].
  set (x := bounded _ (cv_width canvas)).
  set (y := bounded _ (cv_height canvas)).
  unfold handleToolInteraction.
  rewrite bool_decide_eq_false_2 by (by rewrite Htool).
  rewrite Hpg, Hcv, Hctx, Hty, Hdraw. fold x y.
  destruct (redrawPageAnnotations_frame pageIndex
              (with_currentCoords (Some (mkPoint x y)) s)) as (m & -> & _).
  simpl_state. rewrite Htool, Hstart.
  rewrite redrawPageAnnotations_annotations.
  destruct (redrawPageAnnotations_gesture pageIndex
              (eraseMove pageIndex start x y
                 (with_contextRefs m
                    (with_currentCoords (Some (mkPoint x y)) s))))
    as (-> & -> & _ & ->).
  destruct (eraseMove_store pageIndex start x y m (Some (mkPoint x y)) s)
    as [-> ->].
  split_and!; [done|done| |].
  - unfold eraseMove, appendAnnotation. simpl_state.
    destruct (list.last _) as [[i p [| |]]|]; by simpl_state.
  - unfold eraseMove, appendAnnotation. simpl_state.
    destruct (list.last _) as [[i p [| |]]|]; by simpl_state.
Qed.

(** An erase release records nothing. *)
Lemma erase_release_keeps_store event s :
  activeTool s = erase -> ev_type event = mouseup ->
  annotationsRef (handleToolInteraction event s) = annotationsRef s.
Proof.
  intros Htool Hty. unfold handleToolInteraction.
  case_bool_decide; [done|].
  destruct (ev_page event) as [p|]; [|done].
  destruct (canvasRefs s !! p) as [canvas|]; [|done].
  destruct (contextRefs s !! p) as [context|]; [|done].
  rewrite Hty, redrawPageAnnotations_annotations. simpl_state.
  rewrite Htool. by destruct (startCoordsRef s).
Qed.

(** On a live page at least 20 by 20 whose last annotation is not an erase
    stroke, the erase gesture press (10,10), move (20,10), move (20,20),
    release records exactly one new stroke through the three points. *)
Lemma erase_gesture_records_one_stroke (s : State) (pageIndex : nat)
    (canvas : Canvas) :
  activeTool s = erase ->
  canvasRefs s !! pageIndex = Some canvas ->
  is_Some (contextRefs s !! pageIndex) ->
  20 <= Z.of_N (cv_width canvas) -> 20 <= Z.of_N (cv_height canvas) ->
  (forall a, list.last (default [] (annotationsRef s !! pageIndex)) = Some a ->
             ann_type a <> erase) ->
  annotationsRef (run (eraseGesture pageIndex) s)
  = <[pageIndex :=
        default [] (annotationsRef s !! pageIndex)
        ++ [mkAnnotation (uuidCounter s) pageIndex
              (EraseData [mkPoint 10 10; mkPoint 20 10; mkPoint 20 20])]]>
      (annotationsRef s).
Proof.
  intros Htool Hcv Hctx Hw Hh Hlast. unfold eraseGesture, run. simpl.
  assert (Hcap : forall ty x y, 0 <= x <= 20 -> 0 <= y <= 20 ->
            capturedPoint (mouseAt ty pageIndex x y) canvas = mkPoint x y).
  { intros ty x y Hx Hy. unfold capturedPoint, mouseAt, bounded. simpl.
    f_equal; lia. }
  rewrite (press_starts_gesture _ pageIndex canvas s)
    by (done || by rewrite Htool).
  rewrite Hcap by lia.
  set (s1 := with_gesture true (Some (mkPoint 10 10)) (Some (mkPoint 10 10)) s).
  destruct (handleToolInteraction_kept (mouseAt mousemove pageIndex 20 10) s1)
    as (Ht2 & _ & _ & _ & _ & Hcv2 & Hd2).
  destruct (erase_move_effect (mouseAt mousemove pageIndex 20 10) pageIndex
              canvas (mkPoint 10 10) s1) as (Ha2 & Hu2 & Hdr2 & Hst2);
    try done.
  set (s2 := handleToolInteraction (mouseAt mousemove pageIndex 20 10) s1) in *.
  rewrite Hcap in Ha2, Hu2 by lia. simpl in Ha2, Hu2.
  destruct (erase_move_effect (mouseAt mousemove pageIndex 20 20) pageIndex
              canvas (mkPoint 10 10) s2) as (Ha3 & Hu3 & Hdr3 & Hst3);
    try done.
  { by rewrite Ht2. } { by rewrite Hcv2. }
  { apply elem_of_dom. rewrite Hd2. by apply elem_of_dom. }
  destruct (handleToolInteraction_kept (mouseAt mousemove pageIndex 20 20) s2)
    as (Ht3 & _).
  set (s3 := handleToolInteraction (mouseAt mousemove pageIndex 20 20) s2) in *.
  rewrite Hcap in Ha3 by lia. simpl in Ha3.
  rewrite erase_release_keeps_store; [|by rewrite Ht3, Ht2|done].
  rewrite Ha3.
  (* the first move appends a stroke, the second extends it *)
  assert (E2 : annotationsRef s2
               = <[pageIndex :=
                     default [] (annotationsRef s !! pageIndex)
                     ++ [mkAnnotation (uuidCounter s) pageIndex
                           (EraseData [mkPoint 10 10; mkPoint 20 10])]]>
                   (annotationsRef s)).
  { rewrite Ha2. unfold eraseMove. subst s1. simpl_state.
    destruct (list.last (default [] (annotationsRef s !! pageIndex)))
      as [[i p [| |]]|] eqn:El; try done.
    exfalso. by apply (Hlast _ eq_refl). }
  unfold eraseMove. rewrite E2, lookup_insert_eq. simpl.
  rewrite last_snoc, removelast_last, insert_insert_eq. done.
Qed.

(** C2, at the failing input. Page 0 already holds the erase stroke of an
    earlier gesture. The gesture press (10,10), move (20,10), move (20,20),
    release adds no record: its two move points are pushed onto the earlier
    stroke, and its press point is recorded nowhere. *)
Theorem erase_gesture_merges_into_last_stroke :
  let before := run [RegistryEmit {[0%nat := samplePage]};
                     ToolChange erase alwaysGranted;
                     Mouse (mouseAt mousedown 0 100 100);
                     Mouse (mouseAt mousemove 0 120 100);
                     Mouse (mouseAt mouseup 0 120 100)] initialState in
  let after := run (eraseGesture 0) before in
  eraseStrokes 0 before = [[mkPoint 100 100; mkPoint 120 100]] /\
  eraseStrokes 0 after
  = [[mkPoint 100 100; mkPoint 120 100; mkPoint 20 10; mkPoint 20 20]] /\
  length (default [] (annotationsRef after !! 0%nat))
  = length (default [] (annotationsRef before !! 0%nat)).
Proof. split_and!; by vm_compute. Qed.

(** On a page without annotations the same gesture records the one stroke
    the specification describes. *)
Lemma erase_gesture_on_empty_page :
  let before := run [RegistryEmit {[0%nat := samplePage]};
                     ToolChange erase alwaysGranted] initialState in
  let after := run (eraseGesture 0) before in
  annotationsRef before !! 0%nat = None /\
  annotationsRef after !! 0%nat
  = Some [mkAnnotation 0 0
            (EraseData [mkPoint 10 10; mkPoint 20 10; mkPoint 20 20])] /\
  annotationsRef (run [Mouse (mouseAt mousedown 0 10 10)] before) !! 0%nat
  = None.
Proof. split_and!; by vm_compute. Qed.

(** ** The blur gesture *)

(** With the blur tool a move neither touches the store nor the start
    point. *)
Lemma blur_move_keeps_store event s :
  activeTool s = blur -> ev_type event = mousemove ->
  annotationsRef (handleToolInteraction event s) = annotationsRef s /\
  startCoordsRef (handleToolInteraction event s) = startCoordsRef s /\
  uuidCounter (handleToolInteraction event s) = uuidCounter s.
Proof.
  intros Htool Hty. unfold handleToolInteraction.
  case_bool_decide; [done|].
  destruct (ev_page event) as [p|]; [|done].
  destruct (canvasRefs s !! p) as [canvas|]; [|done].
  destruct (contextRefs s !! p) as [context|]; [|done].
  rewrite Hty. destruct (isDrawingRef s); [|done].
  set (s1 := with_currentCoords _ s).
  destruct (redrawPageAnnotations_frame p s1) as (m & -> & _).
  subst s1. simpl_state. rewrite Htool.
  destruct (startCoordsRef s) as [start|] eqn:Hstart; simpl_state; [|done].
  unfold previewBlur. simpl_state. by destruct (m !! p).
Qed.

Lemma blur_moves_keep_store moves : forall s,
  activeTool s = blur ->
  Forall (fun m => ev_type m = mousemove) moves ->
  surfacesKept s (run (Mouse <$> moves) s) /\
  annotationsRef (run (Mouse <$> moves) s) = annotationsRef s /\
  startCoordsRef (run (Mouse <$> moves) s) = startCoordsRef s /\
  uuidCounter (run (Mouse <$> moves) s) = uuidCounter s.
Proof.
  induction moves as [|m rest IH]; intros s Htool Hmoves.
  - split; [apply surfacesKept_refl|done].
  - inversion Hmoves as [|? ? Hm Hrest]; subst.
    change (run (Mouse <$> m :: rest) s)
      with (run (Mouse <$> rest) (handleToolInteraction m s)).
    pose proof (handleToolInteraction_kept m s) as Hk.
    destruct (blur_move_keeps_store m s Htool Hm) as (Ha & Hs & Hu).
    destruct (IH (handleToolInteraction m s)) as (Hk' & Ha' & Hs' & Hu');
      [destruct Hk as [-> _]; done | done |].
    split; [by eapply surfacesKept_trans|].
    split_and!; congruence.
Qed.

(** A blur release on a live page commits by the threshold. *)
Lemma blur_release_commits event pageIndex canvas start s :
  activeTool s = blur ->
  ev_type event = mouseup -> ev_page event = Some pageIndex ->
  canvasRefs s !! pageIndex = Some canvas ->
  is_Some (contextRefs s !! pageIndex) ->
  startCoordsRef s = Some start ->
  annotationsRef (handleToolInteraction event s)
  = blurCommit pageIndex start (capturedPoint event canvas) s.
Proof.
  intros Htool Hty Hpg Hcv [context Hctx] Hstart.
  unfold handleToolInteraction.
  rewrite bool_decide_eq_false_2 by (by rewrite Htool).
  rewrite Hpg, Hcv, Hctx, Hty, Hstart, Htool.
  rewrite redrawPageAnnotations_annotations. simpl_state.
  unfold releaseAnnotation, blurCommit, capturedPoint. simpl.
  set (dx := Z.abs _). set (dy := Z.abs _).
  destruct (bool_decide (dx > 5)) eqn:Hx, (bool_decide (dy > 5)) eqn:Hy;
    simpl.
  1-3: rewrite bool_decide_eq_true_2; [done|].
  1-3: first [apply bool_decide_eq_true in Hx; by left
             |apply bool_decide_eq_true in Hy; by right].
  apply bool_decide_eq_false in Hx, Hy.
  rewrite bool_decide_eq_false_2; [done|tauto].
Qed.

(** C3. A blur gesture (press on a live page, any moves, release on a live
    page) commits one blur-region annotation, from the captured start point
    to the captured release point, exactly when those differ by more than 5
    along x or along y; otherwise the store is as before the gesture. The
    annotation goes to the page under the release. *)
Theorem blur_commit_threshold (s : State) (pressPage releasePage : nat)
    (pressCanvas releaseCanvas : Canvas) (press release : MouseEvent)
    (moves : list MouseEvent) :
  activeTool s = blur ->
  canvasRefs s !! pressPage = Some pressCanvas ->
  is_Some (contextRefs s !! pressPage) ->
  canvasRefs s !! releasePage = Some releaseCanvas ->
  is_Some (contextRefs s !! releasePage) ->
  ev_type press = mousedown -> ev_page press = Some pressPage ->
  Forall (fun m => ev_type m = mousemove) moves ->
  ev_type release = mouseup -> ev_page release = Some releasePage ->
  annotationsRef
    (run (Mouse press :: (Mouse <$> moves) ++ [Mouse release]) s)
  = blurCommit releasePage (capturedPoint press pressCanvas)
               (capturedPoint release releaseCanvas) s.
Proof.
  intros Htool Hcv Hctx Hcv' Hctx' Hp1 Hp2 Hmoves Hr1 Hr2.
  change (run (Mouse press :: (Mouse <$> moves) ++ [Mouse release]) s)
    with (run ((Mouse <$> moves) ++ [Mouse release])
              (handleToolInteraction press s)).
  rewrite run_app.
  rewrite (press_starts_gesture press pressPage pressCanvas s)
    by (done || by rewrite Htool).
  set (s1 := with_gesture _ _ _ s).
  destruct (blur_moves_keep_store moves s1 Htool Hmoves)
    as ((Ht & _ & _ & _ & _ & Hcvs & Hdom) & Ha & Hs & Hu).
  set (s2 := run (Mouse <$> moves) s1) in *.
  simpl.
  rewrite (blur_release_commits release releasePage releaseCanvas
             (capturedPoint press pressCanvas) s2); try done.
  - unfold blurCommit. by rewrite Ha, Hu.
  - by rewrite Ht.
  - by rewrite Hcvs.
  - apply elem_of_dom. rewrite Hdom. by apply elem_of_dom.
Qed.

Lemma blur_commit_threshold_witness :
  let s := run [RegistryEmit {[0%nat := samplePage]};
                ToolChange blur alwaysGranted] initialState in
  annotationsRef
    (run (Mouse (mouseAt mousedown 0 10 10)
          :: (Mouse <$> [mouseAt mousemove 0 13 10])
          ++ [Mouse (mouseAt mouseup 0 16 10)]) s) !! 0%nat
  = Some [mkAnnotation 0 0 (BlurData 10 10 16 10)] /\
  annotationsRef
    (run (Mouse (mouseAt mousedown 0 10 10)
          :: (Mouse <$> []) ++ [Mouse (mouseAt mouseup 0 15 5)]) s) !! 0%nat
  = None.
Proof.
  intros s. split.
  - rewrite (blur_commit_threshold s 0 0
               (layoutCanvas samplePage in_page_layer blur)
               (layoutCanvas samplePage in_page_layer blur)
               (mouseAt mousedown 0 10 10) (mouseAt mouseup 0 16 10)
               [mouseAt mousemove 0 13 10]);
      [ by vm_compute | by vm_compute | by vm_compute
      | eexists; by vm_compute | by vm_compute | eexists; by vm_compute
      | done | done | repeat constructor | done | done ].
  - rewrite (blur_commit_threshold s 0 0
               (layoutCanvas samplePage in_page_layer blur)
               (layoutCanvas samplePage in_page_layer blur)
               (mouseAt mousedown 0 10 10) (mouseAt mouseup 0 15 5) []);
      [ by vm_compute | by vm_compute | by vm_compute
      | eexists; by vm_compute | by vm_compute | eexists; by vm_compute
      | done | done | constructor | done | done ].
Defined.

(** ** The search for the renderer's root *)

(** From any attempt on: the delays are 200 ms each and at most as many as
    there are attempts left; the run gives up with all of them spent when
    the container never shows; it attaches the observer at the first
    attempt that finds the container, with one delay per failed attempt. *)
Lemma poll_from viewerFound attempt maxAttempts :
  let r := pollForViewerAndAttachObserver viewerFound attempt maxAttempts in
  Forall (eq 200%nat) (poll_delays r) /\
  (length (poll_delays r) <= maxAttempts - attempt)%nat /\
  ((forall k, (attempt <= k)%nat -> (k <= maxAttempts)%nat ->
              viewerFound k = false) ->
   (attempt <= maxAttempts)%nat ->
   r = mkPollRun GaveUp (replicate (maxAttempts - attempt) 200%nat)) /\
  (forall k, (attempt <= k)%nat -> (k <= maxAttempts)%nat ->
             viewerFound k = true ->
             (forall j, (attempt <= j)%nat -> (j < k)%nat ->
                        viewerFound j = false) ->
             r = mkPollRun (ObserverAttached k)
                           (replicate (k - attempt) 200%nat)).
Proof.
  funelim (pollForViewerAndAttachObserver viewerFound attempt maxAttempts);
    simpl.
  - (* found at this attempt *)
    split_and!; [constructor|lia| |].
    + intros Hnever Hle. specialize (Hnever attempt). rewrite Heq in Hnever.
      discriminate Hnever; lia.
    + intros k Hk1 Hk2 Hfound Hbefore.
      destruct (decide (k = attempt)) as [->|Hne].
      * by rewrite Nat.sub_diag.
      * specialize (Hbefore attempt). rewrite Heq in Hbefore.
        discriminate Hbefore; lia.
  - (* not found, attempts left *)
    destruct H as (Hall & Hlen & Hnone & Hsome).
    split_and!.
    + by constructor.
    + simpl. lia.
    + intros Hnever Hle. rewrite Hnone; [|intros; apply Hnever; lia|lia].
      simpl. replace (maxAttempts - attempt)%nat
        with (S (maxAttempts - (attempt + 1)))%nat by lia. done.
    + intros k Hk1 Hk2 Hfound Hbefore.
      assert (k <> attempt) by (intros ->; congruence).
      rewrite (Hsome k); [|lia|lia|done|intros; apply Hbefore; lia].
      simpl. replace (k - attempt)%nat with (S (k - (attempt + 1)))%nat by lia.
      done.
  - (* not found, no attempt left *)
    split_and!; [constructor|lia| |].
    + intros _ Hle. by replace (maxAttempts - attempt)%nat with 0%nat by lia.
    + intros k Hk1 Hk2 Hfound Hbefore.
      assert (k = attempt) as -> by lia. congruence.
Qed.

(** C9. The search for the root element, started by the viewer's effect:
    it schedules at most 50 retries, each 200 ms after the failed attempt;
    when no attempt from 0 to 50 finds the root it gives up for good after
    exactly 50 retries, logging the failure and throwing nothing; when the
    root is first found at attempt [k] the observer is attached then, after
    exactly [k] retries, and no further retry is scheduled. *)
Theorem polling_is_bounded (viewerFound : nat -> bool) :
  let r := startPolling viewerFound in
  (length (poll_delays r) <= 50)%nat /\
  Forall (eq 200%nat) (poll_delays r) /\
  ((forall k, (k <= 50)%nat -> viewerFound k = false) ->
   r = mkPollRun GaveUp (replicate 50 200%nat)) /\
  (forall k, (k <= 50)%nat -> viewerFound k = true ->
             (forall j, (j < k)%nat -> viewerFound j = false) ->
             r = mkPollRun (ObserverAttached k) (replicate k 200%nat)).
Proof.
  intros r. subst r. unfold startPolling.
  destruct (poll_from viewerFound 0 50) as (Hall & Hlen & Hnone & Hsome).
  split_and!.
  - lia.
  - done.
  - intros Hnever. apply Hnone; [intros; apply Hnever; lia|lia].
  - intros k Hk Hfound Hbefore.
    rewrite (Hsome k); [|lia|lia|done|intros; apply Hbefore; lia].
    by rewrite Nat.sub_0_r.
Qed.

Lemma polling_is_bounded_witness :
  startPolling (fun k => bool_decide (3 <= k)%nat)
  = mkPollRun (ObserverAttached 3) (replicate 3 200%nat) /\
  startPolling (fun _ => false) = mkPollRun GaveUp (replicate 50 200%nat).
Proof.
  split.
  - destruct (polling_is_bounded (fun k => bool_decide (3 <= k)%nat))
      as (_ & _ & _ & Hsome).
    apply (Hsome 3%nat); [lia|reflexivity|].
    intros j Hj. apply bool_decide_eq_false_2. lia.
  - destruct (polling_is_bounded (fun _ => false)) as (_ & _ & Hnone & _).
    apply Hnone. reflexivity.
Defined.

(** ** Export *)

Section ExportProperties.

Variable fetchArrayBuffer : string -> option Bytes.
Variable loadDocument : Bytes -> option PdfDocument.
Variable canvasToPng : Canvas -> option (list DrawOp) -> option Bytes.
Variable decodePng : Bytes -> option Bytes.
Variable saveDocument : PdfDocument -> option Bytes.

#[local] Set Warnings "-notation-for-abbreviation".
Local Notation flattenPage' := (flattenPage canvasToPng decodePng).
Local Notation flattenPages' := (flattenPages canvasToPng decodePng).
Local Notation flattenedDocument' := (flattenedDocument canvasToPng decodePng).
Local Notation pageStepFails' := (pageStepFails canvasToPng decodePng).
Local Notation handleDownload' :=
  (handleDownload fetchArrayBuffer loadDocument canvasToPng decodePng
                  saveDocument).

(** The loop body delivers no file; it fails exactly when its page's step
    fails; it keeps the number of pages and every page but its own; and it
    returns the document as it got it when the page has no annotations. *)
Lemma flattenPage_cases s i pdfDoc :
  (i < length (doc_pages pdfDoc))%nat ->
  exists result,
    (forall delivered,
       flattenPage' s i pdfDoc delivered = (result, delivered)) /\
    (result = None <-> pageStepFails' s i) /\
    (forall pdfDoc', result = Some pdfDoc' ->
       length (doc_pages pdfDoc') = length (doc_pages pdfDoc) /\
       (forall j, j <> i -> doc_pages pdfDoc' !! j = doc_pages pdfDoc !! j) /\
       (default [] (annotationsRef s !! i) = [] -> pdfDoc' = pdfDoc)).
Proof.
  intros Hi. unfold flattenPage, pageStepFails.
  destruct (lookup_lt_is_Some_2 _ _ Hi) as [page ->].
  destruct (canvasRefs s !! i) as [canvas|] eqn:Hcv.
  2:{ eexists. split; [reflexivity|]. split.
      - split; [done|]. by intros (? & ? & ? & ? & _).
      - by intros ? [= <-]. }
  destruct (annotationsRef s !! i) as [[|first others]|] eqn:Han.
  1,3: eexists; (split; [reflexivity|]); split;
       [ split; [done|]; by intros (? & ? & ? & _ & ? & _)
       | by intros ? [= <-] ].
  unfold async_bind, await, async_ret.
  destruct (canvasToPng canvas (pixels i s)) as [png|] eqn:Hpng.
  2:{ eexists. split; [reflexivity|]. split.
      - split; [|done]. intros _. exists canvas, first, others.
        by rewrite Hpng.
      - by intros ? [=]. }
  destruct (decodePng png) as [image|] eqn:Himg.
  2:{ eexists. split; [reflexivity|]. split.
      - split; [|done]. intros _. exists canvas, first, others.
        by rewrite Hpng.
      - by intros ? [=]. }
  eexists. split; [reflexivity|]. split.
  - split; [done|]. intros (c & f & o & [= <-] & _ & Hfail).
    rewrite Hpng in Hfail. simpl in Hfail. congruence.
  - intros ? [= <-]. simpl. split_and!.
    + by rewrite length_insert.
    + intros j Hj. by rewrite list_lookup_insert_ne.
    + done.
Qed.

(** The page loop over indices within the document. *)
Lemma flattenPages_cases s indices : forall pdfDoc,
  Forall (fun i => (i < length (doc_pages pdfDoc))%nat) indices ->
  exists result,
    (forall delivered,
       flattenPages' s indices pdfDoc delivered = (result, delivered)) /\
    (result = None <-> exists i, i ∈ indices /\ pageStepFails' s i) /\
    (forall pdfDoc', result = Some pdfDoc' ->
       length (doc_pages pdfDoc') = length (doc_pages pdfDoc) /\
       (forall j, default [] (annotationsRef s !! j) = [] ->
                  doc_pages pdfDoc' !! j = doc_pages pdfDoc !! j) /\
       ((forall j, default [] (annotationsRef s !! j) = []) ->
        pdfDoc' = pdfDoc)).
Proof.
  induction indices as [|i rest IH]; intros pdfDoc Hin.
  - exists (Some pdfDoc). split; [done|]. split.
    + split; [done|]. intros (i & Hi & _). by apply elem_of_nil in Hi.
    + by intros ? [= <-].
  - inversion Hin as [|? ? Hi Hrest]; subst.
    destruct (flattenPage_cases s i pdfDoc Hi) as (r1 & E1 & Hfail1 & Hok1).
    simpl. unfold async_bind.
    destruct r1 as [pdfDoc1|].
    + destruct (Hok1 pdfDoc1 eq_refl) as (Hlen1 & Hother1 & Hsame1).
      destruct (IH pdfDoc1) as (r2 & E2 & Hfail2 & Hok2).
      { by rewrite Hlen1. }
      exists r2. split; [intros delivered; by rewrite E1, E2|]. split.
      * rewrite Hfail2. split.
        -- intros (j & Hj & Hf). exists j. split; [by right|done].
        -- intros (j & Hj & Hf). apply elem_of_cons in Hj as [->|Hj].
           ++ apply Hfail1 in Hf. discriminate.
           ++ by exists j.
      * intros pdfDoc' Hr.
        destruct (Hok2 pdfDoc' Hr) as (Hlen2 & Hkeep2 & Hsame2).
        split_and!.
        -- congruence.
        -- intros j Hj. rewrite (Hkeep2 j Hj).
           destruct (decide (j = i)) as [->|Hne];
             [by rewrite (Hsame1 Hj) | by apply Hother1].
        -- intros Hnone. rewrite (Hsame2 Hnone). by apply Hsame1.
    + exists None. split; [intros delivered; by rewrite E1|]. split.
      * split; [|done]. intros _. exists i. split; [by left|].
        by apply Hfail1.
      * by intros ? [=].
Qed.

(** The whole page loop of an export. *)
Lemma flattenedDocument_cases s pdfDoc :
  (forall delivered,
     flattenPages' s (seq 0 (length (doc_pages pdfDoc))) pdfDoc delivered
     = (flattenedDocument' s pdfDoc, delivered)) /\
  (flattenedDocument' s pdfDoc = None <->
   exists i, (i < length (doc_pages pdfDoc))%nat /\ pageStepFails' s i) /\
  (forall pdfDoc', flattenedDocument' s pdfDoc = Some pdfDoc' ->
     (forall j, default [] (annotationsRef s !! j) = [] ->
                doc_pages pdfDoc' !! j = doc_pages pdfDoc !! j) /\
     ((forall j, default [] (annotationsRef s !! j) = []) ->
      pdfDoc' = pdfDoc)).
Proof.
  assert (Hin : Forall (fun i => (i < length (doc_pages pdfDoc))%nat)
                       (seq 0 (length (doc_pages pdfDoc)))).
  { apply Forall_seq. intros. lia. }
  destruct (flattenPages_cases s _ pdfDoc Hin) as (r & E & Hf & Hok).
  assert (Hr : flattenedDocument' s pdfDoc = r).
  { unfold flattenedDocument. by rewrite E. }
  rewrite Hr. split_and!.
  - done.
  - rewrite Hf. split; intros (i & Hi & Hfail); exists i; split; try done.
    + apply elem_of_seq in Hi. lia.
    + apply elem_of_seq. lia.
  - intros pdfDoc' Hsome. destruct (Hok pdfDoc' Hsome) as (_ & H1 & H2). done.
Qed.

(** What [handleDownload] delivers, step by step. *)
Lemma handleDownload_outcome pdfUrl s :
  handleDownload' pdfUrl s
  = if bool_decide (pdfUrl = "") then []
    else match fetchArrayBuffer pdfUrl ≫= loadDocument with
         | Some pdfDoc =>
             match flattenedDocument' s pdfDoc ≫= saveDocument with
             | Some bytes => [editedDocument bytes]
             | None => []
             end
         | None => []
         end.
Proof.
  unfold handleDownload.
  case_bool_decide; [done|].
  unfold tryCatch, async_bind, await, saveAs.
  destruct (fetchArrayBuffer pdfUrl) as [original|]; [|done]. simpl.
  destruct (loadDocument original) as [pdfDoc|]; [|done].
  destruct (flattenedDocument_cases s pdfDoc) as (E & _).
  rewrite E.
  destruct (flattenedDocument' s pdfDoc) as [flattened|]; [|done]. simpl.
  by destruct (saveDocument flattened).
Qed.

(** C7. Export is all-or-nothing. [handleDownload] delivers nothing or one
    file, named "edited-document.pdf" with type application/pdf. It delivers
    the file with bytes [bytes] exactly when the URL is there and every step
    succeeds: the fetch of the original bytes, the decoding, the page loop
    and the re-encoding, which yields [bytes]. The page loop fails exactly
    when, for some page of the document that has a canvas and annotations,
    rasterizing the canvas or embedding its image fails. *)
Theorem export_all_or_nothing (pdfUrl : string) (s : State) :
  (handleDownload' pdfUrl s = [] \/
   exists bytes, handleDownload' pdfUrl s = [editedDocument bytes]) /\
  (forall bytes,
     handleDownload' pdfUrl s = [editedDocument bytes] <->
     pdfUrl <> "" /\
     exists original pdfDoc flattened,
       fetchArrayBuffer pdfUrl = Some original /\
       loadDocument original = Some pdfDoc /\
       flattenedDocument' s pdfDoc = Some flattened /\
       saveDocument flattened = Some bytes) /\
  (forall pdfDoc,
     flattenedDocument' s pdfDoc = None <->
     exists i, (i < length (doc_pages pdfDoc))%nat /\ pageStepFails' s i).
Proof.
  split_and!.
  - rewrite handleDownload_outcome. case_bool_decide; [by left|].
    destruct (fetchArrayBuffer pdfUrl ≫= loadDocument); [|by left].
    destruct (flattenedDocument' s p ≫= saveDocument); [right|left]; eauto.
  - intros bytes. rewrite handleDownload_outcome. split.
    + case_bool_decide; [done|].
      destruct (fetchArrayBuffer pdfUrl) as [original|] eqn:Hfetch; [|done].
      simpl.
      destruct (loadDocument original) as [pdfDoc|] eqn:Hload; [|done].
      destruct (flattenedDocument' s pdfDoc) as [flattened|] eqn:Hflat;
        [|done].
      simpl.
      destruct (saveDocument flattened) as [saved|] eqn:Hsave; [|done].
      intros [= <-]. split; [done|]. by exists original, pdfDoc, flattened.
    + intros (Hurl & original & pdfDoc & flattened & -> & Hl & Hf & Hs).
      rewrite bool_decide_eq_false_2 by done. simpl.
      rewrite Hl, Hf. simpl. by rewrite Hs.
  - intros pdfDoc. by destruct (flattenedDocument_cases s pdfDoc) as (_ & ? & _).
Qed.

(** C6. Export leaves the pages without annotations untouched: when the page
    loop completes, every page whose annotation sequence is missing or empty
    is, in the document handed to the encoder, the page the decoder gave;
    and when no page has annotations the loop completes with the decoded
    document itself, so that what is delivered is the re-encoding of the
    unmodified document. *)
Theorem export_keeps_unannotated_pages (pdfUrl : string) (s : State)
    (pdfDoc : PdfDocument) :
  (forall flattened i,
     flattenedDocument' s pdfDoc = Some flattened ->
     default [] (annotationsRef s !! i) = [] ->
     doc_pages flattened !! i = doc_pages pdfDoc !! i) /\
  ((forall i, default [] (annotationsRef s !! i) = []) ->
   flattenedDocument' s pdfDoc = Some pdfDoc /\
   (pdfUrl <> "" ->
    fetchArrayBuffer pdfUrl ≫= loadDocument = Some pdfDoc ->
    handleDownload' pdfUrl s
    = match saveDocument pdfDoc with
      | Some bytes => [editedDocument bytes]
      | None => []
      end)).
Proof.
  destruct (flattenedDocument_cases s pdfDoc) as (_ & Hfail & Hok).
  split.
  - intros flattened i Hsome Hnone.
    destruct (Hok flattened Hsome) as [Hkeep _]. by apply Hkeep.
  - intros Hnone.
    assert (Hsame : flattenedDocument' s pdfDoc = Some pdfDoc).
    { destruct (flattenedDocument' s pdfDoc) as [flattened|] eqn:Hf.
      - destruct (Hok flattened eq_refl) as [_ ->]; done.
      - destruct Hfail as [Hfail _].
        destruct (Hfail eq_refl) as (i & _ & c & f & o & _ & Han & _).
        specialize (Hnone i). by rewrite Han in Hnone. }
    split; [done|]. intros Hurl Hload.
    rewrite handleDownload_outcome, bool_decide_eq_false_2 by done.
    rewrite Hload, Hsame. done.
Qed.

End ExportProperties.

Lemma export_all_or_nothing_witness :
  handleDownload sampleFetch sampleLoad samplePng sampleDecode sampleSave
                 "blob:document" sampleSession
  = [editedDocument [Byte.xff]] /\
  handleDownload sampleFetch sampleLoad (fun _ _ => None) sampleDecode
                 sampleSave "blob:document" sampleSession
  = [].
Proof.
  split.
  - destruct (export_all_or_nothing sampleFetch sampleLoad samplePng
                sampleDecode sampleSave "blob:document" sampleSession)
      as (_ & Hiff & _).
    apply Hiff. split; [done|].
    eexists _, _, _. split_and!; [reflexivity|reflexivity| |];
      vm_compute; reflexivity.
  - destruct (export_all_or_nothing sampleFetch sampleLoad (fun _ _ => None)
                sampleDecode sampleSave "blob:document" sampleSession)
      as ([Hnone|[bytes Hsome]] & Hiff & Hloop); [done|].
    apply Hiff in Hsome as (_ & original & pdfDoc & flattened & _ & Hload
                            & Hflat & _).
    injection Hload as <-.
    assert (Hfail : flattenedDocument (fun _ _ => None) sampleDecode
                      sampleSession samplePdf = None) by by vm_compute.
    congruence.
Defined.

Lemma export_keeps_unannotated_pages_witness :
  (exists flattened,
     flattenedDocument samplePng sampleDecode sampleSession samplePdf
     = Some flattened /\
     doc_pages flattened !! 1%nat = doc_pages samplePdf !! 1%nat /\
     doc_pages flattened !! 0%nat <> doc_pages samplePdf !! 0%nat) /\
  flattenedDocument samplePng sampleDecode initialState samplePdf
  = Some samplePdf.
Proof.
  split.
  - eexists. split; [vm_compute; reflexivity|]. split.
    + apply (proj1 (export_keeps_unannotated_pages sampleFetch sampleLoad
                      samplePng sampleDecode sampleSave "blob:document"
                      sampleSession samplePdf));
        vm_compute; reflexivity.
    + vm_compute. discriminate.
  - apply (proj2 (export_keeps_unannotated_pages sampleFetch sampleLoad
                    samplePng sampleDecode sampleSave "blob:document"
                    initialState samplePdf)).
    intros i. unfold initialState. simpl_state. by rewrite lookup_empty.
Defined.

(** * Further properties of the code *)

(** ** The lifecycle effect and the annotation store *)

Lemma lifecycle_loop_keeps_store getContextOk indices s :
  annotationsRef (forEachIndex indices (lifecyclePage getContextOk) s)
  = annotationsRef s.
Proof.
  apply (forEachIndex_preserves
           (fun st => annotationsRef st = annotationsRef s)); [|done].
  intros p st Hst.
  by destruct (lifecyclePage_form getContextOk p st) as (? & ? & -> & _).
Qed.

(** The removal loop leaves alone the sequence of an index that is in the
    mapping or has no canvas. *)
Lemma removal_loop_keeps indices : forall s p,
  p ∈ dom (pageContainerRefs s) \/ p ∉ dom (canvasRefs s) ->
  annotationsRef (forEachIndex indices removePage s) !! p
  = annotationsRef s !! p.
Proof.
  unfold forEachIndex.
  induction indices as [|i rest IH]; intros s p Hp; simpl; [done|].
  destruct (removePage_form i s) as [[-> _]|(Hel & Hcv & E)]; [by apply IH|].
  assert (p <> i) by (intros ->; destruct Hp; done).
  rewrite IH; rewrite E; simpl_state.
  - by rewrite lookup_delete_ne.
  - rewrite dom_delete_L. destruct Hp; [by left|right; set_solver].
Qed.

(** It drops the sequence of a listed index that has a canvas and is not in
    the mapping. *)
Lemma removal_loop_drops indices : forall s p,
  p ∈ indices ->
  p ∉ dom (pageContainerRefs s) -> p ∈ dom (canvasRefs s) ->
  annotationsRef (forEachIndex indices removePage s) !! p = None.
Proof.
  induction indices as [|i rest IH]; intros s p Hin Hel Hcv.
  { by apply elem_of_nil in Hin. }
  change (forEachIndex (i :: rest) removePage s)
    with (forEachIndex rest removePage (removePage i s)).
  destruct (decide (p = i)) as [->|Hne].
  - destruct (removePage_form i s) as [[_ [?|?]]|(_ & _ & E)]; [done..|].
    rewrite removal_loop_keeps; rewrite E; simpl_state.
    + apply lookup_delete_eq.
    + right. rewrite dom_delete_L. set_solver.
  - apply elem_of_cons in Hin as [?|Hin]; [done|].
    apply IH; [done|..];
      destruct (removePage_form i s) as [[-> _]|(_ & _ & ->)];
      simpl_state; rewrite ?dom_delete_L; set_solver.
Qed.

(** X1. A run of the canvas lifecycle effect, from any state, keeps the
    annotation sequence of every page that is in the mapping (or has no
    canvas) exactly as it was, and drops the sequence of every page that
    has a canvas and is no longer in the mapping. *)
Theorem lifecycle_effect_store (getContextOk : nat -> bool) (s : State)
    (pageIndex : nat) :
  (pageIndex ∈ dom (pageContainerRefs s) \/ pageIndex ∉ dom (canvasRefs s) ->
   annotationsRef (canvasLifecycleEffect getContextOk s) !! pageIndex
   = annotationsRef s !! pageIndex) /\
  (pageIndex ∉ dom (pageContainerRefs s) -> pageIndex ∈ dom (canvasRefs s) ->
   annotationsRef (canvasLifecycleEffect getContextOk s) !! pageIndex = None).
Proof.
  unfold canvasLifecycleEffect.
  set (known := elements (dom (pageContainerRefs s))).
  set (active := elements (dom (canvasRefs s))).
  destruct (lifecycle_loop_canvases getContextOk known s) as [L1 L2].
  pose proof (lifecycle_loop_keeps_store getContextOk known s) as L3.
  set (s1 := forEachIndex known (lifecyclePage getContextOk) s) in *.
  split.
  - intros Hp. rewrite removal_loop_keeps, L3; [done|].
    rewrite L1, L2.
    destruct (decide (pageIndex ∈ dom (pageContainerRefs s))); [by left|].
    right. subst known. rewrite list_to_set_elements_L. set_solver.
  - intros Hel Hcv. apply removal_loop_drops.
    + subst active. by apply elem_of_elements.
    + by rewrite L1.
    + rewrite L2. set_solver.
Qed.

Lemma lifecycle_effect_store_witness :
  let s := run [RegistryEmit {[0%nat := samplePage; 1%nat := samplePage]};
                ToolChange blur alwaysGranted;
                Mouse (mouseAt mousedown 0 0 0);
                Mouse (mouseAt mouseup 0 50 50);
                Mouse (mouseAt mousedown 1 0 0);
                Mouse (mouseAt mouseup 1 50 50);
                RegistryEmit {[1%nat := samplePage]}] initialState in
  is_Some (annotationsRef s !! 0%nat) /\
  annotationsRef (canvasLifecycleEffect alwaysGranted s) !! 0%nat = None /\
  annotationsRef (canvasLifecycleEffect alwaysGranted s) !! 1%nat
  = annotationsRef s !! 1%nat.
Proof.
  intros s. split; [eexists; by vm_compute|].
  destruct (lifecycle_effect_store alwaysGranted s 0) as [_ Hdrop].
  destruct (lifecycle_effect_store alwaysGranted s 1) as [Hkeep _].
  split.
  - apply Hdrop.
    + apply not_elem_of_dom. by vm_compute.
    + apply elem_of_dom. eexists. by vm_compute.
  - apply Hkeep. left. apply elem_of_dom. eexists. by vm_compute.
Defined.

(** ** The gesture refs *)

Lemma eraseMove_gesture pageIndex start x y s :
  isDrawingRef (eraseMove pageIndex start x y s) = isDrawingRef s /\
  startCoordsRef (eraseMove pageIndex start x y s) = startCoordsRef s /\
  currentCoordsRef (eraseMove pageIndex start x y s) = currentCoordsRef s.
Proof.
  unfold eraseMove, appendAnnotation.
  destruct (list.last _) as [[i p [| |]]|]; done.
Qed.

(** What a mouse event does to the three gesture refs: nothing, or start a
    drag at a point, or move the current point of an active drag, or end the
    drag. *)
Lemma handleToolInteraction_gesture event s :
  let s' := handleToolInteraction event s in
  (isDrawingRef s' = isDrawingRef s /\ startCoordsRef s' = startCoordsRef s /\
   currentCoordsRef s' = currentCoordsRef s) \/
  (exists here, isDrawingRef s' = true /\ startCoordsRef s' = Some here /\
                currentCoordsRef s' = Some here) \/
  (exists here, isDrawingRef s = true /\ isDrawingRef s' = true /\
                startCoordsRef s' = startCoordsRef s /\
                currentCoordsRef s' = Some here) \/
  (isDrawingRef s' = false /\ startCoordsRef s' = None /\
   currentCoordsRef s' = None).
Proof.
  simpl. unfold handleToolInteraction.
  case_bool_decide; [by left|].
  destruct (ev_page event) as [p|]; [|by left].
  destruct (canvasRefs s !! p) as [canvas|]; [|by left].
  destruct (contextRefs s !! p) as [context|]; [|by left].
  set (x := bounded _ (cv_width canvas)).
  set (y := bounded _ (cv_height canvas)).
  set (here := mkPoint x y).
  destruct (ev_type event).
  - right. left. by exists here.
  - destruct (isDrawingRef s) eqn:Hd; [|left; by rewrite Hd].
    right. right. left. exists here. split; [done|].
    destruct (redrawPageAnnotations_frame p (with_currentCoords (Some here) s))
      as (m & -> & _).
    simpl_state. rewrite ?Hd.
    destruct (activeTool s), (startCoordsRef s) as [start|] eqn:Hs;
      simpl_state; rewrite ?Hd, ?Hs; try done.
    + unfold previewBlur. simpl_state. by destruct (m !! p).
    + destruct (redrawPageAnnotations_gesture p
                  (eraseMove p start x y
                     (with_contextRefs m (with_currentCoords (Some here) s))))
        as (-> & -> & -> & _).
      destruct (eraseMove_gesture p start x y
                  (with_contextRefs m (with_currentCoords (Some here) s)))
        as (-> & -> & ->).
      simpl_state. by rewrite Hd, Hs.
  - right. right. right.
    by destruct (redrawPageAnnotations_gesture p
                   (with_gesture false None None
                      match startCoordsRef s with
                      | Some start =>
                          match releaseAnnotation (activeTool s) start
                                  x y (ev_prompt event) with
                          | Some newAnnotation =>
                              appendAnnotation p newAnnotation s
                          | None => s
                          end
                      | None => s
                      end)) as (-> & -> & -> & _).
Qed.

Lemma render_gesture getContextOk s :
  isDrawingRef (render getContextOk s) = isDrawingRef s /\
  startCoordsRef (render getContextOk s) = startCoordsRef s /\
  currentCoordsRef (render getContextOk s) = currentCoordsRef s.
Proof.
  unfold render. destruct (depsChanged s); [|done].
  destruct (canvasLifecycleEffect_untouched getContextOk s)
    as (_ & _ & _ & _ & _ & Hd & Hs & Hc & _).
  simpl_state. by rewrite Hd, Hs, Hc.
Qed.

Lemma step_gestureConsistent s e :
  gestureConsistent s -> gestureConsistent (step s e).
Proof.
  unfold gestureConsistent. intros [H1 H2].
  destruct e as [refs|tool ok|ev| |ok|p el]; simpl.
  - done.
  - assert (Hh : (isDrawingRef (handleToolChange tool s) = true
                  <-> is_Some (startCoordsRef (handleToolChange tool s))) /\
                 (is_Some (startCoordsRef (handleToolChange tool s))
                  <-> is_Some (currentCoordsRef (handleToolChange tool s)))).
    { destruct (handleToolChange_form tool s) as (r & c & -> & _).
      simpl_state. destruct (isDrawingTool tool); [done|].
      split; split; intros H; try done; by destruct H. }
    case_bool_decide; [done|].
    by destruct (render_gesture ok (handleToolChange tool s)) as (-> & -> & ->).
  - destruct (handleToolInteraction_gesture ev s)
      as [(-> & -> & ->)|[(h & -> & -> & ->)|[(h & Hd & -> & -> & ->)
         |(-> & -> & ->)]]].
    + done.
    + split; split; eauto.
    + split; [split; [intros _; by apply H1|done]|].
      split; [eauto|]. intros _. by apply H1.
    + split; split; intros H; try done; by destruct H.
  - destruct (handleMouseLeave_form s) as (m & -> & _). simpl_state.
    destruct (isDrawingRef s) eqn:Hd.
    + split; split; intros H; try done; by destruct H.
    + done.
  - by destruct (render_gesture ok s) as (-> & -> & ->).
  - unfold rendererLayout. by destruct (pageContainerRefs s !! p).
Qed.

(** X2. In every state the editor can reach, the three gesture refs agree: a
    drag is active exactly when a start point is held, and a start point is
    held exactly when a current point is. Hence the release and preview
    branches never meet an active drag without its start point. *)
Theorem gesture_refs_agree (events : list Event) :
  gestureConsistent (run events initialState).
Proof.
  assert (H0 : gestureConsistent initialState).
  { unfold gestureConsistent, initialState. simpl_state.
    split; split; intros H; try done; by destruct H. }
  revert H0. generalize initialState.
  induction events as [|e rest IH]; intros s Hs; simpl; [done|].
  apply IH. by apply step_gestureConsistent.
Qed.

(** ** The shape of the annotation store *)

(** What an erase move does to the sequence of its page: it appends a new
    two-point stroke, or it appends the point to the path of the last
    record; no other page is touched. *)
Lemma eraseMove_shape pageIndex start x y s :
  let old := pageAnnotations pageIndex s in
  exists new,
    annotationsRef (eraseMove pageIndex start x y s)
    = <[pageIndex := new]> (annotationsRef s) /\
    (new = old ++ [mkAnnotation (uuidCounter s) pageIndex
                     (EraseData [start; mkPoint x y])] \/
     exists front i p path,
       old = front ++ [mkAnnotation i p (EraseData path)] /\
       new = front ++ [mkAnnotation i p (EraseData (path ++ [mkPoint x y]))]).
Proof.
  simpl. unfold eraseMove, appendAnnotation, pageAnnotations.
  destruct (list.last (default [] (annotationsRef s !! pageIndex)))
    as [[i p d]|] eqn:Hlast.
  - apply last_Some in Hlast as [front Hfront].
    destruct d as [| path |]; simpl_state;
      try (eexists; split; [reflexivity|by left]).
    eexists. split; [reflexivity|]. right. exists front, i, p, path.
    rewrite Hfront, removelast_last. done.
  - eexists. split; [reflexivity|by left].
Qed.

(** What a mouse event does to the store: nothing, or an append to the
    sequence of the event's page, or an erase move on it. *)
Lemma handleToolInteraction_store event s :
  annotationsRef (handleToolInteraction event s) = annotationsRef s \/
  exists pageIndex,
    ev_page event = Some pageIndex /\
    ((exists payload,
        annotationsRef (handleToolInteraction event s)
        = annotationsRef (appendAnnotation pageIndex payload s)) \/
     (exists start x y,
        annotationsRef (handleToolInteraction event s)
        = annotationsRef (eraseMove pageIndex start x y s))).
Proof.
  unfold handleToolInteraction.
  case_bool_decide; [by left|].
  destruct (ev_page event) as [p|]; [|by left].
  destruct (canvasRefs s !! p) as [canvas|]; [|by left].
  destruct (contextRefs s !! p) as [context|]; [|by left].
  set (x := bounded _ (cv_width canvas)).
  set (y := bounded _ (cv_height canvas)).
  destruct (ev_type event).
  - by left.
  - destruct (isDrawingRef s); [|by left].
    destruct (redrawPageAnnotations_frame p
                (with_currentCoords (Some (mkPoint x y)) s)) as (m & -> & _).
    simpl_state.
    destruct (activeTool s), (startCoordsRef s) as [start|]; try by left.
    + left. unfold previewBlur. simpl_state. by destruct (m !! p).
    + right. exists p. split; [done|]. right. exists start, x, y.
      rewrite redrawPageAnnotations_annotations.
      by destruct (eraseMove_store p start x y m (Some (mkPoint x y)) s)
        as [-> _].
  - rewrite redrawPageAnnotations_annotations. simpl_state.
    destruct (startCoordsRef s) as [start|]; [|by left].
    destruct (releaseAnnotation _ _ _ _ _) as [payload|]; [|by left].
    right. exists p. split; [done|]. left. by exists payload.
Qed.

Lemma handleMouseLeave_store s :
  annotationsRef (handleMouseLeave s) = annotationsRef s.
Proof. by destruct (handleMouseLeave_form s) as (m & -> & _). Qed.

(** The effect keeps or drops whole sequences. *)
Lemma canvasLifecycleEffect_store_cases getContextOk s pageIndex :
  annotationsRef (canvasLifecycleEffect getContextOk s) !! pageIndex = None \/
  annotationsRef (canvasLifecycleEffect getContextOk s) !! pageIndex
  = annotationsRef s !! pageIndex.
Proof.
  unfold canvasLifecycleEffect.
  set (known := elements (dom (pageContainerRefs s))).
  destruct (lifecycle_loop_canvases getContextOk known s) as [L1 L2].
  pose proof (lifecycle_loop_keeps_store getContextOk known s) as L3.
  set (s1 := forEachIndex known (lifecyclePage getContextOk) s) in *.
  destruct (decide (pageIndex ∈ dom (pageContainerRefs s1))) as [Hin|Hout].
  { right. rewrite removal_loop_keeps, L3; auto. }
  destruct (decide (pageIndex ∈ dom (canvasRefs s))) as [Hcv|Hcv].
  - left. apply removal_loop_drops; [by apply elem_of_elements|done|].
    rewrite L2. set_solver.
  - right. rewrite removal_loop_keeps, L3; [done|]. right.
    rewrite L2. rewrite L1 in Hout. set_solver.
Qed.

Lemma step_store_cases s e pageIndex :
  annotationsRef (step s e) !! pageIndex = None \/
  annotationsRef (step s e) !! pageIndex = annotationsRef s !! pageIndex \/
  (exists a,
     annotationsRef (step s e) !! pageIndex
     = Some (pageAnnotations pageIndex s ++ [a]) /\
     ann_pageIndex a = pageIndex) \/
  (exists front i p path pt,
     pageAnnotations pageIndex s
     = front ++ [mkAnnotation i p (EraseData path)] /\
     annotationsRef (step s e) !! pageIndex
     = Some (front ++ [mkAnnotation i p (EraseData (path ++ [pt]))])).
Proof.
  assert (Hrender : forall ok st,
            annotationsRef (render ok st) !! pageIndex = None \/
            annotationsRef (render ok st) !! pageIndex
            = annotationsRef st !! pageIndex).
  { intros ok st. unfold render. destruct (depsChanged st); [|by right].
    simpl_state. apply canvasLifecycleEffect_store_cases. }
  destruct e as [refs|tool ok|ev| |ok|p el]; simpl.
  - right. by left.
  - assert (Hh : annotationsRef (handleToolChange tool s) = annotationsRef s)
      by by destruct (handleToolChange_form tool s) as (r & c & -> & _).
    case_bool_decide; [right; left; by rewrite Hh|].
    destruct (Hrender ok (handleToolChange tool s)) as [?|Hr]; [by left|].
    right. left. by rewrite Hr, Hh.
  - destruct (handleToolInteraction_store ev s)
      as [->|(q & Hq & [(payload & ->)|(start & x & y & ->)])].
    + right. by left.
    + destruct (decide (pageIndex = q)) as [->|Hne].
      * right. right. left. unfold appendAnnotation. simpl_state.
        rewrite lookup_insert_eq. by eexists.
      * right. left. unfold appendAnnotation. simpl_state.
        by rewrite lookup_insert_ne.
    + destruct (eraseMove_shape q start x y s) as (new & -> & Hnew).
      destruct (decide (pageIndex = q)) as [->|Hne].
      * rewrite lookup_insert_eq.
        destruct Hnew as [->|(front & i & p & path & Hold & ->)].
        -- right. right. left. by eexists.
        -- right. right. right. by exists front, i, p, path, (mkPoint x y).
      * right. left. by rewrite lookup_insert_ne.
  - right. left. by rewrite handleMouseLeave_store.
  - destruct (Hrender ok s); auto.
  - right. left. unfold rendererLayout.
    by destruct (pageContainerRefs s !! p).
Qed.

Lemma step_filedByPage s e : storeFiledByPage s -> storeFiledByPage (step s e).
Proof.
  intros Hs p new a Hnew Ha.
  assert (Hold : forall b, b ∈ pageAnnotations p s -> ann_pageIndex b = p).
  { unfold pageAnnotations. intros b Hb.
    destruct (annotationsRef s !! p) as [old|] eqn:Hp;
      [by eapply Hs | by apply elem_of_nil in Hb]. }
  destruct (step_store_cases s e p)
    as [Hn|[Hsame|[(b & Hb & Hpage)|(front & i & q & path & pt & Ho & Hb)]]].
  - congruence.
  - rewrite Hsame in Hnew. by eapply Hs.
  - rewrite Hb in Hnew. injection Hnew as <-.
    apply elem_of_app in Ha as [Ha|Ha]; [by apply Hold|].
    apply list_elem_of_singleton in Ha. by subst.
  - rewrite Hb in Hnew. injection Hnew as <-.
    apply elem_of_app in Ha as [Ha|Ha].
    + apply Hold. rewrite Ho. apply elem_of_app. by left.
    + apply list_elem_of_singleton in Ha. subst a. simpl.
      apply (Hold (mkAnnotation i q (EraseData path))).
      rewrite Ho. apply elem_of_app. right. by apply list_elem_of_singleton.
Qed.

(** X3. In every state the editor can reach, annotations are kept only for
    pages that have a canvas, and every record sits in the sequence of the
    page index it carries. *)
Theorem store_filed_by_page (events : list Event) :
  let s := run events initialState in
  dom (annotationsRef s) ⊆ dom (canvasRefs s) /\ storeFiledByPage s.
Proof.
  split.
  - apply (coh_annotations _ (run_coherent events _ initialState_coherent)).
  - assert (H0 : storeFiledByPage initialState).
    { intros p l a. unfold initialState. simpl_state.
      by rewrite lookup_empty. }
    revert H0. generalize initialState.
    induction events as [|e rest IH]; intros s Hs; simpl; [done|].
    apply IH. by apply step_filedByPage.
Qed.

(** ** Pointer input only ever adds to the store *)









(** ** Canvas style *)

(** X5. In every state the editor can reach, every live surface is styled
    for the current tool: it accepts pointer input exactly for blur, erase
    and addText, and its cursor is the crosshair for blur and erase, the
    text cursor for addText and the default cursor for none. *)
Theorem surface_style_follows_tool (events : list Event) (pageIndex : nat)
    (canvas : Canvas) :
  let s := run events initialState in
  pageIndex ∈ liveSurfaces s ->
  canvasRefs s !! pageIndex = Some canvas ->
  cv_pointerEvents canvas = toolPointerEvents (activeTool s) /\
  cv_cursor canvas = toolCursor (activeTool s).
Proof.
  intros s Hlive Hcv.
  destruct (run_follows events _ initialState_follows) as [_ Hstyle].
  apply (Hstyle pageIndex canvas Hcv).
  unfold liveSurfaces in Hlive. set_solver.
Qed.

Lemma surface_style_follows_tool_witness :
  let s := run [RegistryEmit {[0%nat := samplePage]};
                ToolChange addText alwaysGranted;
                RegistryEmit {[0%nat := samplePage; 1%nat := samplePage]};
                Rerender alwaysGranted] initialState in
  activeTool s = addText /\
  exists canvas,
    canvasRefs s !! 1%nat = Some canvas /\
    cv_pointerEvents canvas = toolPointerEvents (activeTool s) /\
    cv_cursor canvas = toolCursor (activeTool s).
Proof.
  intros s. split; [by vm_compute|].
  exists (layoutCanvas samplePage in_page_layer addText).
  split; [by vm_compute|].
  apply (surface_style_follows_tool
           [RegistryEmit {[0%nat := samplePage]};
            ToolChange addText alwaysGranted;
            RegistryEmit {[0%nat := samplePage; 1%nat := samplePage]};
            Rerender alwaysGranted] 1
           (layoutCanvas samplePage in_page_layer addText)).
  - apply elem_of_elements. vm_compute. apply list_elem_of_In. simpl. tauto.
  - by vm_compute.
Defined.

(** ** The addText gesture *)

(** Unless the tool is erase, a move neither touches the store nor the
    start point. *)
Lemma move_keeps_store event s :
  activeTool s <> erase -> ev_type event = mousemove ->
  annotationsRef (handleToolInteraction event s) = annotationsRef s /\
  startCoordsRef (handleToolInteraction event s) = startCoordsRef s /\
  uuidCounter (handleToolInteraction event s) = uuidCounter s.
Proof.
  intros Htool Hty. unfold handleToolInteraction.
  case_bool_decide; [done|].
  destruct (ev_page event) as [p|]; [|done].
  destruct (canvasRefs s !! p) as [canvas|]; [|done].
  destruct (contextRefs s !! p) as [context|]; [|done].
  rewrite Hty. destruct (isDrawingRef s); [|done].
  set (s1 := with_currentCoords _ s).
  destruct (redrawPageAnnotations_frame p s1) as (m & -> & _).
  subst s1. simpl_state.
  destruct (activeTool s), (startCoordsRef s) as [start|] eqn:Hstart;
    simpl_state; try done.
  unfold previewBlur. simpl_state. by destruct (m !! p).
Qed.

Lemma moves_keep_store moves : forall s,
  activeTool s <> erase ->
  Forall (fun m => ev_type m = mousemove) moves ->
  surfacesKept s (run (Mouse <$> moves) s) /\
  annotationsRef (run (Mouse <$> moves) s) = annotationsRef s /\
  startCoordsRef (run (Mouse <$> moves) s) = startCoordsRef s /\
  uuidCounter (run (Mouse <$> moves) s) = uuidCounter s.
Proof.
  induction moves as [|m rest IH]; intros s Htool Hmoves.
  - split; [apply surfacesKept_refl|done].
  - inversion Hmoves as [|? ? Hm Hrest]; subst.
    change (run (Mouse <$> m :: rest) s)
      with (run (Mouse <$> rest) (handleToolInteraction m s)).
    pose proof (handleToolInteraction_kept m s) as Hk.
    destruct (move_keeps_store m s Htool Hm) as (Ha & Hs & Hu).
    destruct (IH (handleToolInteraction m s)) as (Hk' & Ha' & Hs' & Hu');
      [destruct Hk as [-> _]; done | done |].
    split; [by eapply surfacesKept_trans|].
    split_and!; congruence.
Qed.

Lemma text_release_commits event pageIndex canvas start s :
  activeTool s = addText ->
  ev_type event = mouseup -> ev_page event = Some pageIndex ->
  canvasRefs s !! pageIndex = Some canvas ->
  is_Some (contextRefs s !! pageIndex) ->
  startCoordsRef s = Some start ->
  annotationsRef (handleToolInteraction event s)
  = textCommit pageIndex (capturedPoint event canvas) (ev_prompt event) s.
Proof.
  intros Htool Hty Hpg Hcv [context Hctx] Hstart.
  unfold handleToolInteraction.
  rewrite bool_decide_eq_false_2 by (by rewrite Htool).
  rewrite Hpg, Hcv, Hctx, Hty, Hstart, Htool.
  rewrite redrawPageAnnotations_annotations. simpl_state.
  unfold releaseAnnotation, textCommit, capturedPoint. simpl.
  destruct (ev_prompt event) as [textContent|]; [|done].
  by case_bool_decide.
Qed.

(** X6. An addText gesture (press on a live page, any moves, release on a
    live page) commits one text label exactly when the prompt returns a
    non-empty text. The label is anchored at the captured release point on
    the page under the release, whatever the press point and the distance
    dragged; a cancelled or empty prompt leaves the store as it was. *)
Theorem text_commit_on_answer (s : State) (pressPage releasePage : nat)
    (pressCanvas releaseCanvas : Canvas) (press release : MouseEvent)
    (moves : list MouseEvent) :
  activeTool s = addText ->
  canvasRefs s !! pressPage = Some pressCanvas ->
  is_Some (contextRefs s !! pressPage) ->
  canvasRefs s !! releasePage = Some releaseCanvas ->
  is_Some (contextRefs s !! releasePage) ->
  ev_type press = mousedown -> ev_page press = Some pressPage ->
  Forall (fun m => ev_type m = mousemove) moves ->
  ev_type release = mouseup -> ev_page release = Some releasePage ->
  annotationsRef
    (run (Mouse press :: (Mouse <$> moves) ++ [Mouse release]) s)
  = textCommit releasePage (capturedPoint release releaseCanvas)
               (ev_prompt release) s.
Proof.
  intros Htool Hcv Hctx Hcv' Hctx' Hp1 Hp2 Hmoves Hr1 Hr2.
  change (run (Mouse press :: (Mouse <$> moves) ++ [Mouse release]) s)
    with (run ((Mouse <$> moves) ++ [Mouse release])
              (handleToolInteraction press s)).
  rewrite run_app.
  rewrite (press_starts_gesture press pressPage pressCanvas s)
    by (done || by rewrite Htool).
  set (s1 := with_gesture _ _ _ s).
  destruct (moves_keep_store moves s1) as
    ((Ht & _ & _ & _ & _ & Hcvs & Hdom) & Ha & Hs & Hu);
    [subst s1; simpl_state; by rewrite Htool | done |].
  set (s2 := run (Mouse <$> moves) s1) in *.
  simpl.
  rewrite (text_release_commits release releasePage releaseCanvas
             (capturedPoint press pressCanvas) s2); try done.
  - unfold textCommit. by rewrite Ha, Hu.
  - by rewrite Ht.
  - by rewrite Hcvs.
  - apply elem_of_dom. rewrite Hdom. by apply elem_of_dom.
Qed.

Lemma text_commit_on_answer_witness :
  let s := run [RegistryEmit {[0%nat := samplePage]};
                ToolChange addText alwaysGranted] initialState in
  let click answer :=
    {| ev_type := mouseup; ev_page := Some 0%nat; ev_clientX := 30;
       ev_clientY := 40; ev_rectLeft := 0; ev_rectTop := 0;
       ev_prompt := answer |} in
  annotationsRef
    (run (Mouse (mouseAt mousedown 0 30 40)
          :: (Mouse <$> []) ++ [Mouse (click (Some "note"))]) s) !! 0%nat
  = Some [mkAnnotation 0 0 (TextData 30 40 "note")] /\
  annotationsRef
    (run (Mouse (mouseAt mousedown 0 30 40)
          :: (Mouse <$> []) ++ [Mouse (click (Some ""))]) s) !! 0%nat
  = None.
Proof.
  intros s click. split.
  - rewrite (text_commit_on_answer s 0 0
               (layoutCanvas samplePage in_page_layer addText)
               (layoutCanvas samplePage in_page_layer addText)
               (mouseAt mousedown 0 30 40) (click (Some "note")) []);
      [ by vm_compute | by vm_compute | by vm_compute
      | eexists; by vm_compute | by vm_compute | eexists; by vm_compute
      | done | done | constructor | done | done ].
  - rewrite (text_commit_on_answer s 0 0
               (layoutCanvas samplePage in_page_layer addText)
               (layoutCanvas samplePage in_page_layer addText)
               (mouseAt mousedown 0 30 40) (click (Some "")) []);
      [ by vm_compute | by vm_compute | by vm_compute
      | eexists; by vm_compute | by vm_compute | eexists; by vm_compute
      | done | done | constructor | done | done ].
Defined.

(** ** The blur preview and the blur rectangle *)

(** The bitmap a redraw leaves on a page depends on the page's context,
    canvas and annotations only. *)
Lemma redraw_pixels_local pageIndex s t :
  contextRefs s !! pageIndex = contextRefs t !! pageIndex ->
  canvasRefs s !! pageIndex = canvasRefs t !! pageIndex ->
  annotationsRef s !! pageIndex = annotationsRef t !! pageIndex ->
  pixels pageIndex (redrawPageAnnotations pageIndex s)
  = pixels pageIndex (redrawPageAnnotations pageIndex t).
Proof.
  intros Hc Hv Ha.
  destruct (contextRefs s !! pageIndex) as [context|] eqn:Hctx;
    [destruct (canvasRefs s !! pageIndex) as [canvas|] eqn:Hcv|].
  - rewrite (redrawPageAnnotations_live pageIndex s context canvas),
      (redrawPageAnnotations_live pageIndex t context canvas) by done.
    unfold pixels. simpl_state. by rewrite !lookup_insert_eq, Ha.
  - rewrite (redrawPageAnnotations_dead pageIndex s),
      (redrawPageAnnotations_dead pageIndex t) by auto.
    unfold pixels. by rewrite Hctx, <- Hc.
  - rewrite (redrawPageAnnotations_dead pageIndex s),
      (redrawPageAnnotations_dead pageIndex t) by auto.
    unfold pixels. by rewrite Hctx, <- Hc.
Qed.

(** X7. During a blur drag a move on a live page shows the page's stored
    annotations, redrawn from a cleared surface, with exactly one preview
    rectangle on top, from the start point to the point of this move; the
    previews of earlier moves are gone and the store is untouched. *)
Theorem blur_preview_is_one_rectangle (s : State) (event : MouseEvent)
    (pageIndex : nat) (canvas : Canvas) (start : Point) :
  activeTool s = blur ->
  isDrawingRef s = true -> startCoordsRef s = Some start ->
  ev_type event = mousemove -> ev_page event = Some pageIndex ->
  canvasRefs s !! pageIndex = Some canvas ->
  is_Some (contextRefs s !! pageIndex) ->
  let here := capturedPoint event canvas in
  pixels pageIndex (handleToolInteraction event s)
  = (fun bitmap =>
       bitmap ++ [blurRectangle (pt_x start) (pt_y start)
                                (pt_x here) (pt_y here)])
      <$> pixels pageIndex (redrawPageAnnotations pageIndex s) /\
  annotationsRef (handleToolInteraction event s) = annotationsRef s.
Proof.
  intros Htool Hdraw Hstart Hty Hpg Hcv [context Hctx] here.
  split; [|apply blur_move_keeps_store; done].
  unfold handleToolInteraction.
  rewrite bool_decide_eq_false_2 by (by rewrite Htool).
  rewrite Hpg, Hcv, Hctx, Hty, Hdraw.
  set (s1 := with_currentCoords _ s).
  rewrite (redraw_pixels_local pageIndex s s1) by done.
  rewrite (redrawPageAnnotations_live pageIndex s1 context canvas) by done.
  subst s1. simpl_state. rewrite Htool, Hstart.
  unfold previewBlur, pixels. simpl_state.
  rewrite !lookup_insert_eq. simpl. by rewrite lookup_insert_eq.
Qed.

Lemma blur_preview_is_one_rectangle_witness :
  let s := run [RegistryEmit {[0%nat := samplePage]};
                ToolChange blur alwaysGranted;
                Mouse (mouseAt mousedown 0 10 10);
                Mouse (mouseAt mousemove 0 30 30)] initialState in
  pixels 0 (handleToolInteraction (mouseAt mousemove 0 50 20) s)
  = Some [blurRectangle 10 10 50 20].
Proof.
  intros s.
  destruct (blur_preview_is_one_rectangle s (mouseAt mousemove 0 50 20) 0
              (layoutCanvas samplePage in_page_layer blur) (mkPoint 10 10))
    as [-> _]; try by vm_compute.
  eexists. by vm_compute.
Defined.

(** X8. [drawBlurOverlay] paints the bounding box of its two corners: the
    same rectangle whichever corner comes first on either axis, of
    non-negative width and height, containing both corners; it appends
    exactly that one operation and leaves the filter off. *)
Theorem blur_overlay_is_bounding_box (context : Context2D)
    (startX startY endX endY : Z) :
  let painted := drawBlurOverlay context startX startY endX endY in
  painted = drawBlurOverlay context endX endY startX startY /\
  painted = drawBlurOverlay context endX startY startX endY /\
  ctx_filter painted = filter_none /\
  exists x y width height,
    ctx_bitmap painted
    = ctx_bitmap context
      ++ [FillRect x y width height "rgba(50, 50, 50, 0.85)" filter_blur4px] /\
    0 <= width /\ 0 <= height /\
    x <= startX <= x + width /\ x <= endX <= x + width /\
    y <= startY <= y + height /\ y <= endY <= y + height.
Proof.
  simpl. unfold drawBlurOverlay.
  assert (Hx : Z.abs (endX - startX) = Z.abs (startX - endX)) by lia.
  assert (Hy : Z.abs (endY - startY) = Z.abs (startY - endY)) by lia.
  split_and!.
  - by rewrite (Z.min_comm endX), (Z.min_comm endY), Hx, Hy.
  - by rewrite (Z.min_comm endX), Hx.
  - done.
  - eexists _, _, _, _. split; [reflexivity|]. lia.
Qed.

(** ** The pointer leaves the viewer *)

(** The redraw loop of the leave handler redraws each listed page once and
    leaves the bitmaps of the other pages alone. *)
Lemma redraw_loop_pixels indices : forall s p,
  NoDup indices ->
  pixels p (forEachIndex indices redrawPageAnnotations s)
  = if decide (p ∈ indices) then pixels p (redrawPageAnnotations p s)
    else pixels p s.
Proof.
  induction indices as [|i rest IH]; intros s p Hnd.
  { by rewrite decide_False by apply not_elem_of_nil. }
  change (forEachIndex (i :: rest) redrawPageAnnotations s)
    with (forEachIndex rest redrawPageAnnotations (redrawPageAnnotations i s)).
  apply list.NoDup_cons in Hnd as [Hi Hnd]. rewrite IH by done.
  destruct (redrawPageAnnotations_frame i s) as (m & E & _ & Hother).
  destruct (decide (p = i)) as [->|Hne].
  - rewrite decide_False by done.
    rewrite decide_True by (by left). done.
  - assert (Hagree : pixels p (redrawPageAnnotations i s) = pixels p s).
    { rewrite E. unfold pixels. simpl_state. by rewrite Hother. }
    destruct (decide (p ∈ rest)) as [Hin|Hout].
    + rewrite decide_True by (by right).
      apply redraw_pixels_local; rewrite E; simpl_state; auto.
    + rewrite decide_False; [done|]. rewrite not_elem_of_cons. done.
Qed.

(** X9. When the pointer leaves the viewer during a drag, the drag is
    aborted: the gesture refs are reset, the store and the canvases are as
    they were (erase points already recorded stay, nothing is committed for
    blur or text), and every page shows what a redraw of it shows, without
    preview. *)
Theorem mouse_leave_aborts_drag (s : State) (pageIndex : nat) :
  isDrawingRef s = true ->
  gestureIdle (handleMouseLeave s) /\
  annotationsRef (handleMouseLeave s) = annotationsRef s /\
  canvasRefs (handleMouseLeave s) = canvasRefs s /\
  pixels pageIndex (handleMouseLeave s)
  = pixels pageIndex (redrawPageAnnotations pageIndex s).
Proof.
  intros Hd.
  destruct (handleMouseLeave_form s) as (m & E & _).
  split_and!; try by rewrite E.
  - rewrite E. unfold gestureIdle. simpl_state. by rewrite Hd.
  - unfold handleMouseLeave. rewrite Hd.
    set (s1 := with_gesture false None None s).
    rewrite redraw_loop_pixels by apply NoDup_elements.
    destruct (decide (pageIndex ∈ elements (dom (canvasRefs s1)))) as [|Hout].
    + by apply redraw_pixels_local.
    + rewrite redrawPageAnnotations_dead; [done|]. right.
      apply not_elem_of_dom. intros Hin. apply Hout.
      by apply elem_of_elements.
Qed.

Lemma mouse_leave_aborts_drag_witness :
  let s := run [RegistryEmit {[0%nat := samplePage]};
                ToolChange blur alwaysGranted;
                Mouse (mouseAt mousedown 0 10 10);
                Mouse (mouseAt mousemove 0 30 30)] initialState in
  pixels 0 s = Some [blurRectangle 10 10 30 30] /\
  gestureIdle (handleMouseLeave s) /\
  pixels 0 (handleMouseLeave s) = Some [].
Proof.
  intros s. split; [by vm_compute|].
  destruct (mouse_leave_aborts_drag s 0) as (Hidle & _ & _ & ->);
    [by vm_compute|].
  split; [exact Hidle|by vm_compute].
Defined.

(** ** The erase gesture in general *)

(** While the page's last record is an erase stroke, each move of an erase
    drag on the page appends its point to that stroke. *)
Lemma erase_moves_extend pageIndex canvas start moves :
  forall t front i q path,
  activeTool t = erase ->
  canvasRefs t !! pageIndex = Some canvas ->
  is_Some (contextRefs t !! pageIndex) ->
  isDrawingRef t = true -> startCoordsRef t = Some start ->
  annotationsRef t !! pageIndex
  = Some (front ++ [mkAnnotation i q (EraseData path)]) ->
  Forall (fun m => ev_type m = mousemove /\ ev_page m = Some pageIndex) moves ->
  annotationsRef (run (Mouse <$> moves) t)
  = <[pageIndex :=
        front ++ [mkAnnotation i q
                    (EraseData
                       (path ++ ((fun m => capturedPoint m canvas) <$> moves)))]]>
      (annotationsRef t) /\
  activeTool (run (Mouse <$> moves) t) = erase.
Proof.
  induction moves as [|m rest IH];
    intros t front i q path Htool Hcv Hctx Hdraw Hstart Hlast Hmoves.
  - simpl. rewrite app_nil_r. split; [|done]. by rewrite insert_id.
  - inversion Hmoves as [|? ? [Hty Hpg] Hrest]; subst.
    change (run (Mouse <$> m :: rest) t)
      with (run (Mouse <$> rest) (handleToolInteraction m t)).
    destruct (handleToolInteraction_kept m t)
      as (Ht1 & _ & _ & _ & _ & Hcv1 & Hd1).
    destruct (erase_move_effect m pageIndex canvas start t)
      as (Ha1 & _ & Hdr1 & Hst1); try done.
    set (t1 := handleToolInteraction m t) in *.
    assert (E1 : annotationsRef t1
                 = <[pageIndex :=
                       front ++ [mkAnnotation i q
                                   (EraseData (path ++ [capturedPoint m canvas]))]]>
                     (annotationsRef t)).
    { rewrite Ha1. unfold eraseMove. rewrite Hlast. simpl.
      by rewrite last_snoc, removelast_last. }
    destruct (IH t1 front i q (path ++ [capturedPoint m canvas]))
      as [Hfinal Htool']; try done.
    + by rewrite Ht1.
    + by rewrite Hcv1.
    + apply elem_of_dom. rewrite Hd1. by apply elem_of_dom.
    + rewrite E1. apply lookup_insert_eq.
    + split; [|done]. rewrite Hfinal, E1, insert_insert_eq.
      by rewrite <- app_assoc.
Qed.

(** X10. An erase gesture on one live page (press, moves on that page,
    release anywhere), on a page whose last annotation is not an erase
    stroke: without a move it records nothing; with moves it records
    exactly one new erase stroke whose path is the captured press point
    followed by the captured point of every move, in order. The record
    exists from the first move on and the release adds nothing. *)
Theorem erase_gesture_records_path (s : State) (pageIndex : nat)
    (canvas : Canvas) (press release : MouseEvent) (moves : list MouseEvent) :
  activeTool s = erase ->
  canvasRefs s !! pageIndex = Some canvas ->
  is_Some (contextRefs s !! pageIndex) ->
  ev_type press = mousedown -> ev_page press = Some pageIndex ->
  Forall (fun m => ev_type m = mousemove /\ ev_page m = Some pageIndex) moves ->
  ev_type release = mouseup ->
  (forall a, list.last (default [] (annotationsRef s !! pageIndex)) = Some a ->
             ann_type a <> erase) ->
  annotationsRef
    (run (Mouse press :: (Mouse <$> moves) ++ [Mouse release]) s)
  = eraseCommit pageIndex (capturedPoint press canvas)
                ((fun m => capturedPoint m canvas) <$> moves) s.
Proof.
  intros Htool Hcv Hctx Hp1 Hp2 Hmoves Hr Hlast.
  change (run (Mouse press :: (Mouse <$> moves) ++ [Mouse release]) s)
    with (run ((Mouse <$> moves) ++ [Mouse release])
              (handleToolInteraction press s)).
  rewrite run_app.
  rewrite (press_starts_gesture press pageIndex canvas s)
    by (done || by rewrite Htool).
  set (start := capturedPoint press canvas).
  set (s1 := with_gesture true (Some start) (Some start) s).
  destruct moves as [|m rest].
  { simpl. by rewrite erase_release_keeps_store. }
  inversion Hmoves as [|? ? [Hty Hpg] Hrest]; subst.
  change (run (Mouse <$> m :: rest) s1)
    with (run (Mouse <$> rest) (handleToolInteraction m s1)).
  destruct (handleToolInteraction_kept m s1)
    as (Ht2 & _ & _ & _ & _ & Hcv2 & Hd2).
  destruct (erase_move_effect m pageIndex canvas start s1)
    as (Ha2 & _ & Hdr2 & Hst2); try done.
  set (s2 := handleToolInteraction m s1) in *.
  assert (E2 : annotationsRef s2
               = <[pageIndex :=
                     default [] (annotationsRef s !! pageIndex)
                     ++ [mkAnnotation (uuidCounter s) pageIndex
                           (EraseData [start; capturedPoint m canvas])]]>
                   (annotationsRef s)).
  { rewrite Ha2. unfold eraseMove. subst s1. simpl_state.
    destruct (list.last (default [] (annotationsRef s !! pageIndex)))
      as [[i p [| |]]|] eqn:El; try done.
    exfalso. by apply (Hlast _ eq_refl). }
  destruct (erase_moves_extend pageIndex canvas start rest s2
              (default [] (annotationsRef s !! pageIndex)) (uuidCounter s)
              pageIndex [start; capturedPoint m canvas])
    as [Hfinal Htool']; try done.
  - by rewrite Ht2.
  - by rewrite Hcv2.
  - apply elem_of_dom. rewrite Hd2. by apply elem_of_dom.
  - rewrite E2. apply lookup_insert_eq.
  - simpl. rewrite erase_release_keeps_store by done.
    rewrite Hfinal, E2, insert_insert_eq. done.
Qed.

Lemma erase_gesture_records_path_witness :
  let s := run [RegistryEmit {[0%nat := samplePage]};
                ToolChange blur alwaysGranted;
                Mouse (mouseAt mousedown 0 0 0);
                Mouse (mouseAt mouseup 0 50 50);
                ToolChange erase alwaysGranted] initialState in
  annotationsRef
    (run (Mouse (mouseAt mousedown 0 10 10)
          :: (Mouse <$> [mouseAt mousemove 0 20 10; mouseAt mousemove 0 20 20])
          ++ [Mouse (mouseAt mouseup 0 20 20)]) s) !! 0%nat
  = Some [mkAnnotation 0 0 (BlurData 0 0 50 50);
          mkAnnotation 1 0
            (EraseData [mkPoint 10 10; mkPoint 20 10; mkPoint 20 20])].
Proof.
  intros s.
  rewrite (erase_gesture_records_path s 0
             (layoutCanvas samplePage in_page_layer erase)
             (mouseAt mousedown 0 10 10) (mouseAt mouseup 0 20 20)
             [mouseAt mousemove 0 20 10; mouseAt mousemove 0 20 20]).
  - by vm_compute.
  - by vm_compute.
  - by vm_compute.
  - eexists. by vm_compute.
  - done.
  - done.
  - repeat constructor.
  - done.
  - intros a Ha. vm_compute in Ha. injection Ha as <-. by vm_compute.
Defined.

(** ** Export: the annotated pages *)

Section ExportDrawing.

Variable canvasToPng : Canvas -> option (list DrawOp) -> option Bytes.
Variable decodePng : Bytes -> option Bytes.

(** The loop body on a page with a canvas and annotations: when it
    completes, the page has the canvas image drawn over its whole box. *)
Lemma flattenPage_draws s i pdfDoc pdfDoc' delivered page canvas first others :
  doc_pages pdfDoc !! i = Some page ->
  canvasRefs s !! i = Some canvas ->
  annotationsRef s !! i = Some (first :: others) ->
  fst (flattenPage canvasToPng decodePng s i pdfDoc delivered) = Some pdfDoc' ->
  exists png image,
    canvasToPng canvas (pixels i s) = Some png /\
    decodePng png = Some image /\
    doc_pages pdfDoc' !! i
    = Some (drawImage page image 0 0 (page_width page) (page_height page)).
Proof.
  intros Hpage Hcv Han. unfold flattenPage. rewrite Hpage, Hcv, Han.
  unfold async_bind, await, async_ret.
  destruct (canvasToPng canvas (pixels i s)) as [png|] eqn:Hpng;
    [|by simpl].
  destruct (decodePng png) as [image|] eqn:Himg; [|by simpl].
  simpl. intros [= <-]. exists png, image. split_and!; [done..|]. simpl.
  apply list_lookup_insert_eq. by eapply lookup_lt_Some.
Qed.

(** The loop over indices that do not contain [i] leaves page [i] alone. *)
Lemma flattenPages_skips s indices : forall pdfDoc pdfDoc' delivered i,
  Forall (fun j => (j < length (doc_pages pdfDoc))%nat) indices ->
  i ∉ indices ->
  fst (flattenPages canvasToPng decodePng s indices pdfDoc delivered)
  = Some pdfDoc' ->
  doc_pages pdfDoc' !! i = doc_pages pdfDoc !! i.
Proof.
  induction indices as [|j rest IH]; intros pdfDoc pdfDoc' delivered i Hin Hi.
  { simpl. by intros [= <-]. }
  inversion Hin as [|? ? Hj Hrest]; subst.
  apply not_elem_of_cons in Hi as [Hne Hi].
  destruct (flattenPage_cases canvasToPng decodePng s j pdfDoc Hj)
    as (r1 & E1 & _ & Hok1).
  simpl. unfold async_bind. rewrite E1. destruct r1 as [pdfDoc1|]; [|done].
  destruct (Hok1 pdfDoc1 eq_refl) as (Hlen1 & Hother1 & _).
  intros Hrest'. rewrite (IH pdfDoc1 pdfDoc' delivered i); try done.
  - by apply Hother1.
  - by rewrite Hlen1.
Qed.

Lemma flattenPages_draws s indices : forall pdfDoc pdfDoc' delivered,
  NoDup indices ->
  Forall (fun j => (j < length (doc_pages pdfDoc))%nat) indices ->
  fst (flattenPages canvasToPng decodePng s indices pdfDoc delivered)
  = Some pdfDoc' ->
  forall i page canvas first others,
    i ∈ indices ->
    doc_pages pdfDoc !! i = Some page ->
    canvasRefs s !! i = Some canvas ->
    annotationsRef s !! i = Some (first :: others) ->
    exists png image,
      canvasToPng canvas (pixels i s) = Some png /\
      decodePng png = Some image /\
      doc_pages pdfDoc' !! i
      = Some (drawImage page image 0 0 (page_width page) (page_height page)).
Proof.
  induction indices as [|j rest IH];
    intros pdfDoc pdfDoc' delivered Hnd Hin Hrun i page canvas first others
           Hi Hpage Hcv Han.
  { by apply elem_of_nil in Hi. }
  apply list.NoDup_cons in Hnd as [Hj Hnd].
  inversion Hin as [|? ? Hlt Hrest]; subst.
  destruct (flattenPage_cases canvasToPng decodePng s j pdfDoc Hlt)
    as (r1 & E1 & _ & Hok1).
  simpl in Hrun. unfold async_bind in Hrun.
  pose proof (E1 delivered) as E1d. rewrite E1d in Hrun.
  destruct r1 as [pdfDoc1|]; [|done].
  destruct (Hok1 pdfDoc1 eq_refl) as (Hlen1 & Hother1 & _).
  assert (Hrest1 : Forall (fun k => (k < length (doc_pages pdfDoc1))%nat) rest)
    by by rewrite Hlen1.
  destruct (decide (i = j)) as [->|Hne].
  - destruct (flattenPage_draws s j pdfDoc pdfDoc1 delivered page canvas
                first others Hpage Hcv Han) as (png & image & Hpng & Himg & Hdrawn).
    { by rewrite E1d. }
    exists png, image. split_and!; [done..|].
    by rewrite (flattenPages_skips s rest pdfDoc1 pdfDoc' delivered j).
  - apply elem_of_cons in Hi as [?|Hi]; [done|].
    eapply (IH pdfDoc1 pdfDoc' delivered); try done.
    by rewrite Hother1.
Qed.

(** X11. When the page loop of an export completes, every page of the
    document that has a canvas and a non-empty annotation sequence carries
    exactly one more drawn image than before: the rasterized canvas, placed
    at the origin and stretched to the page's own width and height. *)
Theorem export_draws_annotated_pages (s : State) (pdfDoc flattened : PdfDocument)
    (i : nat) (page : PdfPage) (canvas : Canvas) (first : Annotation)
    (others : list Annotation) :
  flattenedDocument canvasToPng decodePng s pdfDoc = Some flattened ->
  doc_pages pdfDoc !! i = Some page ->
  canvasRefs s !! i = Some canvas ->
  annotationsRef s !! i = Some (first :: others) ->
  exists png image,
    canvasToPng canvas (pixels i s) = Some png /\
    decodePng png = Some image /\
    doc_pages flattened !! i
    = Some (drawImage page image 0 0 (page_width page) (page_height page)).
Proof.
  unfold flattenedDocument. intros Hrun Hpage Hcv Han.
  eapply (flattenPages_draws s (seq 0 (length (doc_pages pdfDoc)))
            pdfDoc flattened []); try done.
  - apply NoDup_seq.
  - apply Forall_seq. intros. lia.
  - apply elem_of_seq. apply lookup_lt_Some in Hpage. lia.
Qed.

End ExportDrawing.

Lemma export_draws_annotated_pages_witness :
  exists flattened,
    flattenedDocument samplePng sampleDecode sampleSession samplePdf
    = Some flattened /\
    doc_pages flattened !! 0%nat
    = Some (mkPdfPage [Byte.x01] 612 792
              [mkPlacedImage [Byte.x89] 0 0 612 792]).
Proof.
  destruct (flattenedDocument samplePng sampleDecode sampleSession samplePdf)
    as [flattened|] eqn:Hflat; [|by vm_compute in Hflat].
  exists flattened. split; [done|].
  destruct (export_draws_annotated_pages samplePng sampleDecode sampleSession
              samplePdf flattened 0 (mkPdfPage [Byte.x01] 612 792 [])
              (layoutCanvas samplePage in_page_layer none)
              (mkAnnotation 0 0 (BlurData 0 0 50 50)) [])
    as (png & image & Hpng & Himg & Hpage);
    [exact Hflat|by vm_compute..|].
  vm_compute in Hpng. injection Hpng as <-.
  vm_compute in Himg. injection Himg as <-.
  exact Hpage.
Defined.

(** ** The registry *)

Lemma labelIndex_number (node : PageNode) (i : nat) :
  labelIndex node = Some i <-> node_pageNumber node = Some (Z.of_nat i + 1).
Proof.
  unfold labelIndex. destruct (node_pageNumber node) as [n|]; [|done].
  case_bool_decide as Hn; split; intros [= Heq]; try lia.
  - f_equal. lia.
  - f_equal. lia.
Qed.

Lemma collectRefs_snoc (nodes : list PageNode) (node : PageNode) :
  collectRefs (nodes ++ [node])
  = match labelIndex node with
    | Some pageIndex => <[pageIndex := node_element node]> (collectRefs nodes)
    | None => collectRefs nodes
    end.
Proof. unfold collectRefs. by rewrite foldl_app. Qed.

(** X12. The mapping the registry builds sends index [i] to the element of
    the last page node labelled 'Page i+1'; a node whose label gives no
    number of at least 1 appears under no index and changes no entry of
    the others. *)
Theorem registry_mapping_lookup (nodes : list PageNode) (i : nat) :
  collectRefs nodes !! i
  = node_element
      <$> list.last
            (filter (fun node => node_pageNumber node = Some (Z.of_nat i + 1))
                    nodes).
Proof.
  induction nodes as [|node nodes IH] using rev_ind.
  - unfold collectRefs. simpl. by rewrite lookup_empty.
  - rewrite collectRefs_snoc, list.filter_app, filter_cons, filter_nil.
    destruct (labelIndex node) as [j|] eqn:Hj.
    + destruct (decide (j = i)) as [->|Hne].
      * apply labelIndex_number in Hj.
        rewrite decide_True by done.
        by rewrite lookup_insert_eq, last_snoc.
      * rewrite lookup_insert_ne by done.
        rewrite decide_False, app_nil_r; [done|].
        intros Hi. apply labelIndex_number in Hi. congruence.
    + rewrite decide_False, app_nil_r; [done|].
      intros Hi. apply labelIndex_number in Hi. congruence.
Qed.

(** X13. The observer callback emits exactly when the set of page indices
    in the document differs from the index set of the mapping last sent,
    also when the document has no page at all; what it emits is the mapping
    of the page nodes; and run again on the same document with that mapping
    recorded as sent, it emits nothing. *)
Theorem registry_emits_on_change (nodes : list PageNode)
    (sent : gmap nat PageElement) :
  (handleMutations nodes sent = None <-> pagesOf nodes = dom sent) /\
  (forall refs, handleMutations nodes sent = Some refs ->
     refs = collectRefs nodes /\ dom refs = pagesOf nodes /\
     handleMutations nodes refs = None).
Proof.
  assert (Hchar : handleMutations nodes sent
                  = if bool_decide (dom (collectRefs nodes) = dom sent)
                    then None else Some (collectRefs nodes)).
  { unfold handleMutations. destruct nodes as [|node rest]; [|done].
    unfold collectRefs. simpl. rewrite dom_empty_L.
    do 2 case_bool_decide; congruence. }
  unfold pagesOf. rewrite <- collectRefs_dom. split.
  - rewrite Hchar. case_bool_decide; split; done.
  - intros refs. rewrite Hchar. case_bool_decide; [done|]. intros [= <-].
    split; [done|]. split; [done|].
    unfold handleMutations. destruct nodes as [|node rest].
    + unfold collectRefs. simpl. by rewrite bool_decide_eq_true_2.
    + by rewrite bool_decide_eq_true_2.
Qed.

Lemma registry_emits_on_change_witness :
  let nodes := [mkPageNode (Some 1) samplePage; mkPageNode None widePage;
                mkPageNode (Some 3) narrowPage] in
  handleMutations nodes ∅ = Some {[0%nat := samplePage; 2%nat := narrowPage]} /\
  handleMutations nodes {[0%nat := samplePage; 2%nat := narrowPage]} = None.
Proof.
  intros nodes.
  destruct (registry_emits_on_change nodes ∅) as [_ Hemit].
  assert (H : handleMutations nodes ∅
              = Some {[0%nat := samplePage; 2%nat := narrowPage]})
    by by vm_compute.
  split; [exact H|]. by destruct (Hemit _ H) as (_ & _ & ?).
Defined.

(** ** The search for the root, read backwards *)

Lemma sum_of_equal_delays (l : list nat) :
  Forall (eq 200%nat) l -> sum_list l = (200 * length l)%nat.
Proof.
  induction 1 as [|x l Hx _ IH]; simpl; [lia|]. subst x. rewrite IH. lia.
Qed.

(** X14. Whatever the arguments of the search, its outcome tells what it
    saw: it attaches the observer at attempt [k] only if the container was
    there at attempt [k] and at no attempt before, after one retry per
    failed attempt; it gives up only if the container was at none of its
    attempts, after as many retries as attempts were left (none when it
    starts past the maximum). Every retry waits 200 ms, so the search
    started by the viewer waits 10 seconds at most. *)
Theorem polling_outcome_explained (viewerFound : nat -> bool)
    (attempt maxAttempts : nat) :
  pollExplained viewerFound attempt maxAttempts
    (pollForViewerAndAttachObserver viewerFound attempt maxAttempts) /\
  sum_list (poll_delays
              (pollForViewerAndAttachObserver viewerFound attempt maxAttempts))
  = (200 * length (poll_delays
                     (pollForViewerAndAttachObserver viewerFound attempt
                                                     maxAttempts)))%nat /\
  (sum_list (poll_delays (startPolling viewerFound)) <= 50 * 200)%nat.
Proof.
  split_and!.
  - unfold pollExplained.
    funelim (pollForViewerAndAttachObserver viewerFound attempt maxAttempts);
      simpl.
    + split_and!; [done|lia|intros; lia].
    + destruct (poll_outcome _) as [k|].
      * destruct H as (Hk & -> & Hbefore). split_and!; [done|lia|].
        intros j Hj1 Hj2. destruct (decide (j = attempt)) as [->|]; [done|].
        apply Hbefore; lia.
      * destruct H as (Hnow & Hlen & Hall). split_and!; [done|lia|].
        intros j Hj1 Hj2. destruct (decide (j = attempt)) as [->|]; [done|].
        apply Hall; lia.
    + split_and!; [done|lia|].
      intros j Hj1 Hj2. assert (j = attempt) as -> by lia. done.
  - apply sum_of_equal_delays.
    by destruct (poll_from viewerFound attempt maxAttempts) as (? & _).
  - unfold startPolling.
    destruct (poll_from viewerFound 0 50) as (Hall & Hlen & _).
    rewrite (sum_of_equal_delays _ Hall). lia.
Qed.

(** ** The viewer and the editor together *)

Lemma render_keeps getContextOk s :
  pageContainerRefs (render getContextOk s) = pageContainerRefs s /\
  activeTool (render getContextOk s) = activeTool s.
Proof.
  unfold render. destruct (depsChanged s); [|done].
  destruct (canvasLifecycleEffect_untouched getContextOk s)
    as (Ht & Hr & _).
  by simpl_state.
Qed.

Lemma handleToolChange_keeps tool s :
  dom (pageContainerRefs (handleToolChange tool s)) = dom (pageContainerRefs s) /\
  activeTool (handleToolChange tool s) = tool.
Proof.
  destruct (handleToolChange_form tool s) as (r & c & -> & Hr & _).
  by simpl_state.
Qed.

Lemma step_indices s e :
  (forall refs, e <> RegistryEmit refs) ->
  dom (pageContainerRefs (step s e)) = dom (pageContainerRefs s).
Proof.
  intros He. destruct e as [refs|tool ok|ev| |ok|p el]; simpl.
  - by destruct (He refs).
  - destruct (handleToolChange_keeps tool s) as [Hr _].
    case_bool_decide; [done|].
    by destruct (render_keeps ok (handleToolChange tool s)) as [-> _].
  - by destruct (handleToolInteraction_kept ev s) as (_ & -> & _).
  - destruct (handleMouseLeave_form s) as (m & -> & _). by simpl_state.
  - by destruct (render_keeps ok s) as [-> _].
  - unfold rendererLayout.
    destruct (pageContainerRefs s !! p) as [old|] eqn:Hp; [|done].
    simpl_state. rewrite dom_insert_L.
    apply elem_of_dom_2 in Hp. set_solver.
Qed.

Lemma step_tool s e :
  (forall tool ok, e <> ToolChange tool ok) ->
  activeTool (step s e) = activeTool s.
Proof.
  intros He. destruct e as [refs|tool ok|ev| |ok|p el]; simpl.
  - done.
  - by destruct (He tool ok).
  - by destruct (handleToolInteraction_kept ev s) as (-> & _).
  - destruct (handleMouseLeave_form s) as (m & -> & _). by simpl_state.
  - by destruct (render_keeps ok s) as [_ ->].
  - unfold rendererLayout. by destruct (pageContainerRefs s !! p).
Qed.

Lemma handleMutations_indices (nodes : list PageNode)
    (sent : gmap nat PageElement) :
  match handleMutations nodes sent with
  | Some refs => dom refs = pagesOf nodes
  | None => dom sent = pagesOf nodes
  end.
Proof.
  unfold pagesOf. rewrite <- collectRefs_dom.
  destruct (handleMutations nodes sent) as [refs|] eqn:Hm.
  - by apply handleMutations_emits in Hm as [-> _].
  - unfold handleMutations in Hm. destruct nodes as [|node rest].
    + case_bool_decide as Hd; [|done]. unfold collectRefs. simpl.
      by rewrite dom_empty_L.
    + case_bool_decide as Hd; [|done]. done.
Qed.

Lemma sessionStep_indices x ev :
  viaObserver ev ->
  dom (pageContainerRefs (sess_editor x)) = dom (sess_sent x) ->
  dom (pageContainerRefs (sess_editor (sessionStep x ev)))
  = dom (sess_sent (sessionStep x ev)).
Proof.
  intros Hev Hx. destruct ev as [nodes|e]; simpl.
  - by destruct (handleMutations nodes (sess_sent x)).
  - rewrite step_indices; [done|].
    intros refs ->. exact Hev.
Qed.

Lemma sessionRun_indices events : forall x,
  Forall viaObserver events ->
  dom (pageContainerRefs (sess_editor x)) = dom (sess_sent x) ->
  dom (pageContainerRefs (sess_editor (sessionRun events x)))
  = dom (sess_sent (sessionRun events x)).
Proof.
  induction events as [|ev rest IH]; intros x Hev Hx; simpl; [done|].
  inversion Hev; subst. apply IH; [done|]. by apply sessionStep_indices.
Qed.



Lemma sessionRun_app events1 events2 x :
  sessionRun (events1 ++ events2) x = sessionRun events2 (sessionRun events1 x).
Proof. apply foldl_app. Qed.

Lemma session_after_callback events nodes :
  Forall viaObserver events ->
  let x := sessionRun (events ++ [DocumentChanged nodes]) initialSession in
  dom (pageContainerRefs (sess_editor x)) = pagesOf nodes /\
  dom (sess_sent x) = pagesOf nodes.
Proof.
  intros Hev x. subst x. rewrite sessionRun_app. simpl.
  assert (Hx := sessionRun_indices events initialSession Hev eq_refl).
  set (x := sessionRun events initialSession) in *.
  assert (Hm := handleMutations_indices nodes (sess_sent x)).
  destruct (handleMutations nodes (sess_sent x)) as [refs|]; simpl.
  - done.
  - by rewrite Hx.
Qed.

(** X15. The editor's mapping follows the document. When the mapping reaches
    the editor through the observer callback only, then after any history
    of document changes and editor events, a run of the callback leaves the
    editor's mapping, and the mapping recorded as sent, with exactly the
    page indices of the page nodes now in the document, whether or not the
    callback emitted. *)
Theorem mapping_follows_document (events : list SessionEvent)
    (nodes : list PageNode) :
  Forall viaObserver events ->
  let x := sessionRun (events ++ [DocumentChanged nodes]) initialSession in
  dom (pageContainerRefs (sess_editor x)) = pagesOf nodes /\
  dom (sess_sent x) = pagesOf nodes.
Proof. apply session_after_callback. Qed.

Lemma mapping_follows_document_witness :
  let nodes := [mkPageNode (Some 1) samplePage; mkPageNode (Some 3) narrowPage] in
  let x := sessionRun ([DocumentChanged [mkPageNode (Some 1) samplePage];
                        EditorEvent (ToolChange blur alwaysGranted);
                        DocumentChanged []]
                       ++ [DocumentChanged nodes]) initialSession in
  dom (pageContainerRefs (sess_editor x)) = pagesOf nodes /\
  dom (sess_sent x) = pagesOf nodes.
Proof.
  intros nodes.
  apply (mapping_follows_document
           [DocumentChanged [mkPageNode (Some 1) samplePage];
            EditorEvent (ToolChange blur alwaysGranted);
            DocumentChanged []] nodes).
  repeat constructor.
Defined.



(** ** The text selection and the search *)

Lemma truthy_true (text : string) : truthy text = true <-> text <> "".
Proof. unfold truthy. by rewrite bool_decide_eq_true. Qed.

Lemma truthy_false (text : string) : truthy text = false <-> text = "".
Proof.
  unfold truthy. rewrite bool_decide_eq_false.
  destruct (decide (text = "")); naive_solver.
Qed.

Lemma setSelectedText_form value getContextOk ed :
  activeTool (ed_state (setSelectedText value getContextOk ed))
  = activeTool (ed_state ed) /\
  selectedText (setSelectedText value getContextOk ed) = value /\
  openedUrls (setSelectedText value getContextOk ed) = openedUrls ed.
Proof.
  unfold setSelectedText. simpl. split; [|done].
  case_bool_decide; [done|].
  by destruct (render_keeps getContextOk (ed_state ed)) as [_ ->].
Qed.

Section SearchProperties.

Variable encodeURIComponent : string -> string.

#[local] Set Warnings "-notation-for-abbreviation".
Local Notation searchUrl' := (searchUrl encodeURIComponent).
Local Notation editorStep' := (editorStep encodeURIComponent).
Local Notation editorRun' := (editorRun encodeURIComponent).

Lemma editorStep_selection ed input :
  (selectedText ed <> "" -> activeTool (ed_state ed) = none) ->
  Forall (fun url => exists text, text <> "" /\ url = searchUrl' text)
         (openedUrls ed) ->
  (selectedText (editorStep' ed input) <> "" ->
   activeTool (ed_state (editorStep' ed input)) = none) /\
  Forall (fun url => exists text, text <> "" /\ url = searchUrl' text)
         (openedUrls (editorStep' ed input)).
Proof.
  intros Hsel Hurls. destruct input as [e|text ok|selection ok]; simpl.
  - destruct e as [refs|tool ok'|ev| |ok'|p el];
      cbn [ed_state selectedText openedUrls];
      try (split; [|done]; intros Hne;
           rewrite step_tool by done; by apply Hsel).
    unfold toolButton. cbn [ed_state selectedText openedUrls].
    split; [|done].
    destruct (truthy (selectedText ed)) eqn:Ht; [done|].
    apply truthy_false in Ht. done.
  - unfold handleTextSelection.
    assert (Hclear : forall ed',
              ed' = setSelectedText "" ok ed ->
              (selectedText ed' <> "" -> activeTool (ed_state ed') = none) /\
              Forall (fun url => exists text, text <> "" /\ url = searchUrl' text)
                     (openedUrls ed')).
    { intros ed' ->.
      destruct (setSelectedText_form "" ok ed) as (_ & -> & ->). done. }
    case_bool_decide as Htool.
    + destruct text as [t|].
      * destruct (truthy t && _) eqn:Ht.
        -- destruct (setSelectedText_form t ok ed) as (-> & -> & ->). done.
        -- destruct (negb (truthy t) && _); [by apply Hclear|done].
      * destruct (truthy (selectedText ed)); [by apply Hclear|done].
    + destruct (truthy (selectedText ed)); [by apply Hclear|done].
  - unfold handleSearchChatGPT.
    destruct (truthy (selectedText ed)) eqn:Ht; [|done].
    apply truthy_true in Ht.
    assert (Hnew : Forall (fun url => exists text,
                             text <> "" /\ url = searchUrl' text)
                          (openedUrls ed ++ [searchUrl' (selectedText ed)])).
    { apply Forall_app. split; [done|]. constructor; [|done].
      by exists (selectedText ed). }
    destruct selection; [|done].
    match goal with
    | |- context [setSelectedText "" ok ?o] =>
        destruct (setSelectedText_form "" ok o) as (_ & -> & ->)
    end.
    done.
Qed.

Lemma editorRun_selection inputs : forall ed,
  (selectedText ed <> "" -> activeTool (ed_state ed) = none) ->
  Forall (fun url => exists text, text <> "" /\ url = searchUrl' text)
         (openedUrls ed) ->
  (selectedText (editorRun' inputs ed) <> "" ->
   activeTool (ed_state (editorRun' inputs ed)) = none) /\
  Forall (fun url => exists text, text <> "" /\ url = searchUrl' text)
         (openedUrls (editorRun' inputs ed)).
Proof.
  induction inputs as [|input rest IH]; intros ed Hsel Hurls; simpl; [done|].
  destruct (editorStep_selection ed input Hsel Hurls) as [Hsel' Hurls'].
  by apply IH.
Qed.

(** X17. A text selection is held in Select/View mode only. Whatever the
    user does (tool buttons, pointer and page events, selections, searches),
    whenever [selectedText] is not empty, and so whenever the search button
    is shown, the active tool is 'none'; with a drawing tool active the
    selection listener therefore changes nothing; and every address the
    search opened is the search address of a non-empty selection. *)
Theorem selection_in_view_mode_only (inputs : list EditorInput) :
  let ed := editorRun' inputs initialEditor in
  (selectedText ed <> "" -> activeTool (ed_state ed) = none) /\
  (forall text getContextOk,
     activeTool (ed_state ed) <> none ->
     handleTextSelection text getContextOk ed = ed) /\
  Forall (fun url => exists text, text <> "" /\ url = searchUrl' text)
         (openedUrls ed).
Proof.
  intros ed.
  destruct (editorRun_selection inputs initialEditor) as [Hsel Hurls];
    [done|by constructor|].
  fold ed in Hsel, Hurls. split_and!; [done| |done].
  intros text ok Htool. unfold handleTextSelection.
  rewrite bool_decide_eq_false_2 by done.
  destruct (truthy (selectedText ed)) eqn:Ht; [|done].
  apply truthy_true in Ht. by destruct Htool; apply Hsel.
Qed.

End SearchProperties.

(** ** The page that hosts the editor *)

Lemma uploads_app events1 events2 fileUrl :
  uploads (events1 ++ events2) fileUrl = uploads events2 (uploads events1 fileUrl).
Proof. apply foldl_app. Qed.

Lemma handleFileUpload_keeps upload fileUrl :
  is_Some (editorProp fileUrl) ->
  is_Some (editorProp (handleFileUpload upload fileUrl)).
Proof.
  intros Hm. unfold handleFileUpload.
  destruct (up_file upload); [|done].
  destruct (up_result upload) as [result|]; [|done].
  destruct (truthy result) eqn:Ht; [|done].
  simpl. rewrite Ht. by eexists.
Qed.

Lemma uploads_keep events : forall fileUrl,
  is_Some (editorProp fileUrl) -> is_Some (editorProp (uploads events fileUrl)).
Proof.
  induction events as [|upload rest IH]; intros fileUrl Hm; simpl; [done|].
  by apply IH, handleFileUpload_keeps.
Qed.

Lemma uploads_url events : forall fileUrl,
  (forall url, fileUrl = Some url -> url <> "") ->
  forall url, uploads events fileUrl = Some url -> url <> "".
Proof.
  induction events as [|upload rest IH]; intros fileUrl Hf; simpl; [done|].
  apply IH. intros url. unfold handleFileUpload.
  destruct (up_file upload); [|by apply Hf].
  destruct (up_result upload) as [result|]; [|by apply Hf].
  destruct (truthy result) eqn:Ht; [|by apply Hf].
  intros [= <-]. by apply truthy_true.
Qed.

(** X18. The host page hands the editor a loaded document only. After any
    sequence of uses of the file input, the editor is rendered exactly when
    [fileUrl] is set, and then with [fileUrl] itself, which is never the
    empty string; a file whose read completes with a non-empty result
    becomes the editor's [pdfUrl]; and once the editor is rendered, no later
    use of the file input (no file chosen, a read that never completes or
    gives nothing) brings the placeholder back. *)
Theorem host_passes_loaded_url (events : list Upload) :
  let fileUrl := uploads events None in
  (editorProp fileUrl = fileUrl /\
   forall url, fileUrl = Some url -> url <> "") /\
  (forall file result,
     result <> "" ->
     editorProp (uploads (events ++ [mkUpload (Some file) (Some result)]) None)
     = Some result) /\
  (forall more,
     is_Some (editorProp fileUrl) ->
     is_Some (editorProp (uploads more fileUrl))).
Proof.
  intros fileUrl.
  assert (Hurl : forall url, fileUrl = Some url -> url <> "")
    by by apply uploads_url.
  split; [|split].
  - split; [|done]. unfold editorProp.
    destruct fileUrl as [url|] eqn:Hf; [|done].
    by rewrite (proj2 (truthy_true url) (Hurl url eq_refl)).
  - intros file result Hr. rewrite uploads_app. fold fileUrl. simpl.
    unfold handleFileUpload. simpl.
    apply truthy_true in Hr. rewrite Hr. simpl. by rewrite Hr.
  - intros more. apply uploads_keep.
Qed.

(** ** What the lifecycle effect leaves on a page *)

Lemma sizeAndRedraw_at pageElement targetParent pageIndex s :
  is_Some (contextRefs s !! pageIndex) ->
  canvasRefs (sizeAndRedraw pageElement targetParent pageIndex s) !! pageIndex
  = Some (layoutCanvas pageElement targetParent (activeTool s)) /\
  contextRefs (sizeAndRedraw pageElement targetParent pageIndex s) !! pageIndex
  = Some (paintAll freshContext (default [] (annotationsRef s !! pageIndex))).
Proof.
  intros [context Hctx]. unfold sizeAndRedraw. cbn zeta. simpl_state.
  rewrite Hctx.
  erewrite redrawPageAnnotations_live;
    [|simpl_state; apply lookup_insert_eq..].
  simpl_state. by rewrite !lookup_insert_eq.
Qed.

Lemma sizeAndRedraw_other pageElement targetParent pageIndex s p :
  pageIndex <> p ->
  canvasRefs (sizeAndRedraw pageElement targetParent pageIndex s) !! p
  = canvasRefs s !! p /\
  contextRefs (sizeAndRedraw pageElement targetParent pageIndex s) !! p
  = contextRefs s !! p.
Proof.
  intros Hne. unfold sizeAndRedraw. cbn zeta.
  match goal with
  | |- context [redrawPageAnnotations pageIndex ?t] =>
      destruct (redrawPageAnnotations_frame pageIndex t) as (m & -> & _ & Hm);
      assert (Ht : canvasRefs t !! p = canvasRefs s !! p /\
                   contextRefs t !! p = contextRefs s !! p)
  end.
  { simpl_state. destruct (contextRefs s !! pageIndex); simpl_state;
      by rewrite ?lookup_insert_ne. }
  simpl_state. rewrite (Hm p) by done. exact Ht.
Qed.

Lemma lifecyclePage_at getContextOk pageIndex s pageElement :
  pageContainerRefs s !! pageIndex = Some pageElement ->
  getContextOk pageIndex = true ->
  (is_Some (canvasRefs s !! pageIndex) -> is_Some (contextRefs s !! pageIndex)) ->
  let s' := lifecyclePage getContextOk pageIndex s in
  canvasRefs s' !! pageIndex
  = Some (layoutCanvas pageElement
            (if hasPageLayer pageElement then in_page_layer else in_inner_page)
            (activeTool s)) /\
  contextRefs s' !! pageIndex
  = Some (paintAll freshContext (default [] (annotationsRef s !! pageIndex))).
Proof.
  intros Hel Hok Hctx s'. subst s'. unfold lifecyclePage. rewrite Hel, Hok.
  destruct (canvasRefs s !! pageIndex) as [canvas|] eqn:Hcv.
  - apply sizeAndRedraw_at. apply Hctx. by eexists.
  - match goal with
    | |- context [sizeAndRedraw ?e ?par pageIndex ?t] =>
        destruct (sizeAndRedraw_at e par pageIndex t) as [-> ->]
    end; [|done].
    simpl_state. rewrite lookup_insert_eq. by eexists.
Qed.

Lemma lifecyclePage_other getContextOk pageIndex s p :
  pageIndex <> p ->
  canvasRefs (lifecyclePage getContextOk pageIndex s) !! p = canvasRefs s !! p /\
  contextRefs (lifecyclePage getContextOk pageIndex s) !! p = contextRefs s !! p.
Proof.
  intros Hne. unfold lifecyclePage.
  destruct (pageContainerRefs s !! pageIndex) as [pageElement|]; [|done].
  destruct (canvasRefs s !! pageIndex) as [canvas|].
  - by apply sizeAndRedraw_other.
  - destruct (getContextOk pageIndex).
    + match goal with
      | |- context [sizeAndRedraw ?e ?par pageIndex ?t] =>
          destruct (sizeAndRedraw_other e par pageIndex t p Hne) as [-> ->]
      end.
      simpl_state. by rewrite !lookup_insert_ne.
    + simpl_state. by rewrite lookup_insert_ne.
Qed.

Lemma lifecycle_loop_other getContextOk p indices : forall s,
  p ∉ indices ->
  let s' := forEachIndex indices (lifecyclePage getContextOk) s in
  canvasRefs s' !! p = canvasRefs s !! p /\
  contextRefs s' !! p = contextRefs s !! p.
Proof.
  unfold forEachIndex.
  induction indices as [|q rest IH]; intros s Hp; simpl; [done|].
  apply not_elem_of_cons in Hp as [Hne Hp].
  destruct (IH (lifecyclePage getContextOk q s) Hp) as [-> ->].
  by apply lifecyclePage_other.
Qed.

Lemma lifecycle_loop_at getContextOk p pageElement indices : forall s,
  NoDup indices -> p ∈ indices ->
  pageContainerRefs s !! p = Some pageElement ->
  getContextOk p = true ->
  (is_Some (canvasRefs s !! p) -> is_Some (contextRefs s !! p)) ->
  let s' := forEachIndex indices (lifecyclePage getContextOk) s in
  canvasRefs s' !! p
  = Some (layoutCanvas pageElement
            (if hasPageLayer pageElement then in_page_layer else in_inner_page)
            (activeTool s)) /\
  contextRefs s' !! p
  = Some (paintAll freshContext (default [] (annotationsRef s !! p))).
Proof.
  induction indices as [|q rest IH]; intros s Hnd Hp Hel Hok Hctx;
    [by apply elem_of_nil in Hp|].
  apply list.NoDup_cons in Hnd as [Hq Hnd].
  change (forEachIndex (q :: rest) (lifecyclePage getContextOk) s)
    with (forEachIndex rest (lifecyclePage getContextOk)
            (lifecyclePage getContextOk q s)).
  cbn zeta.
  destruct (decide (q = p)) as [->|Hne].
  - destruct (lifecycle_loop_other getContextOk p rest
                (lifecyclePage getContextOk p s) Hq) as [-> ->].
    by apply lifecyclePage_at.
  - apply elem_of_cons in Hp as [->|Hp]; [done|].
    destruct (lifecyclePage_untouched getContextOk q s) as (Ht & Hr & _).
    destruct (lifecyclePage_other getContextOk q s p Hne) as [Hcv Hcx].
    destruct (IH (lifecyclePage getContextOk q s)) as [-> ->];
      [done|done|by rewrite Hr|done|by rewrite Hcv, Hcx|].
    rewrite Ht.
    by rewrite <- (lifecycle_loop_keeps_store getContextOk [q] s).
Qed.

Lemma removal_loop_other p pageElement indices s :
  pageContainerRefs s !! p = Some pageElement ->
  let s' := forEachIndex indices removePage s in
  canvasRefs s' !! p = canvasRefs s !! p /\
  contextRefs s' !! p = contextRefs s !! p.
Proof.
  intros Hel.
  apply (forEachIndex_preserves
           (fun st => pageContainerRefs st !! p = Some pageElement /\
                      canvasRefs st !! p = canvasRefs s !! p /\
                      contextRefs st !! p = contextRefs s !! p)
           removePage indices s); [|done].
  intros q st (Hst & Hcv & Hcx).
  destruct (removePage_form q st) as [[-> _]|(Hq & _ & ->)]; [done|].
  assert (q <> p).
  { intros ->. apply Hq. by eapply elem_of_dom_2. }
  simpl_state. by rewrite !lookup_delete_ne.
Qed.

(** X19. What the lifecycle effect leaves on a page. For every page of the
    mapping for which a context is granted, in a state where every canvas
    has its context, the effect leaves the page's canvas with exactly the
    size of its page element, under the element's page layer when it has
    one, layered at 5 and styled for the active tool, and leaves the page's
    context reset and painted with exactly the page's stored annotations in
    their order, at the coordinates they were stored with. Nothing of what
    the canvas showed before (another size, a preview) survives. *)
Theorem lifecycle_effect_repaints_page (getContextOk : nat -> bool)
    (s : State) (pageIndex : nat) (pageElement : PageElement) :
  pageContainerRefs s !! pageIndex = Some pageElement ->
  getContextOk pageIndex = true ->
  surfacesComplete s ->
  let s' := canvasLifecycleEffect getContextOk s in
  canvasRefs s' !! pageIndex
  = Some (layoutCanvas pageElement
            (if hasPageLayer pageElement then in_page_layer else in_inner_page)
            (activeTool s)) /\
  contextRefs s' !! pageIndex
  = Some (paintAll freshContext (default [] (annotationsRef s !! pageIndex))).
Proof.
  intros Hel Hok Hcomp s'. subst s'. unfold canvasLifecycleEffect.
  set (s1 := forEachIndex (elements (dom (pageContainerRefs s)))
                          (lifecyclePage getContextOk) s).
  destruct (lifecycle_loop_canvases getContextOk
              (elements (dom (pageContainerRefs s))) s) as [Hr _].
  fold s1 in Hr.
  destruct (removal_loop_other pageIndex pageElement
              (elements (dom (canvasRefs s))) s1) as [-> ->];
    [by rewrite Hr|].
  apply lifecycle_loop_at; [apply NoDup_elements| |done|done|].
  - apply elem_of_elements. by eapply elem_of_dom_2.
  - intros Hcv. apply elem_of_dom. rewrite Hcomp. by apply elem_of_dom.
Qed.

Lemma lifecycle_effect_repaints_page_witness :
  let s := rendererLayout 0 widePage sampleSession in
  let s' := canvasLifecycleEffect alwaysGranted s in
  canvasRefs s' !! 0%nat = Some (layoutCanvas widePage in_page_layer none) /\
  contextRefs s' !! 0%nat
  = Some (paintAll freshContext (default [] (annotationsRef s !! 0%nat))).
Proof.
  intros s.
  apply (lifecycle_effect_repaints_page alwaysGranted s 0 widePage).
  - by vm_compute.
  - done.
  - by vm_compute.
Defined.

(** ** Select/View mode *)





